(** * College Departments Portal: the server component, embedded and verified

    A shallow embedding of [2_server.py] (class [EnhancedCollegeServer]) and of
    the seeding done by [1_setup_database.py].  The SQLite database, the file
    system, the clock and standard output are one explicit [State]; methods of
    the server are computations in a state-and-exception monad [M]; a request
    is one iteration of the [while True] loop of [handle_client].

    Conventions of the model
    - Python [str] is [string]; a character is an [ascii] standing for the code
      point of the same number (code points above 255 are outside the model).
    - Python [int] is [Z].  Python [float] occurs once (the percentage column of
      the export): a double is the rational it stands for, and each operation
      rounds to the nearest double, ties to even ([round_double]).
    - SQL fixes the order of the rows of [ORDER BY] only up to rows with equal
      keys.  For the two queries ordered by a count the choice among them is
      a parameter ([TieOrder]), and the server is verified for every choice.
    - [hashlib.sha256] and [json.loads] are library functions: they are
      parameters of the development ([sha256], [json_loads]).
    - An operation on the outside world that can fail (connecting to the
      database, executing a statement, committing, opening or copying a file)
      asks the fault oracle [faults] of the state whether it fails this time. *)

From Stdlib Require Import ZArith QArith Qpower Lia Lqa String Ascii Sorted
  Permutation.
From stdpp Require Import base list gmap strings pretty.

Local Open Scope string_scope.
Local Open Scope list_scope.
Local Open Scope Z_scope.

(** ** Python strings *)

Module Py.

(** [str.isspace] on one character, for code points below 256. *)
Definition isspace (c : ascii) : bool :=
  let n := N_of_ascii c in
  ((9 <=? n) && (n <=? 13) || (28 <=? n) && (n <=? 32)
   || (n =? 133) || (n =? 160))%N.

(** [not s] for a string: true exactly on the empty string. *)
Definition is_empty (s : string) : bool :=
  match s with EmptyString => true | String _ _ => false end.

Fixpoint lstrip (s : string) : string :=
  match s with
  | EmptyString => EmptyString
  | String c r => if isspace c then lstrip r else s
  end.

Fixpoint rstrip (s : string) : string :=
  match s with
  | EmptyString => EmptyString
  | String c r =>
      let r' := rstrip r in
      if is_empty r' && isspace c then EmptyString else String c r'
  end.

(** [s.strip()] *)
Definition strip (s : string) : string := rstrip (lstrip s).

(** [len(s)] *)
Definition len (s : string) : Z := Z.of_nat (String.length s).

(** [c * n] for a one-character string [c]. *)
Fixpoint repeat_char (c : ascii) (n : nat) : string :=
  match n with O => EmptyString | S k => String c (repeat_char c k) end.

(** [s[:n]] *)
Definition prefix (n : nat) (s : string) : string := substring 0 n s.

(** [str(z)] for an integer. *)
Definition str_of_int (z : Z) : string := pretty z.

(** A number printed on at least two digits ([%m], [%d], [%H], [%M], [%S]). *)
Definition two_digits (n : nat) : string :=
  if (n <? 10)%nat then "0" +:+ pretty n else pretty n.

End Py.

(** ** JSON values

    What [json.loads] returns and [json.dumps] accepts.  A Python [dict] built
    from a JSON object is an association list searched from the front. *)

#[local] Set Warnings "-register-all".

Inductive json : Type :=
| JNull
| JBool (b : bool)
| JNum (n : Z)
| JStr (s : string)
| JArr (items : list json)
| JObj (fields : list (string * json)).

(** [d.get(key)]: [None] when the key is absent. *)
Fixpoint dict_get (key : string) (d : list (string * json)) : option json :=
  match d with
  | [] => None
  | (k, v) :: r => if String.eqb k key then Some v else dict_get key r
  end.

(** [v == s] for a value [v] obtained by [.get] and a string literal [s]. *)
Definition eq_str (v : option json) (s : string) : bool :=
  match v with
  | Some (JStr t) => String.eqb t s
  | _ => false
  end.

(** ** Data model: the three tables of [college_data.db] *)

Record Department := {
  dept_id : Z;
  dept_name : string;
  email : string;
  password_hash : string
}.

Record Entry := {
  entry_id : Z;
  entry_dept_id : Z;
  entry_type : string;
  data_content : string;
  created_at : string
}.

Record LogRecord := {
  log_level : string;
  log_message : string
}.

(** [self.stats] *)
Record Stats := {
  st_connections : Z;
  st_data_entries : Z;
  st_exports : Z
}.

(** A reading of the local clock, [datetime.now()]. *)
Record DateTime := {
  year : nat; month : nat; day : nat;
  hour : nat; minute : nat; second : nat
}.

(** [(host, port)] of a client. *)
Record Address := { host : string; port : Z }.

(** A CSV file is the list of rows given to [writer.writerow]. *)
Definition Row : Type := list string.

(** ** The state of the world the server runs in *)

Record State := {
  departments : list Department;
  data_entries : list Entry;
  system_logs : list LogRecord;
  files : gmap string (list Row);
  stats : Stats;
  stdout : list string;
  sent : list (Address * json);
  now : DateTime;
  current_timestamp : string;
  faults : list bool
}.

Definition set_data_entries (v : list Entry) (s : State) : State :=
  {| departments := departments s; data_entries := v;
     system_logs := system_logs s; files := files s; stats := stats s;
     stdout := stdout s; sent := sent s; now := now s;
     current_timestamp := current_timestamp s; faults := faults s |}.

Definition set_system_logs (v : list LogRecord) (s : State) : State :=
  {| departments := departments s; data_entries := data_entries s;
     system_logs := v; files := files s; stats := stats s;
     stdout := stdout s; sent := sent s; now := now s;
     current_timestamp := current_timestamp s; faults := faults s |}.

Definition set_files (v : gmap string (list Row)) (s : State) : State :=
  {| departments := departments s; data_entries := data_entries s;
     system_logs := system_logs s; files := v; stats := stats s;
     stdout := stdout s; sent := sent s; now := now s;
     current_timestamp := current_timestamp s; faults := faults s |}.

Definition set_stats (v : Stats) (s : State) : State :=
  {| departments := departments s; data_entries := data_entries s;
     system_logs := system_logs s; files := files s; stats := v;
     stdout := stdout s; sent := sent s; now := now s;
     current_timestamp := current_timestamp s; faults := faults s |}.

Definition set_stdout (v : list string) (s : State) : State :=
  {| departments := departments s; data_entries := data_entries s;
     system_logs := system_logs s; files := files s; stats := stats s;
     stdout := v; sent := sent s; now := now s;
     current_timestamp := current_timestamp s; faults := faults s |}.

Definition set_sent (v : list (Address * json)) (s : State) : State :=
  {| departments := departments s; data_entries := data_entries s;
     system_logs := system_logs s; files := files s; stats := stats s;
     stdout := stdout s; sent := v; now := now s;
     current_timestamp := current_timestamp s; faults := faults s |}.

Definition set_clock (dt : DateTime) (ts : string) (s : State) : State :=
  {| departments := departments s; data_entries := data_entries s;
     system_logs := system_logs s; files := files s; stats := stats s;
     stdout := stdout s; sent := sent s; now := dt;
     current_timestamp := ts; faults := faults s |}.

Definition set_faults (v : list bool) (s : State) : State :=
  {| departments := departments s; data_entries := data_entries s;
     system_logs := system_logs s; files := files s; stats := stats s;
     stdout := stdout s; sent := sent s; now := now s;
     current_timestamp := current_timestamp s; faults := v |}.

Definition set_departments (v : list Department) (s : State) : State :=
  {| departments := v; data_entries := data_entries s;
     system_logs := system_logs s; files := files s; stats := stats s;
     stdout := stdout s; sent := sent s; now := now s;
     current_timestamp := current_timestamp s; faults := faults s |}.

(** ** Exceptions and the monad of server code *)

Inductive exn : Type :=
| OperationalError (msg : string)     (* sqlite3.OperationalError *)
| ProgrammingError (msg : string)     (* sqlite3.ProgrammingError *)
| OSError (msg : string)
| AttributeError (msg : string)
| TypeError (msg : string)
| KeyError (msg : string)
| UnicodeDecodeError (msg : string).

(** [isinstance(e, sqlite3.Error)] *)
Definition is_sqlite_error (e : exn) : bool :=
  match e with
  | OperationalError _ | ProgrammingError _ => true
  | _ => false
  end.

(** [str(e)] *)
Definition exn_str (e : exn) : string :=
  match e with
  | OperationalError m | ProgrammingError m | OSError m
  | AttributeError m | TypeError m | KeyError m | UnicodeDecodeError m => m
  end.

Inductive result (A : Type) : Type :=
| Ok (a : A)
| Raise (e : exn).
Arguments Ok {A} a.
Arguments Raise {A} e.

Definition M (A : Type) : Type := State -> State * result A.

Definition ret {A} (a : A) : M A := fun s => (s, Ok a).

Definition raise {A} (e : exn) : M A := fun s => (s, Raise e).

Definition bind {A B} (m : M A) (f : A -> M B) : M B :=
  fun s =>
    match m s with
    | (s', Ok a) => f a s'
    | (s', Raise e) => (s', Raise e)
    end.

(** [try: m  except Exception as e: h e] *)
Definition try_except {A} (m : M A) (h : exn -> M A) : M A :=
  fun s =>
    match m s with
    | (s', Ok a) => (s', Ok a)
    | (s', Raise e) => h e s'
    end.

(** [try: m  except sqlite3.Error as e: h e]; other exceptions pass. *)
Definition try_except_sqlite {A} (m : M A) (h : exn -> M A) : M A :=
  try_except m (fun e => if is_sqlite_error e then h e else raise e).

Definition gets {A} (f : State -> A) : M A := fun s => (s, Ok (f s)).

Definition modify (f : State -> State) : M unit := fun s => (f s, Ok tt).

Declare Scope monad_scope.
Delimit Scope monad_scope with monad.
Notation "x <- m ;; k" := (bind m (fun x => k))
  (at level 100, m at next level, right associativity) : monad_scope.
Notation "m ;; k" := (bind m (fun _ => k))
  (at level 100, right associativity) : monad_scope.
Local Open Scope monad_scope.

(** [for x in l: body x] *)
Fixpoint for_each {A} (l : list A) (body : A -> M unit) : M unit :=
  match l with
  | [] => ret tt
  | x :: r => body x ;; for_each r body
  end.

(** ** The outside world: fault oracle, clock, console, files, sockets *)

(** Does the next fallible operation fail?  The oracle is consumed from the
    front; once it is exhausted nothing fails any more. *)
Definition fails : M bool :=
  fun s => (set_faults (tail (faults s)) s, Ok (hd false (faults s))).

(** The next [n] fallible operations succeed. *)
Fixpoint calm_oracle (n : nat) (oracle : list bool) : Prop :=
  match n with
  | O => True
  | S k => hd false oracle = false /\ calm_oracle k (tail oracle)
  end.

Definition calm (n : nat) (s : State) : Prop := calm_oracle n (faults s).

(** [print(line)] *)
Definition print (line : string) : M unit :=
  modify (fun s => set_stdout (stdout s ++ [line]) s).

(** [dt.strftime('%Y-%m-%d %H:%M:%S')] *)
Definition strftime_iso (dt : DateTime) : string :=
  pretty (year dt) +:+ "-" +:+ Py.two_digits (month dt) +:+ "-"
  +:+ Py.two_digits (day dt) +:+ " " +:+ Py.two_digits (hour dt) +:+ ":"
  +:+ Py.two_digits (minute dt) +:+ ":" +:+ Py.two_digits (second dt).

(** [dt.strftime('%Y%m%d_%H%M%S')] *)
Definition strftime_compact (dt : DateTime) : string :=
  pretty (year dt) +:+ Py.two_digits (month dt) +:+ Py.two_digits (day dt)
  +:+ "_" +:+ Py.two_digits (hour dt) +:+ Py.two_digits (minute dt)
  +:+ Py.two_digits (second dt).

(** [open(filename, 'w', ...)]: creates the file or empties it. *)
Definition open_w (filename : string) : M unit :=
  b <- fails ;;
  if b : bool then raise (OSError "[Errno 13] Permission denied")
  else modify (fun s => set_files (<[filename := []]> (files s)) s).

(** The state once [row] is written at the end of the file [filename]. *)
Definition append_row (filename : string) (row : Row) (s : State) : State :=
  set_files (alter (fun rows => rows ++ [row]) filename (files s)) s.

(** [writer.writerow(row)] on the file opened as [filename]. *)
Definition writerow (filename : string) (row : Row) : M unit :=
  modify (append_row filename row).

(** [shutil.copy2(src, dst)] *)
Definition copy2 (src dst : string) : M unit :=
  b <- fails ;;
  if b : bool then raise (OSError "[Errno 28] No space left on device")
  else
    content <- gets (fun s => files s !! src) ;;
    match content with
    | None => raise (OSError "[Errno 2] No such file or directory")
    | Some rows => modify (fun s => set_files (<[dst := rows]> (files s)) s)
    end.

(** [client_socket.send(json.dumps(response).encode('utf-8'))] *)
Definition send (address : Address) (response : json) : M unit :=
  modify (fun s => set_sent (sent s ++ [(address, response)]) s).

(** ** SQLite: connections, statements, and the queries of the server *)

(** A row written on a connection and not yet committed. *)
Inductive pending_row : Type :=
| PendingEntry (e : Entry)
| PendingLog (l : LogRecord).

Record Connection := {
  closed : bool;
  pending : list pending_row
}.

(** [sqlite3.connect('college_data.db')] *)
Definition sqlite3_connect : M Connection :=
  b <- fails ;;
  if b : bool then raise (OperationalError "unable to open database file")
  else ret {| closed := false; pending := [] |}.

(** [conn.close()]: what was not committed is lost. *)
Definition conn_close (conn : Connection) : Connection :=
  {| closed := true; pending := [] |}.

(** [conn.rollback()] *)
Definition conn_rollback (conn : Connection) : Connection :=
  {| closed := closed conn; pending := [] |}.

(** [cursor.execute(q)] followed by its [fetchone()] or [fetchall()], for a
    [SELECT] whose answer on the tables is [q]. *)
Definition cursor_execute {A} (conn : Connection) (q : State -> A) : M A :=
  if closed conn then raise (ProgrammingError "Cannot operate on a closed database.")
  else
    b <- fails ;;
    if b : bool then raise (OperationalError "database is locked")
    else gets q.

(** The rowid an [AUTOINCREMENT] key gives the next row.  Rows of
    [data_entries] are never deleted, so the largest rowid ever used is the
    largest one present. *)
Definition next_entry_id (s : State) : Z :=
  1 + fold_right Z.max 0 (List.map entry_id (data_entries s)).

(** [cursor.execute("INSERT INTO data_entries (dept_id, entry_type,
    data_content, created_at) VALUES (?, ?, ?, CURRENT_TIMESTAMP)", ...)];
    yields the connection holding the new row and [cursor.lastrowid]. *)
Definition cursor_insert_entry (conn : Connection)
    (dept : Z) (type content : string) : M (Connection * Z) :=
  if closed conn then raise (ProgrammingError "Cannot operate on a closed database.")
  else
    b <- fails ;;
    if b : bool then raise (OperationalError "database is locked")
    else
      rowid <- gets next_entry_id ;;
      ts <- gets current_timestamp ;;
      let e := {| entry_id := rowid; entry_dept_id := dept; entry_type := type;
                  data_content := content; created_at := ts |} in
      ret ({| closed := false; pending := pending conn ++ [PendingEntry e] |}, rowid).

(** [cursor.execute("INSERT INTO system_logs (log_level, message) VALUES (?, ?)", ...)] *)
Definition cursor_insert_log (conn : Connection) (level message : string)
    : M Connection :=
  if closed conn then raise (ProgrammingError "Cannot operate on a closed database.")
  else
    b <- fails ;;
    if b : bool then raise (OperationalError "database is locked")
    else
      let l := {| log_level := level; log_message := message |} in
      ret {| closed := false; pending := pending conn ++ [PendingLog l] |}.

Definition apply_pending (r : pending_row) (s : State) : State :=
  match r with
  | PendingEntry e => set_data_entries (data_entries s ++ [e]) s
  | PendingLog l => set_system_logs (system_logs s ++ [l]) s
  end.

(** [conn.commit()] *)
Definition conn_commit (conn : Connection) : M Connection :=
  if closed conn then raise (ProgrammingError "Cannot operate on a closed database.")
  else
    b <- fails ;;
    if b : bool then raise (OperationalError "database is locked")
    else
      modify (fun s => fold_left (fun acc r => apply_pending r acc) (pending conn) s) ;;
      ret {| closed := false; pending := [] |}.

(** [ORDER BY key DESC]: insertion sort, larger keys first.  SQL leaves the
    order of rows with equal keys open; the model keeps them in input order. *)
Fixpoint insert_desc {A K} (leb : K -> K -> bool) (key : A -> K)
    (x : A) (l : list A) : list A :=
  match l with
  | [] => [x]
  | y :: r => if leb (key y) (key x) then x :: l
              else y :: insert_desc leb key x r
  end.

Definition order_by_desc {A K} (leb : K -> K -> bool) (key : A -> K)
    (l : list A) : list A :=
  fold_right (insert_desc leb key) [] l.

(** [LIMIT n]: a negative [n] means no limit in SQLite. *)
Definition sql_limit {A} (n : Z) (l : list A) : list A :=
  if n <? 0 then l else take (Z.to_nat n) l.

(** [SUBSTR(s, 1, n)] *)
Definition substr1 (n : nat) (s : string) : string := substring 0 n s.

(** [FROM data_entries de JOIN departments d ON de.dept_id = d.dept_id] *)
Definition joined (s : State) : list (Entry * Department) :=
  flat_map
    (fun de => List.map (pair de)
                 (List.filter (fun d => dept_id d =? entry_dept_id de) (departments s)))
    (data_entries s).

(** [SELECT dept_id, dept_name FROM departments WHERE email = ? AND
    password_hash = ?], [fetchone()] *)
Definition q_credentials (email_ password_hash_ : string) (s : State)
    : option (Z * string) :=
  match List.find (fun d => String.eqb (email d) email_
                            && String.eqb (password_hash d) password_hash_)
                  (departments s) with
  | Some d => Some (dept_id d, dept_name d)
  | None => None
  end.

(** [SELECT dept_name FROM departments WHERE dept_id = ?], [fetchone()] *)
Definition q_dept_name (dept : Z) (s : State) : option string :=
  match List.find (fun d => dept_id d =? dept) (departments s) with
  | Some d => Some (dept_name d)
  | None => None
  end.

(** The main query of the automatic export: [dept_name, email, entry_type,
    data_content, created_at, entry_id], newest first. *)
Definition q_export_data (s : State)
    : list (string * string * string * string * string * Z) :=
  List.map (fun x : Entry * Department =>
              let (de, d) := x in
              (dept_name d, email d, entry_type de, data_content de,
               created_at de, entry_id de))
           (order_by_desc String.leb (fun x : Entry * Department => created_at (fst x))
              (joined s)).

(** [SELECT COUNT( * ) FROM data_entries] *)
Definition q_count_entries (s : State) : Z :=
  Z.of_nat (length (data_entries s)).

(** [SELECT COUNT(DISTINCT dept_id) FROM data_entries] *)
Definition q_active_departments (s : State) : Z :=
  Z.of_nat (length (remove_dups (List.map entry_dept_id (data_entries s)))).

(** Number of entries of one category. *)
Definition count_type (t : string) (l : list Entry) : Z :=
  Z.of_nat (length (List.filter (fun e => String.eqb (entry_type e) t) l)).

(** [GROUP BY ... ORDER BY count DESC] as SQLite answers it.  SQL says that
    the groups come out with the larger counts first and leaves open which of
    two groups with the same count comes first; SQLite decides that by its
    query plan, from what is in the database.  An engine is any function that
    rearranges the groups, counts descending, looking at the two tables. *)
Record TieOrder := {
  order_by_count :
    forall A : Type, list Department -> list Entry -> (A -> Z) -> list A -> list A;
  order_by_count_perm :
    forall A ds es (key : A -> Z) l, Permutation l (order_by_count A ds es key l);
  order_by_count_sorted :
    forall A ds es (key : A -> Z) l,
      Sorted (fun a b => key b <= key a) (order_by_count A ds es key l)
}.
Arguments order_by_count t {A} ds es key l : rename.

(** [SELECT entry_type, COUNT( * ) FROM data_entries GROUP BY entry_type
    ORDER BY COUNT( * ) DESC] *)
Definition q_type_stats (o : TieOrder) (s : State) : list (string * Z) :=
  order_by_count o (departments s) (data_entries s) snd
    (List.map (fun t => (t, count_type t (data_entries s)))
              (remove_dups (List.map entry_type (data_entries s)))).

(** [SELECT de.created_at, d.dept_name, de.entry_type,
    SUBSTR(de.data_content, 1, 100) ... ORDER BY de.created_at DESC LIMIT 10] *)
Definition q_recent_activity (s : State)
    : list (string * string * string * string) :=
  List.map (fun x : Entry * Department =>
              let (de, d) := x in
              (created_at de, dept_name d, entry_type de,
               substr1 100 (data_content de)))
           (sql_limit 10
              (order_by_desc String.leb
                 (fun x : Entry * Department => created_at (fst x)) (joined s))).

(** [MAX(created_at)] and [MIN(created_at)] over a group; [None] is SQL
    [NULL], the answer on an empty group. *)
Definition sql_max (l : list string) : option string :=
  match l with
  | [] => None
  | x :: r => Some (fold_left (fun a b => if String.ltb a b then b else a) r x)
  end.

Definition sql_min (l : list string) : option string :=
  match l with
  | [] => None
  | x :: r => Some (fold_left (fun a b => if String.ltb b a then b else a) r x)
  end.

(** The department activity query of the report: [dept_name,
    COUNT(de.entry_id), MAX(de.created_at), MIN(de.created_at)] over
    [departments LEFT JOIN data_entries], one group per department, busiest
    first. *)
Definition q_dept_stats (o : TieOrder) (s : State)
    : list (string * Z * option string * option string) :=
  order_by_count o (departments s) (data_entries s)
    (fun r : string * Z * option string * option string => snd (fst (fst r)))
    (List.map (fun d =>
                 let mine := List.filter (fun de => entry_dept_id de =? dept_id d)
                                         (data_entries s) in
                 (dept_name d, Z.of_nat (length mine),
                  sql_max (List.map created_at mine),
                  sql_min (List.map created_at mine)))
              (departments s)).

(** The query of [get_recent_entries]: [dept_name, entry_type,
    SUBSTR(data_content, 1, 100), created_at ... ORDER BY de.created_at DESC
    LIMIT ?] *)
Definition q_recent_entries (limit : Z) (s : State)
    : list (string * string * string * string) :=
  List.map (fun x : Entry * Department =>
              let (de, d) := x in
              (dept_name d, entry_type de, substr1 100 (data_content de),
               created_at de))
           (sql_limit limit
              (order_by_desc String.leb
                 (fun x : Entry * Department => created_at (fst x)) (joined s))).

(** ** Report formatting *)

(** The integer nearest to a rational, ties to the even one. *)
Definition round_half_even (q : Q) : Z :=
  let n := Qnum q in
  let d := Zpos (Qden q) in
  let fl := n / d in
  let r := n mod d in
  if 2 * r <? d then fl
  else if d <? 2 * r then fl + 1
  else if Z.even fl then fl else fl + 1.

(** Python floats are IEEE 754 doubles.  A double is modelled by the rational
    it stands for; [round_double q] is the double nearest to [q], ties to the
    even significand of 53 bits.  Only what the percentage needs is modelled:
    values that are zero or positive, and no bound on the exponent (a count
    is a 64-bit integer, so quotients and products stay far inside the range
    of normal doubles). *)
Definition pow2 (e : Z) : Q := Qpower (2 # 1) e.

(** For [q > 0], the [e] with [2^e <= q < 2^(e+1)]. *)
Definition floor_log2 (q : Q) : Z :=
  let l := Z.log2 (Qnum q) - Z.log2 (Zpos (Qden q)) in
  if Qle_bool (pow2 l) q then l else l - 1.

Definition round_double (q : Q) : Q :=
  if Qle_bool q 0 then 0%Q
  else
    let e := floor_log2 q - 52 in
    (inject_Z (round_half_even (q / pow2 e)) * pow2 e)%Q.

(** [(count / total_entries * 100) if total_entries > 0 else 0]: the
    quotient of the two integers is rounded to a double, and so is its
    product with 100. *)
Definition percentage (count total_entries : Z) : Q :=
  if 0 <? total_entries
  then round_double (round_double (inject_Z count / inject_Z total_entries)
                     * inject_Z 100)%Q
  else 0%Q.

(** The number of tenths printed for a percentage: formatting rounds the
    value of the double to one decimal, ties to even. *)
Definition tenths (q : Q) : Z := round_half_even (q * inject_Z 10)%Q.

(** [f'{q:.1f}'] *)
Definition format_1f (q : Q) : string :=
  let t := tenths q in
  (if t <? 0 then "-" else EmptyString)
  +:+ Py.str_of_int (Z.abs t / 10) +:+ "." +:+ Py.str_of_int (Z.abs t mod 10).

(** [x or 'N/A'] for a nullable text column. *)
Definition or_na (x : option string) : string :=
  match x with
  | Some v => if Py.is_empty v then "N/A" else v
  | None => "N/A"
  end.

(** The row of one category in the summary:
    [[entry_type, count, f'{percentage:.1f}%']]. *)
Definition category_row (total_entries : Z) (x : string * Z) : Row :=
  let (entry_type_, count) := x in
  let percentage_ := percentage count total_entries in
  [entry_type_; Py.str_of_int count; format_1f percentage_ +:+ "%"].

(** [[created_at, dept_name, entry_type, preview + '...']] *)
Definition recent_row (x : string * string * string * string) : Row :=
  let '(created_at_, dept_name_, entry_type_, preview) := x in
  [created_at_; dept_name_; entry_type_; preview +:+ "..."].

(** The row of the detailed section.  The loop of the source names the six
    columns [entry_id, dept_name, email, entry_type, data_content, created_at]
    while the query delivers [dept_name, email, entry_type, data_content,
    created_at, entry_id]; the names below are the loop's. *)
Definition detail_row (x : string * string * string * string * string * Z) : Row :=
  let '(entry_id_, dept_name_, email_, entry_type_, data_content_, created_at_) := x in
  let content_preview_ :=
    if 200 <? Py.len data_content_
    then Py.prefix 200 data_content_ +:+ "..."
    else data_content_ in
  [entry_id_; dept_name_; email_; entry_type_; content_preview_;
   Py.str_of_int created_at_].

(** The row of one department in the report. *)
Definition dept_row (x : string * Z * option string * option string) : Row :=
  let '(dept_name_, total_entries, last_activity, first_activity) := x in
  let status := if 0 <? total_entries then "Active" else "No Data" in
  [dept_name_; Py.str_of_int total_entries; or_na first_activity;
   or_na last_activity; status].

(** [str(address)] for the tuple [(host, port)]. *)
Definition address_str (a : Address) : string :=
  "('" +:+ host a +:+ "', " +:+ Py.str_of_int (port a) +:+ ")".

(** ** Values passed between the methods *)

(** The dict returned by [authenticate_department]. *)
Inductive auth_result : Type :=
| AuthSuccess (id : Z) (name : string)   (* success, dept_id, dept_name *)
| AuthFailure (message : string).        (* success = False, message *)

(** The dict returned by [save_department_data]. *)
Inductive save_result : Type :=
| SaveSuccess (id : Z) (name : string)   (* success, entry_id, dept_name *)
| SaveFailure (message : string).

(** One dict of the list returned by [get_recent_entries]. *)
Record EntrySummary := {
  sum_dept_name : string;
  sum_entry_type : string;
  content_preview : string;
  sum_created_at : string
}.

(** [{'dept_name': row[0], 'entry_type': row[1], 'content_preview': row[2],
    'created_at': row[3]}] *)
Definition summary_of_row (row : string * string * string * string) : EntrySummary :=
  let '(c0, c1, c2, c3) := row in
  {| sum_dept_name := c0; sum_entry_type := c1;
     content_preview := c2; sum_created_at := c3 |}.


Definition json_of_auth (r : auth_result) : json :=
  match r with
  | AuthSuccess id name =>
      JObj [("success", JBool true); ("dept_id", JNum id); ("dept_name", JStr name)]
  | AuthFailure message =>
      JObj [("success", JBool false); ("message", JStr message)]
  end.

Definition json_of_summary (e : EntrySummary) : json :=
  JObj [("dept_name", JStr (sum_dept_name e)); ("entry_type", JStr (sum_entry_type e));
        ("content_preview", JStr (content_preview e));
        ("created_at", JStr (sum_created_at e))].

Definition json_of_stats (st : Stats) : json :=
  JObj [("connections", JNum (st_connections st));
        ("data_entries", JNum (st_data_entries st));
        ("exports", JNum (st_exports st))].

Definition error_response (message : string) : json :=
  JObj [("status", JStr "error"); ("message", JStr message)].

(** The per-connection variables of [handle_client]. *)
Record Session := {
  authenticated : bool;
  dept_info : option auth_result
}.

Definition new_session : Session :=
  {| authenticated := false; dept_info := None |}.

Inductive control : Type := Continue | Break.

(** What one [client_socket.recv(1024).decode('utf-8')] can do: return text
    (the empty text when the peer has closed), time out, find the connection
    reset, or return bytes that are not UTF-8. *)
Inductive recv_result : Type :=
| RecvData (data : string)
| RecvTimeout
| RecvReset
| RecvUndecodable.

(** [dept_info['dept_id']] *)
Definition dept_info_id (info : option auth_result) : M Z :=
  match info with
  | None => raise (TypeError "'NoneType' object is not subscriptable")
  | Some (AuthSuccess id _) => ret id
  | Some (AuthFailure _) => raise (KeyError "'dept_id'")
  end.

(** [dept_info['dept_name']] *)
Definition dept_info_name (info : option auth_result) : M string :=
  match info with
  | None => raise (TypeError "'NoneType' object is not subscriptable")
  | Some (AuthSuccess _ name) => ret name
  | Some (AuthFailure _) => raise (KeyError "'dept_name'")
  end.

(** [message.get(key, '')] when it is a string. *)
Definition text_field (key : string) (message : list (string * json)) : option string :=
  match dict_get key message with
  | None => Some EmptyString
  | Some (JStr v) => Some v
  | Some _ => None
  end.

(** Session variables as the handler keeps them: an authenticated session
    holds the dict of a successful authentication. *)
Definition session_ok (sess : Session) : Prop :=
  authenticated sess = true ->
  exists id name, dept_info sess = Some (AuthSuccess id name).

(** [message.get(key, '').strip()] *)
Definition get_stripped (key : string) (message : list (string * json)) : M string :=
  match dict_get key message with
  | None => ret (Py.strip EmptyString)
  | Some (JStr v) => ret (Py.strip v)
  | Some _ => raise (AttributeError "object has no attribute 'strip'")
  end.

(** Text that arrives in one piece is read by [recv(bufsize)] in pieces of at
    most [bufsize] characters. *)
Fixpoint chunks_fuel (fuel bufsize : nat) (text : string) : list string :=
  match fuel with
  | O => []
  | S f =>
      if Py.is_empty text then []
      else substring 0 bufsize text
           :: chunks_fuel f bufsize
                (substring bufsize (String.length text - bufsize) text)
  end.

Definition chunks (bufsize : nat) (text : string) : list string :=
  chunks_fuel (String.length text) bufsize text.

(** The results of the successive [recv(bufsize)] calls on a connection on
    which [arrivals] come in. *)
Definition recv_stream (bufsize : nat) (arrivals : list recv_result)
    : list recv_result :=
  flat_map (fun a => match a with
                     | RecvData d =>
                         if Py.is_empty d then [RecvData EmptyString]
                         else List.map RecvData (chunks bufsize d)
                     | other => [other]
                     end) arrivals.

(** ** A reader of JSON text

    [json.loads] is a parameter of the server model.  Closed examples need one
    reader; this one covers the texts of the protocol: objects, arrays,
    strings with the two-character escapes, integers, [true], [false], [null].
    Its error messages are those of Python without the position. *)

Module JsonText.

Definition is_ws (c : ascii) : bool :=
  let n := N_of_ascii c in ((n =? 32) || (n =? 9) || (n =? 10) || (n =? 13))%N.

(** The double quote. *)
Definition dquote : ascii := ascii_of_N 34.

(** A text in which every apostrophe stands for a double quote. *)
Fixpoint quoted (s : string) : string :=
  match s with
  | EmptyString => EmptyString
  | String c r => String (if Ascii.eqb c "'" then dquote else c) (quoted r)
  end.

Definition is_digit (c : ascii) : bool :=
  let n := N_of_ascii c in ((48 <=? n) && (n <=? 57))%N.

Definition digit_value (c : ascii) : Z := Z.of_N (N_of_ascii c) - 48.

Fixpoint skip_ws (s : string) : string :=
  match s with
  | String c r => if is_ws c then skip_ws r else s
  | EmptyString => s
  end.

(** The characters after an opening quote, up to the closing one. *)
Fixpoint read_string (s : string) : option (string * string) :=
  match s with
  | EmptyString => None
  | String c r =>
      if Ascii.eqb c dquote then Some (EmptyString, r)
      else if Ascii.eqb c "\" then
        match r with
        | EmptyString => None
        | String e r' =>
            let decoded :=
              if Ascii.eqb e "n" then Some (ascii_of_N 10)
              else if Ascii.eqb e "t" then Some (ascii_of_N 9)
              else if Ascii.eqb e "r" then Some (ascii_of_N 13)
              else if Ascii.eqb e "b" then Some (ascii_of_N 8)
              else if Ascii.eqb e "f" then Some (ascii_of_N 12)
              else if Ascii.eqb e dquote || Ascii.eqb e "\" || Ascii.eqb e "/"
                   then Some e
              else None in
            match decoded, read_string r' with
            | Some d, Some (body, rest) => Some (String d body, rest)
            | _, _ => None
            end
        end
      else if (N_of_ascii c <? 32)%N then None
      else
        match read_string r with
        | Some (body, rest) => Some (String c body, rest)
        | None => None
        end
  end.

Fixpoint read_digits (s : string) (acc : Z) : Z * string :=
  match s with
  | String c r => if is_digit c then read_digits r (10 * acc + digit_value c)
                  else (acc, s)
  | EmptyString => (acc, s)
  end.

(** [d[k] = v] on a dict kept in insertion order. *)
Fixpoint dict_set (k : string) (v : json) (d : list (string * json))
    : list (string * json) :=
  match d with
  | [] => [(k, v)]
  | (k', v') :: r => if String.eqb k' k then (k, v) :: r
                     else (k', v') :: dict_set k v r
  end.

Definition starts_with (p s : string) : option string :=
  if String.prefix p s
  then Some (substring (String.length p) (String.length s - String.length p) s)
  else None.

Fixpoint read_value (fuel : nat) (s : string) : string + (json * string) :=
  match fuel with
  | O => inl "Expecting value"
  | S f =>
      match skip_ws s with
      | String c r =>
          if Ascii.eqb c "{" then
            match skip_ws r with
            | String c' r' =>
                if Ascii.eqb c' "}" then inr (JObj [], r')
                else read_members f (String c' r') []
            | EmptyString =>
                inl "Expecting property name enclosed in double quotes"
            end
          else if Ascii.eqb c "[" then
            match skip_ws r with
            | String c' r' =>
                if Ascii.eqb c' "]" then inr (JArr [], r')
                else read_elements f (String c' r') []
            | EmptyString => inl "Expecting value"
            end
          else if Ascii.eqb c dquote then
            match read_string r with
            | Some (body, rest) => inr (JStr body, rest)
            | None => inl "Unterminated string starting at"
            end
          else if Ascii.eqb c "-" then
            match r with
            | String d _ =>
                if is_digit d
                then let (n, rest) := read_digits r 0 in inr (JNum (- n), rest)
                else inl "Expecting value"
            | EmptyString => inl "Expecting value"
            end
          else if is_digit c then
            let (n, rest) := read_digits (String c r) 0 in inr (JNum n, rest)
          else
            match starts_with "true" (String c r),
                  starts_with "false" (String c r),
                  starts_with "null" (String c r) with
            | Some rest, _, _ => inr (JBool true, rest)
            | _, Some rest, _ => inr (JBool false, rest)
            | _, _, Some rest => inr (JNull, rest)
            | _, _, _ => inl "Expecting value"
            end
      | EmptyString => inl "Expecting value"
      end
  end
with read_members (fuel : nat) (s : string) (acc : list (string * json))
    : string + (json * string) :=
  match fuel with
  | O => inl "Expecting value"
  | S f =>
      match skip_ws s with
      | String c r =>
          if Ascii.eqb c dquote then
            match read_string r with
            | None => inl "Unterminated string starting at"
            | Some (key, rest) =>
                match skip_ws rest with
                | String c1 r1 =>
                    if Ascii.eqb c1 ":" then
                      match read_value f r1 with
                      | inl err => inl err
                      | inr (v, rest') =>
                          let acc' := dict_set key v acc in
                          match skip_ws rest' with
                          | String c2 r2 =>
                              if Ascii.eqb c2 "," then read_members f r2 acc'
                              else if Ascii.eqb c2 "}" then inr (JObj acc', r2)
                              else inl "Expecting ',' delimiter"
                          | EmptyString => inl "Expecting ',' delimiter"
                          end
                      end
                    else inl "Expecting ':' delimiter"
                | EmptyString => inl "Expecting ':' delimiter"
                end
            end
          else inl "Expecting property name enclosed in double quotes"
      | EmptyString => inl "Expecting property name enclosed in double quotes"
      end
  end
with read_elements (fuel : nat) (s : string) (acc : list json)
    : string + (json * string) :=
  match fuel with
  | O => inl "Expecting value"
  | S f =>
      match read_value f s with
      | inl err => inl err
      | inr (v, rest) =>
          match skip_ws rest with
          | String c r =>
              if Ascii.eqb c "," then read_elements f r (acc ++ [v])
              else if Ascii.eqb c "]" then inr (JArr (acc ++ [v]), r)
              else inl "Expecting ',' delimiter"
          | EmptyString => inl "Expecting ',' delimiter"
          end
      end
  end.

(** One complete JSON value and nothing after it. *)
Definition loads (s : string) : string + json :=
  match read_value (2 * String.length s + 2) s with
  | inl err => inl err
  | inr (v, rest) =>
      if Py.is_empty (skip_ws rest) then inr v else inl "Extra data"
  end.

End JsonText.

(** ** Seeding: [add_sample_departments] of [1_setup_database.py] *)

Definition sample_departments : list (string * string * string) :=
  [("Computer Science", "cs@college.edu", "cs_password123");
   ("Mathematics", "math@college.edu", "math_password123");
   ("Physics", "physics@college.edu", "physics_password123");
   ("Chemistry", "chemistry@college.edu", "chem_password123");
   ("Biology", "bio@college.edu", "bio_password123");
   ("English", "english@college.edu", "eng_password123");
   ("Engineering", "eng@college.edu", "eng_password123");
   ("Business", "business@college.edu", "business_password123")].

(** The rows the seeding inserts into an empty [departments] table; the
    [AUTOINCREMENT] key numbers them from 1. *)
Fixpoint seed_from (hash : string -> string) (next : Z)
    (l : list (string * string * string)) : list Department :=
  match l with
  | [] => []
  | (name, mail, password) :: r =>
      {| dept_id := next; dept_name := name; email := mail;
         password_hash := hash password |} :: seed_from hash (next + 1) r
  end.

Definition seeded (hash : string -> string) : list Department :=
  seed_from hash 1 sample_departments.

(** The rowid the [AUTOINCREMENT] key of [departments] gives the next row;
    no program of the repository deletes a department. *)
Definition next_dept_id (t : list Department) : Z :=
  1 + fold_right Z.max 0 (List.map dept_id t).

(** Would a row with this name and this email violate one of the two
    [UNIQUE] columns of [departments]? *)
Definition unique_conflict (t : list Department) (name mail : string) : bool :=
  existsb (fun d => String.eqb (dept_name d) name || String.eqb (email d) mail) t.

(** The table after one [INSERT INTO departments (dept_name, email,
    password_hash)]: unchanged when the insert raises [IntegrityError]. *)
Definition insert_department (hash : string -> string) (t : list Department)
    (row : string * string * string) : list Department :=
  let '(name, mail, password) := row in
  if unique_conflict t name mail then t
  else t ++ [{| dept_id := next_dept_id t; dept_name := name; email := mail;
                password_hash := hash password |}].

(** The loop of [add_sample_departments] over the rows still to insert.
    [t] is the table as the open transaction sees it and [added_count] the
    counter; an [IntegrityError] is caught inside the loop, any other
    failure of [execute] leaves it. *)
Fixpoint insert_samples (hash : string -> string)
    (rows : list (string * string * string)) (t : list Department)
    (added_count : Z) : M (list Department * Z) :=
  match rows with
  | [] => ret (t, added_count)
  | (name, mail, password) :: rest =>
      b <- fails ;;
      if b : bool then raise (OperationalError "database is locked")
      else if unique_conflict t name mail then
        print ("⚠ Department " +:+ name +:+ " already exists") ;;
        insert_samples hash rest t added_count
      else
        print ("✓ Added department: " +:+ name) ;;
        insert_samples hash rest
          (insert_department hash t (name, mail, password)) (added_count + 1)
  end.

(** [add_sample_departments()]: the rows are written by the [commit] at the
    end; when anything but an [IntegrityError] is raised before, nothing is
    written. *)
Definition add_sample_departments (hash : string -> string) : M bool :=
  try_except
    (conn <- sqlite3_connect ;;
     t0 <- gets departments ;;
     x <- insert_samples hash sample_departments t0 0 ;;
     b <- fails ;;
     if b : bool then raise (OperationalError "database is locked")
     else
       modify (set_departments (fst x)) ;;
       print ("✓ Sample departments setup completed! ("
              +:+ Py.str_of_int (snd x) +:+ " new departments added)") ;;
       ret true)
    (fun e =>
       print ("✗ Error adding sample departments: " +:+ exn_str e) ;;
       ret false).

(** [email.split('@')[0]] *)
Fixpoint before_at (mail : string) : string :=
  match mail with
  | EmptyString => EmptyString
  | String c rest => if Ascii.eqb c "@" then EmptyString else String c (before_at rest)
  end.

(** The password [display_sample_credentials] prints beside an email. *)
Definition displayed_password (mail : string) : string :=
  before_at mail +:+ "_password123".

(** The table after the loop of [add_sample_departments] over [rows]. *)
Definition seed_table (hash : string -> string)
    (rows : list (string * string * string)) (t : list Department)
    : list Department :=
  fold_left (insert_department hash) rows t.

(** ** The client: [submit_data] of [3_client_gui.py] *)

(** What [submit_data] does with the texts of its two widgets before it
    sends anything: the text of the error dialog, or the request it sends. *)
Definition client_submit_request (authenticated_ : bool)
    (entry_type_ data_content_ : string) : string + json :=
  if negb authenticated_ then inl "Please login first to submit data."
  else
    let category := Py.strip entry_type_ in
    let content := Py.strip data_content_ in
    if Py.is_empty category then
      inl "Please select a category for your data entry."
    else if Py.is_empty content then
      inl "Please enter data content before submitting."
    else if Py.len content <? 10 then
      inl "Data content must be at least 10 characters long."
    else if 10000 <? Py.len content then
      inl "Data content is too long. Maximum 10,000 characters allowed."
    else
      inr (JObj [("action", JStr "submit_data");
                 ("entry_type", JStr category);
                 ("data_content", JStr content)]).

(** ** Closed instances for examples *)

(** A 32-bit polynomial checksum printed in decimal: a stand-in for SHA-256
    wherever an example needs some digest function. *)
Definition checksum (s : string) : string :=
  pretty (fold_left (fun acc c => (acc * 31 + Z.of_N (N_of_ascii c)) mod 2 ^ 32)
                    (list_ascii_of_string s) 7).

Definition noon : DateTime :=
  {| year := 2025; month := 3; day := 14; hour := 12; minute := 0; second := 0 |}.

(** The world just after [1_setup_database.py] ran, at noon, with no faults
    ahead. *)
Definition fresh (hash : string -> string) : State :=
  {| departments := seeded hash; data_entries := []; system_logs := [];
     files := ∅;
     stats := {| st_connections := 0; st_data_entries := 0; st_exports := 0 |};
     stdout := []; sent := []; now := noon;
     current_timestamp := "2025-03-14 12:00:00"; faults := [] |}.

Definition localhost : Address := {| host := "127.0.0.1"; port := 50000 |}.


(** An engine for the examples: groups with equal counts stay in the order
    of the table. *)
Definition table_order : TieOrder.
Proof.
  refine {| order_by_count := fun A _ _ key l => order_by_desc Z.leb key l |}.
  - intros A _ _ key l.
    assert (Hins : forall x m, Permutation (x :: m) (insert_desc Z.leb key x m)).
    { intros x m. induction m as [|y m IH]; cbn; [reflexivity|].
      destruct (key y <=? key x); [reflexivity|].
      etransitivity; [apply perm_swap | now constructor]. }
    induction l as [|x l IH]; [constructor|].
    change (order_by_desc Z.leb key (x :: l))
      with (insert_desc Z.leb key x (order_by_desc Z.leb key l)).
    etransitivity; [|apply Hins]. now constructor.
  - intros A _ _ key l.
    set (R := fun a b : A => key b <= key a).
    assert (Hins : forall x m, Sorted R m -> Sorted R (insert_desc Z.leb key x m)).
    { intros x m. induction m as [|a m IH]; intros Hs; cbn.
      - repeat constructor.
      - destruct (Z.leb_spec (key a) (key x)) as [Hle|Hlt].
        + constructor; [exact Hs|]. constructor. exact Hle.
        + inversion Hs as [|? ? Hs' Hhd]; subst.
          constructor; [now apply IH|].
          destruct m as [|b m]; cbn.
          * constructor. unfold R. lia.
          * destruct (Z.leb_spec (key b) (key x)).
            -- constructor. unfold R. lia.
            -- constructor. now inversion Hhd. }
    induction l as [|x l IH]; [constructor|].
    change (order_by_desc Z.leb key (x :: l))
      with (insert_desc Z.leb key x (order_by_desc Z.leb key l)).
    now apply Hins.
Defined.

(** The same world with three entries in the table, of two categories. *)
Definition busy (hash : string -> string) : State :=
  set_data_entries
    [{| entry_id := 1; entry_dept_id := 1; entry_type := "Student Records";
        data_content := "Enrolment list of the spring term";
        created_at := "2025-03-14 09:15:00" |};
     {| entry_id := 2; entry_dept_id := 2; entry_type := "Research";
        data_content := "Seminar on number theory";
        created_at := "2025-03-14 10:40:00" |};
     {| entry_id := 3; entry_dept_id := 1; entry_type := "Student Records";
        data_content := "Grades of the winter term";
        created_at := "2025-03-14 11:05:00" |}]
    (fresh hash).

(** The session variables after Computer Science has logged in. *)
Definition cs_session : Session :=
  {| authenticated := true;
     dept_info := Some (AuthSuccess 1 "Computer Science") |}.

(** The messages [save_department_data] gives for a missing or oversized
    field. *)
Definition field_messages : list string :=
  ["Department ID is required"; "Entry type is required";
   "Data content is required"; "Content too long (max 10,000 characters)"].

(** The [exports] counter a response reports, if it reports the counters. *)
Definition reported_exports (j : json) : option json :=
  match j with
  | JObj fields =>
      match dict_get "stats" fields with
      | Some (JObj counters) => dict_get "exports" counters
      | _ => None
      end
  | _ => None
  end.

(** ** Vocabulary of the statements *)


(** The name the automatic export gives its file at the clock of [s]. *)
Definition export_name (s : State) : string :=
  "college_data_export_" +:+ strftime_compact (now s) +:+ ".csv".


(** A response that does not report a non-zero [exports] counter. *)
Definition reports_no_export (j : json) : Prop :=
  forall v, reported_exports j = Some v -> v = JNum 0.

(** The [exports] counter is 0 and so says every response sent since the
    responses [sent0]. *)
Definition exports_idle (sent0 : list (Address * json)) (s : State) : Prop :=
  st_exports (stats s) = 0
  /\ exists new,
       sent s = sent0 ++ new
       /\ Forall (fun x : Address * json => reports_no_export (snd x)) new.


(** The percentage of [count] in [total_entries] as a number, not rounded. *)
Definition exact_percentage (count total_entries : Z) : Q :=
  (inject_Z count / inject_Z total_entries * inject_Z 100)%Q.



(** The state once the oracle has answered one question. *)
Definition pop (s : State) : State := set_faults (tail (faults s)) s.

(** A computation keeps an invariant, whatever it returns or raises. *)
Definition keeps {A} (I : State -> Prop) (m : M A) : Prop :=
  forall s, I s -> I (fst (m s)).

(** A computation returns normally from every state. *)
Definition never_raises {A} (m : M A) : Prop :=
  forall s, exists a, snd (m s) = Ok a.

(** A computation raises from every state. *)
Definition always_raises {A} (m : M A) : Prop :=
  forall s, exists e, snd (m s) = Raise e.

(** A property that logging cannot disturb: it does not look at the oracle,
    at standard output or at [system_logs]. *)
Definition log_stable (I : State -> Prop) : Prop :=
  (forall s v, I s -> I (set_faults v s))
  /\ (forall s v, I s -> I (set_stdout v s))
  /\ (forall s v, I s -> I (set_system_logs v s)).

(** A property that, moreover, does not look at the files. *)
Definition env_stable (I : State -> Prop) : Prop :=
  log_stable I /\ (forall s v, I s -> I (set_files v s)).


(** The row [log_activity] writes to [system_logs]. *)
Definition log_row (message : string) : LogRecord :=
  {| log_level := "INFO"; log_message := message |}.

(** The line [log_activity] prints at the clock of [s]. *)
Definition log_line (s : State) (message : string) : string :=
  "[" +:+ strftime_iso (now s) +:+ "] " +:+ message.

(** The row a submission by [dept] stores in the state [s]. *)
Definition new_entry (s : State) (dept : Z) (type content : string) : Entry :=
  {| entry_id := next_entry_id s; entry_dept_id := dept;
     entry_type := Py.strip type; data_content := Py.strip content;
     created_at := current_timestamp s |}.

(** The counters after one more entry. *)
Definition count_entry (st : Stats) : Stats :=
  {| st_connections := st_connections st;
     st_data_entries := st_data_entries st + 1;
     st_exports := st_exports st |}.

(** The four checks of [save_department_data] on its arguments. *)
Definition checks_pass (dept : Z) (type content : string) : Prop :=
  dept <> 0 /\ Py.strip type <> EmptyString /\ Py.strip content <> EmptyString
  /\ Py.len content <= 10000.

(** Why [save_department_data] fails, and with which message. *)
Inductive failure_cause (dept : Z) (type content : string) (s : State)
    : string -> Prop :=
| NoDepartmentId :
    dept = 0 -> failure_cause dept type content s "Department ID is required"
| NoEntryType :
    dept <> 0 -> Py.strip type = EmptyString ->
    failure_cause dept type content s "Entry type is required"
| NoContent :
    dept <> 0 -> Py.strip type <> EmptyString -> Py.strip content = EmptyString ->
    failure_cause dept type content s "Data content is required"
| TooLong :
    dept <> 0 -> Py.strip type <> EmptyString -> Py.strip content <> EmptyString ->
    10000 < Py.len content ->
    failure_cause dept type content s "Content too long (max 10,000 characters)"
| SystemError detail :
    checks_pass dept type content -> ~ calm 2 s ->
    failure_cause dept type content s ("System error: " +:+ detail)
| UnknownDepartment :
    checks_pass dept type content -> calm 2 s -> q_dept_name dept s = None ->
    failure_cause dept type content s "Invalid department ID"
| DatabaseError detail :
    checks_pass dept type content -> calm 2 s -> q_dept_name dept s <> None ->
    ~ calm 2 (pop (pop s)) ->
    failure_cause dept type content s ("Database error: " +:+ detail).

(** A triple: from a state satisfying [P], whatever the computation does,
    returning or raising [r] in the state [s'], [Q r s'] holds. *)
Definition triple {A} (P : State -> Prop) (m : M A)
    (Q : result A -> State -> Prop) : Prop :=
  forall s s' r, P s -> m s = (s', r) -> Q r s'.

(** The three keys of [departments]: ids, names and emails are pairwise
    distinct. *)
Definition well_keyed (t : list Department) : Prop :=
  NoDup (List.map dept_id t) /\ NoDup (List.map dept_name t)
  /\ NoDup (List.map email t).

(** Between [s] and [s'] only the console and the oracle may differ. *)
Definition console_only (s s' : State) : Prop :=
  departments s' = departments s /\ data_entries s' = data_entries s
  /\ system_logs s' = system_logs s /\ files s' = files s
  /\ stats s' = stats s /\ sent s' = sent s.

(** The session variables after a successful login as the department [d]. *)
Definition bound_to (d : Department) : Session :=
  {| authenticated := true;
     dept_info := Some (AuthSuccess (dept_id d) (dept_name d)) |}.

(** A session is either not logged in, or logged in as a department of the
    table [D]. *)
Definition session_bound (D : list Department) (sess : Session) : Prop :=
  sess = new_session \/ exists d, In d D /\ sess = bound_to d.

(** ** The server: [class EnhancedCollegeServer] *)

Section Server.

(** [hashlib.sha256(p.encode()).hexdigest()] *)
Variable sha256 : string -> string.

(** [json.loads]: [inl msg] is a [JSONDecodeError] whose [str] is [msg]. *)
Variable json_loads : string -> string + json.

(** How SQLite orders groups with equal counts. *)
Variable ties : TieOrder.

(** [self.stats = {'connections': 0, 'data_entries': 0, 'exports': 0}] *)
Definition initial_stats : Stats :=
  {| st_connections := 0; st_data_entries := 0; st_exports := 0 |}.

Definition log_activity (message : string) : M unit :=
  timestamp <- gets (fun s => strftime_iso (now s)) ;;
  let log_message := "[" +:+ timestamp +:+ "] " +:+ message in
  print log_message ;;
  try_except
    (conn <- sqlite3_connect ;;
     conn <- cursor_insert_log conn "INFO" message ;;
     conn <- conn_commit conn ;;
     let conn := conn_close conn in
     ret tt)
    (fun _ => ret tt).

Definition authenticate_department (email_ password : string) : M auth_result :=
  try_except
    (conn <- sqlite3_connect ;;
     let password_hash_ := sha256 password in
     result <- cursor_execute conn (q_credentials email_ password_hash_) ;;
     let conn := conn_close conn in
     match result with
     | Some (id, name) =>
         log_activity ("Successful login: " +:+ name +:+ " (" +:+ email_ +:+ ")") ;;
         ret (AuthSuccess id name)
     | None =>
         log_activity ("Failed login attempt: " +:+ email_) ;;
         ret (AuthFailure "Invalid credentials")
     end)
    (fun e =>
       log_activity ("Authentication error: " +:+ exn_str e) ;;
       ret (AuthFailure "Authentication system error")).

Definition auto_export_enhanced_csv : M (option string) :=
  try_except
    (timestamp <- gets (fun s => strftime_compact (now s)) ;;
     let filename := "college_data_export_" +:+ timestamp +:+ ".csv" in
     let latest_filename := "latest_college_data_export.csv" in
     conn <- sqlite3_connect ;;
     data <- cursor_execute conn q_export_data ;;
     total_entries <- cursor_execute conn q_count_entries ;;
     active_departments <- cursor_execute conn q_active_departments ;;
     type_stats <- cursor_execute conn (q_type_stats ties) ;;
     let conn := conn_close conn in
     (* with open(filename, 'w', ...) as csvfile: *)
     open_w filename ;;
     writerow filename ["COLLEGE EXTENSION APPLICATION - DATA EXPORT"] ;;
     writerow filename [Py.repeat_char "=" 60] ;;
     writerow filename ["Export Information"] ;;
     export_time <- gets (fun s => strftime_iso (now s)) ;;
     writerow filename ["Export Date/Time"; export_time] ;;
     writerow filename ["Total Records"; Py.str_of_int total_entries] ;;
     writerow filename ["Active Departments"; Py.str_of_int active_departments] ;;
     writerow filename ["Export File"; filename] ;;
     writerow filename [] ;;
     writerow filename ["DATA SUMMARY BY CATEGORY"] ;;
     writerow filename [Py.repeat_char "-" 30] ;;
     writerow filename ["Category"; "Count"; "Percentage"] ;;
     for_each type_stats (fun x =>
       writerow filename (category_row total_entries x)) ;;
     writerow filename [] ;;
     (* the cursor belongs to the connection closed above *)
     recent_activity <- cursor_execute conn q_recent_activity ;;
     writerow filename ["RECENT ACTIVITY (Last 10 Entries)"] ;;
     writerow filename [Py.repeat_char "-" 50] ;;
     writerow filename ["Date/Time"; "Department"; "Category"; "Content Preview"] ;;
     for_each recent_activity (fun x => writerow filename (recent_row x)) ;;
     writerow filename [] ;;
     writerow filename ["DETAILED DATA EXPORT"] ;;
     writerow filename [Py.repeat_char "-" 50] ;;
     writerow filename
       ["Entry ID"; "Department"; "Email"; "Category"; "Content"; "Created At"] ;;
     for_each data (fun x => writerow filename (detail_row x)) ;;
     copy2 filename latest_filename ;;
     log_activity ("Enhanced CSV export completed: " +:+ filename) ;;
     ret (Some filename))
    (fun e =>
       log_activity ("Error creating CSV export: " +:+ exn_str e) ;;
       ret None).

Definition save_department_data (dept_id_ : Z) (entry_type_ data_content_ : string)
    : M save_result :=
  try_except
    (if dept_id_ =? 0 then
       ret (SaveFailure "Department ID is required")
     else if Py.is_empty entry_type_ || Py.is_empty (Py.strip entry_type_) then
       ret (SaveFailure "Entry type is required")
     else if Py.is_empty data_content_ || Py.is_empty (Py.strip data_content_) then
       ret (SaveFailure "Data content is required")
     else if 10000 <? Py.len data_content_ then
       ret (SaveFailure "Content too long (max 10,000 characters)")
     else
       conn <- sqlite3_connect ;;
       dept_result <- cursor_execute conn (q_dept_name dept_id_) ;;
       match dept_result with
       | None =>
           let conn := conn_close conn in
           ret (SaveFailure "Invalid department ID")
       | Some dept_name_ =>
           inserted <-
             try_except_sqlite
               (r <- cursor_insert_entry conn dept_id_
                       (Py.strip entry_type_) (Py.strip data_content_) ;;
                let (conn, entry_id_) := r : Connection * Z in
                conn <- conn_commit conn ;;
                modify (fun s =>
                  set_stats {| st_connections := st_connections (stats s);
                               st_data_entries := st_data_entries (stats s) + 1;
                               st_exports := st_exports (stats s) |} s) ;;
                log_activity ("Data saved successfully: Entry ID "
                              +:+ Py.str_of_int entry_id_ +:+ ", Department: "
                              +:+ dept_name_ +:+ ", Type: " +:+ entry_type_) ;;
                (* finally: conn.close() *)
                let conn := conn_close conn in
                ret (inr entry_id_))
               (fun db_error =>
                  let conn := conn_close (conn_rollback conn) in
                  ret (inl (SaveFailure ("Database error: " +:+ exn_str db_error)))) ;;
           match inserted : save_result + Z with
           | inl early => ret early
           | inr entry_id_ =>
               try_except
                 (csv_result <- auto_export_enhanced_csv ;;
                  match csv_result with
                  | Some name =>
                      log_activity ("CSV auto-export successful: " +:+ name)
                  | None => log_activity "CSV auto-export failed"
                  end)
                 (fun csv_error =>
                    log_activity ("CSV auto-export error: " +:+ exn_str csv_error)) ;;
               ret (SaveSuccess entry_id_ dept_name_)
           end
       end)
    (fun e =>
       log_activity ("Critical error saving data: " +:+ exn_str e) ;;
       ret (SaveFailure ("System error: " +:+ exn_str e))).

Definition export_formatted_report (filename : string) : M (option string) :=
  try_except
    (conn <- sqlite3_connect ;;
     current_time <- gets now ;;
     (* with open(filename, 'w', ...) as csvfile: *)
     open_w filename ;;
     writerow filename ["COLLEGE EXTENSION APPLICATION - COMPREHENSIVE REPORT"] ;;
     writerow filename [Py.repeat_char "=" 70] ;;
     writerow filename ["Report Generated"; strftime_iso current_time] ;;
     writerow filename [] ;;
     dept_stats <- cursor_execute conn (q_dept_stats ties) ;;
     writerow filename ["DEPARTMENT ACTIVITY SUMMARY"] ;;
     writerow filename [Py.repeat_char "-" 40] ;;
     writerow filename
       ["Department"; "Total Entries"; "First Activity"; "Last Activity"; "Status"] ;;
     for_each dept_stats (fun x => writerow filename (dept_row x)) ;;
     writerow filename [] ;;
     recent_activity <- cursor_execute conn q_recent_activity ;;
     writerow filename ["RECENT ACTIVITY (Last 10 Entries)"] ;;
     writerow filename [Py.repeat_char "-" 50] ;;
     writerow filename ["Date/Time"; "Department"; "Category"; "Content Preview"] ;;
     for_each recent_activity (fun x => writerow filename (recent_row x)) ;;
     let conn := conn_close conn in
     ret (Some filename))
    (fun e =>
       log_activity ("Error creating report: " +:+ exn_str e) ;;
       ret None).

Definition get_recent_entries (limit : Z) : M (list EntrySummary) :=
  try_except
    (conn <- sqlite3_connect ;;
     data <- cursor_execute conn (q_recent_entries limit) ;;
     let conn := conn_close conn in
     ret (List.map summary_of_row data))
    (fun e =>
       log_activity ("Error getting recent entries: " +:+ exn_str e) ;;
       ret []).

(** *** [handle_client] *)

(** The body of the inner [try] once [json.loads] has returned [message]:
    what is sent, the new session variables, and whether the loop goes on. *)
Definition dispatch (address : Address) (sess : Session) (message : json)
    : M (Session * control) :=
  match message with
  | JObj fields =>
      let action := dict_get "action" fields in
      if eq_str action "login" && negb (authenticated sess) then
        email_ <- get_stripped "email" fields ;;
        password <- get_stripped "password" fields ;;
        if Py.is_empty email_ || Py.is_empty password then
          send address (error_response "Email and password required") ;;
          ret (sess, Continue)
        else
          auth <- authenticate_department email_ password ;;
          match auth with
          | AuthSuccess _ name =>
              send address
                (JObj [("status", JStr "success");
                       ("message", JStr ("Welcome " +:+ name +:+ "!"));
                       ("dept_info", json_of_auth auth)]) ;;
              ret ({| authenticated := true; dept_info := Some auth |}, Continue)
          | AuthFailure message_ =>
              send address (error_response message_) ;;
              ret (sess, Continue)
          end
      else if eq_str action "submit_data" && authenticated sess then
        entry_type_ <- get_stripped "entry_type" fields ;;
        data_content_ <- get_stripped "data_content" fields ;;
        if Py.is_empty entry_type_ || Py.is_empty data_content_ then
          send address (error_response "Both category and content are required") ;;
          ret (sess, Continue)
        else
          dept <- dept_info_id (dept_info sess) ;;
          saved <- save_department_data dept entry_type_ data_content_ ;;
          match saved with
          | SaveSuccess id name =>
              by_name <- dept_info_name (dept_info sess) ;;
              log_activity ("Data submission successful: " +:+ entry_type_
                            +:+ " by " +:+ by_name) ;;
              send address
                (JObj [("status", JStr "success");
                       ("message",
                        JStr ("Data saved successfully! Entry ID: "
                              +:+ Py.str_of_int id
                              +:+ ". CSV export completed for data analysis."));
                       ("entry_id", JNum id);
                       ("dept_name", JStr name)]) ;;
              ret (sess, Continue)
          | SaveFailure message_ =>
              log_activity ("Data submission failed: " +:+ message_) ;;
              send address (error_response message_) ;;
              ret (sess, Continue)
          end
      else if eq_str action "get_recent" && authenticated sess then
        recent_entries <- get_recent_entries 10 ;;
        send address
          (JObj [("status", JStr "success");
                 ("data", JArr (List.map json_of_summary recent_entries))]) ;;
        ret (sess, Continue)
      else if eq_str action "export_csv" && authenticated sess then
        filename <- export_formatted_report "college_report.csv" ;;
        match filename with
        | Some name =>
            if Py.is_empty name then
              send address (error_response "Export failed") ;;
              ret (sess, Continue)
            else
              send address
                (JObj [("status", JStr "success");
                       ("message", JStr ("Enhanced report exported to " +:+ name));
                       ("filename", JStr name)]) ;;
              ret (sess, Continue)
        | None =>
            send address (error_response "Export failed") ;;
            ret (sess, Continue)
        end
      else if eq_str action "get_stats" && authenticated sess then
        st <- gets stats ;;
        send address (JObj [("status", JStr "success"); ("stats", json_of_stats st)]) ;;
        ret (sess, Continue)
      else if eq_str action "disconnect" then
        ret (sess, Break)
      else
        send address (error_response "Invalid action or authentication required") ;;
        ret (sess, Continue)
  | _ => raise (AttributeError "object has no attribute 'get'")
  end.

(** One turn of the [while True] loop, given what [recv] did. *)
Definition iteration (address : Address) (sess : Session) (r : recv_result)
    : M (Session * control) :=
  match r with
  | RecvData data =>
      if Py.is_empty data then ret (sess, Break)
      else
        match json_loads data with
        | inr message => dispatch address sess message
        | inl err =>
            send address (error_response ("Invalid JSON format: " +:+ err)) ;;
            ret (sess, Continue)
        end
  | RecvTimeout =>
      log_activity ("Client " +:+ address_str address
                    +:+ " timed out after 60 seconds") ;;
      ret (sess, Break)
  | RecvReset =>
      log_activity ("Client " +:+ address_str address
                    +:+ " disconnected unexpectedly") ;;
      ret (sess, Break)
  | RecvUndecodable =>
      raise (UnicodeDecodeError "'utf-8' codec can't decode byte")
  end.

(** The loop over the successive results of [recv]; when nothing more
    arrives the next [recv] times out. *)
Fixpoint client_loop (address : Address) (sess : Session)
    (reads : list recv_result) : M unit :=
  match reads with
  | [] => iteration address sess RecvTimeout ;; ret tt
  | r :: rest =>
      x <- iteration address sess r ;;
      match snd x with
      | Break => ret tt
      | Continue => client_loop address (fst x) rest
      end
  end.

(** [handle_client(client_socket, address)] for a client whose traffic is
    [arrivals]. *)
Definition handle_client (address : Address) (arrivals : list recv_result)
    : M unit :=
  modify (fun s =>
    set_stats {| st_connections := st_connections (stats s) + 1;
                 st_data_entries := st_data_entries (stats s);
                 st_exports := st_exports (stats s) |} s) ;;
  log_activity ("New connection from " +:+ host address +:+ ":"
                +:+ Py.str_of_int (port address)) ;;
  try_except
    (client_loop address new_session (recv_stream 1024 arrivals))
    (fun e =>
       log_activity ("Client handler error for " +:+ address_str address
                     +:+ ": " +:+ exn_str e)) ;;
  (* finally *)
  log_activity ("Connection with " +:+ address_str address +:+ " closed").

(** *** The server process: client threads interleaved turn by turn *)

Record Server := {
  world : State;
  threads : gmap Z (Address * Session)
}.

Inductive event : Type :=
| Accept (fd : Z) (address : Address)     (* a client connects *)
| Turn (fd : Z) (r : recv_result)         (* the thread of [fd] takes a turn *)
| Environment (dt : DateTime) (ts : string) (oracle : list bool).

(** The first lines of [handle_client], before the loop. *)
Definition thread_start (address : Address) : M unit :=
  modify (fun s =>
    set_stats {| st_connections := st_connections (stats s) + 1;
                 st_data_entries := st_data_entries (stats s);
                 st_exports := st_exports (stats s) |} s) ;;
  log_activity ("New connection from " +:+ host address +:+ ":"
                +:+ Py.str_of_int (port address)).

(** One turn of a thread; [None] when the thread has left the loop, through
    [break] or through the outer [except], and has run its [finally]. *)
Definition thread_turn (address : Address) (sess : Session) (r : recv_result)
    : M (option Session) :=
  next <- try_except
            (x <- iteration address sess r ;;
             match snd x with
             | Break => ret None
             | Continue => ret (Some (fst x))
             end)
            (fun e =>
               log_activity ("Client handler error for " +:+ address_str address
                             +:+ ": " +:+ exn_str e) ;;
               ret None) ;;
  match next with
  | Some sess' => ret (Some sess')
  | None =>
      log_activity ("Connection with " +:+ address_str address +:+ " closed") ;;
      ret None
  end.

Definition server_step (srv : Server) (ev : event) : Server :=
  match ev with
  | Accept fd address =>
      {| world := fst (thread_start address (world srv));
         threads := <[fd := (address, new_session)]> (threads srv) |}
  | Turn fd r =>
      match threads srv !! fd with
      | None => srv
      | Some (address, sess) =>
          match thread_turn address sess r (world srv) with
          | (w, Ok (Some sess')) =>
              {| world := w; threads := <[fd := (address, sess')]> (threads srv) |}
          | (w, _) =>
              {| world := w; threads := delete fd (threads srv) |}
          end
      end
  | Environment dt ts oracle =>
      {| world := set_faults oracle (set_clock dt ts (world srv));
         threads := threads srv |}
  end.

Definition server_run (evs : list event) (srv : Server) : Server :=
  fold_left server_step evs srv.

(** The server as [__init__] leaves it, on a given world. *)
Definition boot (w : State) : Server :=
  {| world := set_stats initial_stats w; threads := ∅ |}.

(** The number of connections accepted in a sequence of events. *)
Definition accepted (evs : list event) : Z :=
  Z.of_nat (length (List.filter (fun ev => match ev with
                                           | Accept _ _ => true
                                           | _ => false
                                           end) evs)).

(** * Properties *)

Arguments log_activity : simpl never.
Arguments authenticate_department : simpl never.
Arguments auto_export_enhanced_csv : simpl never.
Arguments save_department_data : simpl never.
Arguments export_formatted_report : simpl never.
Arguments get_recent_entries : simpl never.

(** ** The monad *)

Lemma bind_ok {A B} (m : M A) (f : A -> M B) s s' a :
  m s = (s', Ok a) -> bind m f s = f a s'.
Proof. intros H. unfold bind. now rewrite H. Qed.

Lemma bind_raise {A B} (m : M A) (f : A -> M B) s s' e :
  m s = (s', Raise e) -> bind m f s = (s', Raise e).
Proof. intros H. unfold bind. now rewrite H. Qed.

Lemma try_ok {A} (m : M A) h s s' a :
  m s = (s', Ok a) -> try_except m h s = (s', Ok a).
Proof. intros H. unfold try_except. now rewrite H. Qed.

Lemma try_raise {A} (m : M A) h s s' e :
  m s = (s', Raise e) -> try_except m h s = h e s'.
Proof. intros H. unfold try_except. now rewrite H. Qed.

Lemma keeps_ret {A} I (a : A) : keeps I (ret a).
Proof. intros s H. exact H. Qed.

Lemma keeps_raise {A} I e : keeps I (@raise A e).
Proof. intros s H. exact H. Qed.

Lemma keeps_gets {A} I (f : State -> A) : keeps I (gets f).
Proof. intros s H. exact H. Qed.

Lemma keeps_bind {A B} I (m : M A) (f : A -> M B) :
  keeps I m -> (forall a, keeps I (f a)) -> keeps I (bind m f).
Proof.
  intros Hm Hf s Hs. unfold bind.
  specialize (Hm s Hs). destruct (m s) as [s' [a|e]]; simpl in *.
  - now apply Hf.
  - exact Hm.
Qed.

Lemma keeps_try_except {A} I (m : M A) h :
  keeps I m -> (forall e, keeps I (h e)) -> keeps I (try_except m h).
Proof.
  intros Hm Hh s Hs. unfold try_except.
  specialize (Hm s Hs). destruct (m s) as [s' [a|e]]; simpl in *.
  - exact Hm.
  - now apply Hh.
Qed.

Lemma keeps_for_each {A} I (l : list A) body :
  (forall x, keeps I (body x)) -> keeps I (for_each l body).
Proof.
  intros Hb. induction l as [|x l IH]; simpl.
  - apply keeps_ret.
  - apply keeps_bind; [apply Hb | intros _; exact IH].
Qed.

Lemma never_raises_ret {A} (a : A) : never_raises (ret a).
Proof. intros s. now exists a. Qed.

Lemma never_raises_bind {A B} (m : M A) (f : A -> M B) :
  never_raises m -> (forall a, never_raises (f a)) -> never_raises (bind m f).
Proof.
  intros Hm Hf s. unfold bind. destruct (Hm s) as [a Ha].
  destruct (m s) as [s' r]; simpl in Ha; subst r. apply Hf.
Qed.

Lemma never_raises_try {A} (m : M A) h :
  (forall e, never_raises (h e)) -> never_raises (try_except m h).
Proof.
  intros Hh s. unfold try_except. destruct (m s) as [s' [a|e]].
  - now exists a.
  - apply Hh.
Qed.

Lemma never_raises_run {A} (m : M A) s :
  never_raises m -> exists a, m s = (fst (m s), Ok a).
Proof.
  intros H. destruct (H s) as [a Ha]. exists a.
  destruct (m s) as [s' r]; simpl in *. now subst.
Qed.

(** ** The oracle *)

Lemma calm_pop n s : calm (S n) s -> calm n (pop s).
Proof. intros [_ H]. exact H. Qed.

Lemma calm_head n s : calm (S n) s -> hd false (faults s) = false.
Proof. intros [H _]. exact H. Qed.

Lemma calm_weaken n s : calm (S n) s -> calm n s.
Proof.
  unfold calm. generalize (faults s). induction n as [|n IH]; intros l H.
  - exact I.
  - destruct H as [H1 H2]. split; [exact H1 | now apply IH].
Qed.

Lemma fails_calm n s : calm (S n) s -> fails s = (pop s, Ok false).
Proof. intros H. unfold fails, pop. now rewrite (calm_head _ _ H). Qed.

Lemma connect_calm n s :
  calm (S n) s ->
  sqlite3_connect s = (pop s, Ok {| closed := false; pending := [] |}).
Proof.
  intros H. unfold sqlite3_connect.
  now rewrite (bind_ok _ _ _ _ _ (fails_calm _ _ H)).
Qed.

Lemma execute_calm {A} n conn (q : State -> A) s :
  closed conn = false -> calm (S n) s ->
  cursor_execute conn q s = (pop s, Ok (q (pop s))).
Proof.
  intros Hc H. unfold cursor_execute. rewrite Hc.
  now rewrite (bind_ok _ _ _ _ _ (fails_calm _ _ H)).
Qed.

Lemma execute_closed {A} conn (q : State -> A) s :
  closed conn = true ->
  cursor_execute conn q s
  = (s, Raise (ProgrammingError "Cannot operate on a closed database.")).
Proof. intros Hc. unfold cursor_execute. now rewrite Hc. Qed.


Lemma never_raises_gets {A} (f : State -> A) : never_raises (gets f).
Proof. intros s. now exists (f s). Qed.

Lemma never_raises_modify f : never_raises (modify f).
Proof. intros s. now exists tt. Qed.

Lemma keeps_fails I :
  (forall s v, I s -> I (set_faults v s)) -> keeps I fails.
Proof. intros H s Hs. apply H, Hs. Qed.

Lemma keeps_modify I f : (forall s, I s -> I (f s)) -> keeps I (modify f).
Proof. intros H s Hs. apply H, Hs. Qed.

Lemma keeps_if {A} I (b : bool) (m1 m2 : M A) :
  keeps I m1 -> keeps I m2 -> keeps I (if b then m1 else m2).
Proof. now destruct b. Qed.

(** ** [log_activity] *)

Lemma log_activity_never_raises message : never_raises (log_activity message).
Proof.
  unfold log_activity.
  apply never_raises_bind; [apply never_raises_gets | intros ts].
  apply never_raises_bind; [apply never_raises_modify | intros _].
  apply never_raises_try. intros _. apply never_raises_ret.
Qed.

Lemma keeps_log_activity I message :
  log_stable I -> keeps I (log_activity message).
Proof.
  intros (Hf & Ho & Hl) s Hs.
  unfold log_activity, try_except, bind, gets, print, modify, sqlite3_connect,
    cursor_insert_log, conn_commit, fails, ret, raise, bind.
  simpl.
  destruct (hd false (faults s)); simpl; [now apply Hf, Ho|].
  destruct (hd false (tail (faults s))); simpl; [now apply Hf, Hf, Ho|].
  destruct (hd false (tail (tail (faults s)))); simpl; [now apply Hf, Hf, Hf, Ho|].
  unfold apply_pending; simpl.
  apply (Hl (set_faults (tail (tail (tail (faults s))))
               (set_faults (tail (tail (faults s)))
                  (set_faults (tail (faults s))
                     (set_stdout (stdout s ++ [_]) s))))).
  now apply Hf, Hf, Hf, Ho.
Qed.

Lemma log_activity_run message s :
  log_activity message s = (fst (log_activity message s), Ok tt).
Proof.
  destruct (never_raises_run _ s (log_activity_never_raises message)) as [[] H].
  exact H.
Qed.

(** After logging, the line is the last one printed. *)
Lemma log_activity_prints message s :
  stdout (fst (log_activity message s))
  = stdout s ++ ["[" +:+ strftime_iso (now s) +:+ "] " +:+ message].
Proof.
  unfold log_activity, try_except, bind, gets, print, modify, sqlite3_connect,
    cursor_insert_log, conn_commit, fails, ret, raise, bind.
  simpl.
  destruct (hd false (faults s)); simpl; [reflexivity|].
  destruct (hd false (tail (faults s))); simpl; [reflexivity|].
  destruct (hd false (tail (tail (faults s)))); simpl; reflexivity.
Qed.

(** ** What the read-only methods and the exports leave alone *)

Section EnvFrame.

Variable I : State -> Prop.
Hypothesis I_env : env_stable I.

Let I_log : log_stable I := proj1 I_env.

Lemma keeps_connect : keeps I sqlite3_connect.
Proof.
  unfold sqlite3_connect. apply keeps_bind.
  - apply keeps_fails, I_log.
  - intros b. apply keeps_if; [apply keeps_raise | apply keeps_ret].
Qed.

Lemma keeps_execute {A} conn (q : State -> A) : keeps I (cursor_execute conn q).
Proof.
  unfold cursor_execute. apply keeps_if; [apply keeps_raise|].
  apply keeps_bind; [apply keeps_fails, I_log | intros b].
  apply keeps_if; [apply keeps_raise | apply keeps_gets].
Qed.

Lemma keeps_open_w filename : keeps I (open_w filename).
Proof.
  unfold open_w. apply keeps_bind; [apply keeps_fails, I_log | intros b].
  apply keeps_if; [apply keeps_raise|].
  apply keeps_modify. intros s Hs. now apply (proj2 I_env).
Qed.

Lemma keeps_writerow filename row : keeps I (writerow filename row).
Proof. apply keeps_modify. intros s Hs. now apply (proj2 I_env). Qed.

Lemma keeps_copy2 src dst : keeps I (copy2 src dst).
Proof.
  unfold copy2. apply keeps_bind; [apply keeps_fails, I_log | intros b].
  apply keeps_if; [apply keeps_raise|].
  apply keeps_bind; [apply keeps_gets | intros [rows|]].
  - apply keeps_modify. intros s Hs. now apply (proj2 I_env).
  - apply keeps_raise.
Qed.

Lemma keeps_authenticate email_ password :
  keeps I (authenticate_department email_ password).
Proof.
  unfold authenticate_department. apply keeps_try_except.
  - apply keeps_bind; [apply keeps_connect | intros conn].
    apply keeps_bind; [apply keeps_execute | intros [[id name]|]].
    + apply keeps_bind; [now apply keeps_log_activity | intros _; apply keeps_ret].
    + apply keeps_bind; [now apply keeps_log_activity | intros _; apply keeps_ret].
  - intros e.
    apply keeps_bind; [now apply keeps_log_activity | intros _; apply keeps_ret].
Qed.

Lemma keeps_get_recent limit : keeps I (get_recent_entries limit).
Proof.
  unfold get_recent_entries. apply keeps_try_except.
  - apply keeps_bind; [apply keeps_connect | intros conn].
    apply keeps_bind; [apply keeps_execute | intros data]. apply keeps_ret.
  - intros e.
    apply keeps_bind; [now apply keeps_log_activity | intros _; apply keeps_ret].
Qed.

Ltac keeps_step :=
  lazymatch goal with
  | |- keeps _ (ret _) => apply keeps_ret
  | |- keeps _ (gets _) => apply keeps_gets
  | |- keeps _ sqlite3_connect => apply keeps_connect
  | |- keeps _ (cursor_execute _ _) => apply keeps_execute
  | |- keeps _ (open_w _) => apply keeps_open_w
  | |- keeps _ (writerow _ _) => apply keeps_writerow
  | |- keeps _ (copy2 _ _) => apply keeps_copy2
  | |- keeps _ (log_activity _) => apply keeps_log_activity; exact I_log
  | |- keeps _ (for_each _ _) => apply keeps_for_each; intros ?
  | |- keeps _ (bind _ _) => apply keeps_bind; [|intros ?]
  end.

Lemma keeps_auto_export : keeps I auto_export_enhanced_csv.
Proof.
  unfold auto_export_enhanced_csv. apply keeps_try_except.
  - repeat keeps_step.
  - intros e. repeat keeps_step.
Qed.

Lemma keeps_report filename : keeps I (export_formatted_report filename).
Proof.
  unfold export_formatted_report. apply keeps_try_except.
  - repeat keeps_step.
  - intros e. repeat keeps_step.
Qed.

End EnvFrame.

(** ** Every method that ends in a catch-all handler returns normally *)

Lemma never_raises_log_then {A} message (a : A) :
  never_raises (log_activity message ;; ret a).
Proof.
  apply never_raises_bind; [apply log_activity_never_raises | intros _].
  apply never_raises_ret.
Qed.

Lemma authenticate_never_raises email_ password :
  never_raises (authenticate_department email_ password).
Proof. apply never_raises_try. intros e. apply never_raises_log_then. Qed.

Lemma auto_export_never_raises : never_raises auto_export_enhanced_csv.
Proof. apply never_raises_try. intros e. apply never_raises_log_then. Qed.

Lemma report_never_raises filename :
  never_raises (export_formatted_report filename).
Proof. apply never_raises_try. intros e. apply never_raises_log_then. Qed.

Lemma get_recent_never_raises limit : never_raises (get_recent_entries limit).
Proof. apply never_raises_try. intros e. apply never_raises_log_then. Qed.

Lemma save_never_raises dept type content :
  never_raises (save_department_data dept type content).
Proof. apply never_raises_try. intros e. apply never_raises_log_then. Qed.

Lemma log_then_run {A} message (a : A) s :
  (log_activity message ;; ret a) s = (fst (log_activity message s), Ok a).
Proof. now rewrite (bind_ok _ _ _ _ _ (log_activity_run message s)). Qed.

(** ** [ORDER BY ... DESC], [LIMIT] *)

Section OrderBy.

Context {A K : Type} (leb : K -> K -> bool) (key : A -> K).
Hypothesis leb_total : forall x y, leb x y = true \/ leb y x = true.

Let R (a b : A) : Prop := leb (key b) (key a) = true.



Lemma insert_desc_length x l :
  length (insert_desc leb key x l) = S (length l).
Proof.
  induction l as [|z l IH]; simpl; [reflexivity|].
  destruct (leb (key z) (key x)); simpl; [reflexivity | now rewrite IH].
Qed.

Lemma order_by_desc_length l : length (order_by_desc leb key l) = length l.
Proof.
  induction l as [|x l IH]; simpl; [reflexivity|].
  now rewrite insert_desc_length, IH.
Qed.

Lemma insert_desc_perm x l : Permutation (x :: l) (insert_desc leb key x l).
Proof.
  induction l as [|z l IH]; simpl; [reflexivity|].
  destruct (leb (key z) (key x)); [reflexivity|].
  rewrite perm_swap. now apply perm_skip.
Qed.

Lemma order_by_desc_perm l : Permutation l (order_by_desc leb key l).
Proof.
  induction l as [|x l IH]; simpl; [reflexivity|].
  rewrite <- insert_desc_perm. now apply perm_skip.
Qed.




End OrderBy.




Lemma sql_limit_length {A} n (l : list A) :
  0 <= n -> length (sql_limit n l) = Nat.min (Z.to_nat n) (length l).
Proof.
  intros H. unfold sql_limit.
  destruct (Z.ltb_spec n 0); [lia|]. apply length_take.
Qed.




(** ** [get_recent_entries] *)

Lemma get_recent_entries_result limit s :
  exists l,
    get_recent_entries limit s = (fst (get_recent_entries limit s), Ok l)
    /\ (l = [] \/ l = List.map summary_of_row (q_recent_entries limit s)).
Proof.
  unfold get_recent_entries, try_except, sqlite3_connect, cursor_execute,
    fails, gets, ret, raise, bind.
  simpl.
  destruct (hd false (faults s)); simpl.
  - rewrite log_activity_run. simpl. eexists; split; [reflexivity | now left].
  - destruct (hd false (tail (faults s))); simpl.
    + rewrite log_activity_run. simpl. eexists; split; [reflexivity | now left].
    + eexists; split; [reflexivity | now right].
Qed.


Lemma q_recent_entries_length limit s :
  0 <= limit ->
  length (q_recent_entries limit s)
  = Nat.min (Z.to_nat limit) (length (joined s)).
Proof.
  intros H. unfold q_recent_entries.
  now rewrite length_map, sql_limit_length, order_by_desc_length.
Qed.



(** ** Claims about single requests *)


(** C10: the [get_recent] action of an authenticated session reads nothing
    of the request but [action]: two requests with that action get the same
    treatment, the query is [get_recent_entries(10)], and the success
    response carries its result, at most 10 entries. *)
Theorem get_recent_ignores_request_fields address sess fields fields' s :
  authenticated sess = true ->
  dict_get "action" fields = Some (JStr "get_recent") ->
  dict_get "action" fields' = Some (JStr "get_recent") ->
  dispatch address sess (JObj fields') s = dispatch address sess (JObj fields) s
  /\ exists l,
       get_recent_entries 10 s = (fst (get_recent_entries 10 s), Ok l)
       /\ (length l <= 10)%nat
       /\ dispatch address sess (JObj fields) s
          = (set_sent
               (sent (fst (get_recent_entries 10 s))
                ++ [(address,
                     JObj [("status", JStr "success");
                           ("data", JArr (List.map json_of_summary l))])])
               (fst (get_recent_entries 10 s)),
             Ok (sess, Continue)).
Proof.
  intros Hauth Hact Hact'. split.
  - unfold dispatch. rewrite Hact, Hact', Hauth. reflexivity.
  - destruct (get_recent_entries_result 10 s) as (l & Hrun & Hl).
    exists l. split; [exact Hrun|]. split.
    + destruct Hl as [Hl|Hl]; subst l; [simpl; lia|].
      rewrite length_map, q_recent_entries_length by lia.
      apply (Nat.le_min_l 10).
    + unfold dispatch. rewrite Hact, Hauth. simpl.
      now rewrite (bind_ok _ _ _ _ _ Hrun).
Qed.

Lemma eq_str_true v t : eq_str v t = true -> v = Some (JStr t).
Proof.
  destruct v as [[]|]; simpl; try discriminate.
  intros H. apply String.eqb_eq in H. now subst.
Qed.

(** C7: [login] in an authenticated session, and [submit_data],
    [get_recent], [export_csv] or [get_stats] in an unauthenticated one, are
    answered with the error "Invalid action or authentication required";
    the session variables are returned as they were and the state differs
    only by that one response: entries, departments, logs, files and
    counters are the same. *)
Theorem rejected_action_changes_nothing address sess fields s :
  (authenticated sess = true
   /\ eq_str (dict_get "action" fields) "login" = true)
  \/ (authenticated sess = false
      /\ (eq_str (dict_get "action" fields) "submit_data"
          || eq_str (dict_get "action" fields) "get_recent"
          || eq_str (dict_get "action" fields) "export_csv"
          || eq_str (dict_get "action" fields) "get_stats") = true) ->
  exists s',
    dispatch address sess (JObj fields) s = (s', Ok (sess, Continue))
    /\ sent s' = sent s ++ [(address,
                 error_response "Invalid action or authentication required")]
    /\ data_entries s' = data_entries s
    /\ departments s' = departments s
    /\ system_logs s' = system_logs s
    /\ files s' = files s
    /\ stats s' = stats s.
Proof.
  intros H.
  exists (set_sent (sent s ++ [(address,
            error_response "Invalid action or authentication required")]) s).
  split; [|repeat split].
  unfold dispatch.
  destruct H as [[Hauth Hact] | [Hauth Hact]].
  - apply eq_str_true in Hact. rewrite Hact, Hauth. reflexivity.
  - repeat (apply orb_prop in Hact; destruct Hact as [Hact | Hact]);
      apply eq_str_true in Hact; rewrite Hact, Hauth; reflexivity.
Qed.

(** What the loop does with one read whose text does not parse: it answers
    at once with the error "Invalid JSON format: ..."; the session goes on
    with the same variables, nothing of the text is kept, and the next read
    is decoded on its own.  The handler has no buffer in which a message
    could grow from one read to the next. *)
Lemma unparsable_read_answered_at_once address sess data err rest s :
  Py.is_empty data = false ->
  json_loads data = inl err ->
  let s' := set_sent (sent s ++ [(address,
               error_response ("Invalid JSON format: " +:+ err))]) s in
  iteration address sess (RecvData data) s = (s', Ok (sess, Continue))
  /\ client_loop address sess (RecvData data :: rest) s
     = client_loop address sess rest s'.
Proof.
  intros Hne Herr s'.
  assert (Hit : iteration address sess (RecvData data) s = (s', Ok (sess, Continue))).
  { unfold iteration. now rewrite Hne, Herr. }
  split; [exact Hit|].
  simpl client_loop. now rewrite (bind_ok _ _ _ _ _ Hit).
Qed.

(** ** Login *)

Lemma q_credentials_found e h s d :
  NoDup (List.map email (departments s)) ->
  In d (departments s) -> email d = e -> password_hash d = h ->
  q_credentials e h s = Some (dept_id d, dept_name d).
Proof.
  unfold q_credentials. generalize (departments s) as l.
  induction l as [|x l IH]; intros Hnd Hin He Hh; [contradiction|].
  simpl in *. apply NoDup_cons in Hnd. destruct Hnd as [Hx Hnd].
  destruct Hin as [->|Hin].
  - subst e h. now rewrite !String.eqb_refl.
  - destruct (String.eqb_spec (email x) e) as [Hxe|Hxe].
    + exfalso. apply Hx. apply list_elem_of_In, in_map_iff.
      exists d. split; [congruence | exact Hin].
    + simpl. now apply IH.
Qed.

Lemma q_credentials_none e h s :
  (forall d, In d (departments s) -> ~ (email d = e /\ password_hash d = h)) ->
  q_credentials e h s = None.
Proof.
  unfold q_credentials. generalize (departments s) as l.
  induction l as [|x l IH]; intros H; [reflexivity|]. simpl.
  destruct (String.eqb_spec (email x) e) as [He|He];
    destruct (String.eqb_spec (password_hash x) h) as [Hh|Hh]; simpl;
    try (apply IH; intros d Hd; apply H; now right).
  exfalso. apply (H x); [now left | now split].
Qed.

Lemma authenticate_calm e p s :
  calm 2 s ->
  authenticate_department e p s
  = match q_credentials e (sha256 p) s with
    | Some (id, name) =>
        (fst (log_activity ("Successful login: " +:+ name +:+ " (" +:+ e +:+ ")")
                           (pop (pop s))),
         Ok (AuthSuccess id name))
    | None =>
        (fst (log_activity ("Failed login attempt: " +:+ e) (pop (pop s))),
         Ok (AuthFailure "Invalid credentials"))
    end.
Proof.
  intros H. unfold authenticate_department, try_except.
  rewrite (bind_ok _ _ _ _ _ (connect_calm _ _ H)). apply calm_pop in H.
  rewrite (bind_ok _ _ _ _ _
             (execute_calm _ {| closed := false; pending := [] |} _ _ eq_refl H)).
  change (q_credentials e (sha256 p) (pop (pop s)))
    with (q_credentials e (sha256 p) s).
  destruct (q_credentials e (sha256 p) s) as [[id name]|];
    now rewrite log_then_run.
Qed.

Lemma authenticate_result e p s :
  exists r,
    authenticate_department e p s = (fst (authenticate_department e p s), Ok r)
    /\ (r = AuthFailure "Authentication system error"
        \/ (r = AuthFailure "Invalid credentials"
            /\ q_credentials e (sha256 p) s = None)
        \/ exists id name,
             r = AuthSuccess id name
             /\ q_credentials e (sha256 p) s = Some (id, name)).
Proof.
  unfold authenticate_department, try_except, sqlite3_connect, cursor_execute,
    fails, gets, ret, raise, bind.
  simpl.
  destruct (hd false (faults s)); simpl.
  - rewrite log_activity_run. simpl. eexists; split; [reflexivity | now left].
  - destruct (hd false (tail (faults s))); simpl.
    + rewrite log_activity_run. simpl. eexists; split; [reflexivity | now left].
    + change (q_credentials e (sha256 p) _) with (q_credentials e (sha256 p) s).
      destruct (q_credentials e (sha256 p) s) as [[id name]|];
        rewrite log_activity_run; simpl; eexists; (split; [reflexivity|]).
      * right; right. now exists id, name.
      * right; left. now split.
Qed.

Lemma env_stable_sent X : env_stable (fun s => sent s = X).
Proof. repeat split; intros [] ?; simpl; trivial. Qed.

Lemma authenticate_sent e p s :
  sent (fst (authenticate_department e p s)) = sent s.
Proof. now apply (keeps_authenticate _ (env_stable_sent (sent s))). Qed.

Lemma is_empty_false s : s <> EmptyString -> Py.is_empty s = false.
Proof. now destruct s. Qed.

(** C1 (amended): [login] in an unauthenticated session works on the
    trimmed email and password.  When both are non-empty, the database
    answers, and a department of the table (emails being unique) has that
    email and the digest of that password, the session becomes
    authenticated, bound to the department's id and name, and the success
    response carries the name.  When no department has that email and
    digest, an error is sent and the session variables stay as they were;
    the message is "Invalid credentials" when both are non-empty and the
    database answers, "Email and password required" or "Authentication
    system error" otherwise. *)
Theorem login_by_trimmed_credentials address sess fields e p s :
  authenticated sess = false ->
  dict_get "action" fields = Some (JStr "login") ->
  dict_get "email" fields = Some (JStr e) ->
  dict_get "password" fields = Some (JStr p) ->
  (forall d,
      Py.strip e <> EmptyString -> Py.strip p <> EmptyString -> calm 2 s ->
      NoDup (List.map email (departments s)) ->
      In d (departments s) ->
      email d = Py.strip e -> password_hash d = sha256 (Py.strip p) ->
      exists s',
        dispatch address sess (JObj fields) s
        = (s', Ok ({| authenticated := true;
                      dept_info := Some (AuthSuccess (dept_id d) (dept_name d)) |},
                   Continue))
        /\ sent s' = sent s ++ [(address,
             JObj [("status", JStr "success");
                   ("message", JStr ("Welcome " +:+ dept_name d +:+ "!"));
                   ("dept_info",
                    JObj [("success", JBool true); ("dept_id", JNum (dept_id d));
                          ("dept_name", JStr (dept_name d))])])])
  /\ ((forall d, In d (departments s) ->
                 ~ (email d = Py.strip e /\ password_hash d = sha256 (Py.strip p))) ->
      exists s' message,
        dispatch address sess (JObj fields) s = (s', Ok (sess, Continue))
        /\ sent s' = sent s ++ [(address, error_response message)]
        /\ (message = "Email and password required"
            \/ message = "Invalid credentials"
            \/ message = "Authentication system error")
        /\ (Py.strip e <> EmptyString -> Py.strip p <> EmptyString -> calm 2 s ->
            message = "Invalid credentials")).
Proof.
  intros Hauth Hact He Hp.
  assert (Hd : dispatch address sess (JObj fields) s
               = (if Py.is_empty (Py.strip e) || Py.is_empty (Py.strip p) then
                    send address (error_response "Email and password required") ;;
                    ret (sess, Continue)
                  else
                    auth <- authenticate_department (Py.strip e) (Py.strip p) ;;
                    match auth with
                    | AuthSuccess _ name =>
                        send address
                          (JObj [("status", JStr "success");
                                 ("message", JStr ("Welcome " +:+ name +:+ "!"));
                                 ("dept_info", json_of_auth auth)]) ;;
                        ret ({| authenticated := true; dept_info := Some auth |},
                             Continue)
                    | AuthFailure message_ =>
                        send address (error_response message_) ;;
                        ret (sess, Continue)
                    end) s).
  { unfold dispatch, get_stripped. rewrite Hact, Hauth, He, Hp. reflexivity. }
  rewrite Hd. clear Hd. split.
  - intros d Hne Hnp Hcalm Hnd Hin Hde Hdp.
    rewrite (is_empty_false _ Hne), (is_empty_false _ Hnp). simpl.
    pose proof (authenticate_sent (Py.strip e) (Py.strip p) s) as Hsent.
    pose proof (authenticate_calm (Py.strip e) (Py.strip p) _ Hcalm) as Hrun.
    rewrite (q_credentials_found _ _ _ d Hnd Hin Hde Hdp) in Hrun.
    rewrite Hrun in Hsent. simpl in Hsent.
    rewrite (bind_ok _ _ _ _ _ Hrun).
    eexists. split; [reflexivity|]. simpl. now rewrite Hsent.
  - intros Hnone.
    destruct (Py.is_empty (Py.strip e) || Py.is_empty (Py.strip p)) eqn:Hemp.
    + do 2 eexists. split; [reflexivity|]. split; [reflexivity|].
      split; [now left|].
      intros Hne Hnp _.
      rewrite (is_empty_false _ Hne), (is_empty_false _ Hnp) in Hemp.
      discriminate.
    + pose proof (authenticate_sent (Py.strip e) (Py.strip p) s) as Hsent.
      pose proof (q_credentials_none _ _ _ Hnone) as Hq.
      destruct (authenticate_result (Py.strip e) (Py.strip p) s)
        as (r & Hrun & Hr).
      rewrite (bind_ok _ _ _ _ _ Hrun).
      destruct Hr as [-> | [[-> _] | (id & name & _ & Hsome)]].
      * do 2 eexists. split; [reflexivity|]. simpl.
        rewrite Hsent. split; [reflexivity|]. split; [now right; right|].
        intros _ _ Hcalm.
        rewrite (authenticate_calm _ _ _ Hcalm), Hq in Hrun. discriminate.
      * do 2 eexists. split; [reflexivity|]. simpl.
        rewrite Hsent. split; [reflexivity|]. split; [now right; left|].
        reflexivity.
      * congruence.
Qed.

(** ** The automatic export never reports success *)

Lemma always_raises_bind_left {A B} (m : M A) (f : A -> M B) :
  always_raises m -> always_raises (bind m f).
Proof.
  intros H s. destruct (H s) as [e He]. exists e. unfold bind.
  destruct (m s) as [s' r]; simpl in He. now subst r.
Qed.

Lemma always_raises_bind_right {A B} (m : M A) (f : A -> M B) :
  (forall a, always_raises (f a)) -> always_raises (bind m f).
Proof.
  intros H s. unfold bind. destruct (m s) as [s' [a|e]].
  - apply H.
  - now exists e.
Qed.

Lemma always_raises_closed {A} conn (q : State -> A) :
  closed conn = true -> always_raises (cursor_execute conn q).
Proof.
  intros Hc s. rewrite (execute_closed _ _ _ Hc). now eexists.
Qed.

Lemma auto_export_returns_none s :
  auto_export_enhanced_csv s = (fst (auto_export_enhanced_csv s), Ok None).
Proof.
  unfold auto_export_enhanced_csv at 1 2.
  match goal with
  | |- try_except ?body ?h s = _ =>
      assert (Hbody : always_raises body)
  end.
  { repeat first
      [ apply always_raises_bind_left, always_raises_closed; reflexivity
      | apply always_raises_bind_right; intros ? ]. }
  match goal with
  | |- try_except ?body ?h s = _ =>
      destruct (Hbody s) as [e He]; unfold try_except;
      destruct (body s) as [s' r]; simpl in He; subst r
  end.
  now rewrite log_then_run.
Qed.

(** ** [str.strip] *)

Lemma rstrip_idempotent s : Py.rstrip (Py.rstrip s) = Py.rstrip s.
Proof.
  induction s as [|c r IH]; simpl; [reflexivity|].
  destruct (Py.is_empty (Py.rstrip r) && Py.isspace c) eqn:E; simpl.
  - reflexivity.
  - now rewrite IH, E.
Qed.

Lemma lstrip_head s :
  match Py.lstrip s with
  | EmptyString => True
  | String c _ => Py.isspace c = false
  end.
Proof.
  induction s as [|c r IH]; simpl; [exact I|].
  destruct (Py.isspace c) eqn:E; [exact IH | exact E].
Qed.

Lemma strip_idempotent s : Py.strip (Py.strip s) = Py.strip s.
Proof.
  unfold Py.strip. pose proof (lstrip_head s) as H.
  destruct (Py.lstrip s) as [|c r]; [reflexivity|].
  simpl. rewrite H, andb_false_r. simpl. rewrite H.
  change (Py.rstrip (String c (Py.rstrip r))
          = String c (Py.rstrip r)).
  simpl. now rewrite rstrip_idempotent, H, andb_false_r.
Qed.

Lemma strip_empty_is_empty s :
  Py.strip s <> EmptyString -> Py.is_empty s = false.
Proof. destruct s; [intros H; now elim H | reflexivity]. Qed.

(** ** [save_department_data] *)

Lemma insert_calm n conn dept type content s :
  closed conn = false -> calm (S n) s ->
  cursor_insert_entry conn dept type content s
  = (pop s,
     Ok ({| closed := false;
            pending := pending conn
                       ++ [PendingEntry
                             {| entry_id := next_entry_id s; entry_dept_id := dept;
                                entry_type := type; data_content := content;
                                created_at := current_timestamp s |}] |},
         next_entry_id s)).
Proof.
  intros Hc H. unfold cursor_insert_entry. rewrite Hc.
  now rewrite (bind_ok _ _ _ _ _ (fails_calm _ _ H)).
Qed.

Lemma commit_calm n conn s :
  closed conn = false -> calm (S n) s ->
  conn_commit conn s
  = (fold_left (fun acc r => apply_pending r acc) (pending conn) (pop s),
     Ok {| closed := false; pending := [] |}).
Proof.
  intros Hc H. unfold conn_commit. rewrite Hc.
  now rewrite (bind_ok _ _ _ _ _ (fails_calm _ _ H)).
Qed.

(** The four checks that come before the database is touched. *)
Lemma save_rejects dept type content s :
  dept = 0 \/ Py.strip type = EmptyString \/ Py.strip content = EmptyString
  \/ 10000 < Py.len content ->
  exists message,
    save_department_data dept type content s = (s, Ok (SaveFailure message))
    /\ (dept <> 0 -> Py.strip type <> EmptyString ->
        Py.strip content <> EmptyString ->
        message = "Content too long (max 10,000 characters)")
    /\ (dept <> 0 -> Py.strip type = EmptyString ->
        message = "Entry type is required")
    /\ (dept <> 0 -> Py.strip type <> EmptyString ->
        Py.strip content = EmptyString ->
        message = "Data content is required").
Proof.
  intros H. unfold save_department_data, try_except.
  destruct (Z.eqb_spec dept 0) as [Hd|Hd].
  { eexists. split; [reflexivity|]. repeat split; intros; contradiction. }
  destruct (Py.is_empty type || Py.is_empty (Py.strip type)) eqn:Ht.
  { eexists. split; [reflexivity|]. repeat split; intros; try reflexivity.
    - rewrite (strip_empty_is_empty type), (is_empty_false (Py.strip type)) in Ht
        by assumption. discriminate.
    - rewrite (strip_empty_is_empty type), (is_empty_false (Py.strip type)) in Ht
        by assumption. discriminate. }
  assert (Htn : Py.strip type <> EmptyString).
  { intros E. rewrite E, orb_true_r in Ht. discriminate. }
  destruct (Py.is_empty content || Py.is_empty (Py.strip content)) eqn:Hc.
  { eexists. split; [reflexivity|]. repeat split; intros; try reflexivity;
      try contradiction.
    rewrite (strip_empty_is_empty content), (is_empty_false (Py.strip content))
      in Hc by assumption. discriminate. }
  assert (Hcn : Py.strip content <> EmptyString).
  { intros E. rewrite E, orb_true_r in Hc. discriminate. }
  destruct H as [H|[H|[H|H]]]; try contradiction.
  apply Z.ltb_lt in H. rewrite H.
  eexists. split; [reflexivity|]. repeat split; intros; try reflexivity;
    contradiction.
Qed.

Lemma env_stable_core
    (P : list Department -> list Entry -> Stats -> list (Address * json)
         -> DateTime -> string -> Prop) :
  env_stable (fun s => P (departments s) (data_entries s) (stats s) (sent s)
                         (now s) (current_timestamp s)).
Proof. repeat split; intros [] ?; simpl; trivial. Qed.

Lemma log_stable_core
    (P : list Department -> list Entry -> Stats -> list (Address * json)
         -> DateTime -> string -> gmap string (list Row) -> Prop) :
  log_stable (fun s => P (departments s) (data_entries s) (stats s) (sent s)
                         (now s) (current_timestamp s) (files s)).
Proof. repeat split; intros [] ?; simpl; trivial. Qed.

(** The export step of [save_department_data]: it returns normally, and all
    it reports is a log line. *)
Lemma export_step_run s :
  exists s',
    try_except
      (csv_result <- auto_export_enhanced_csv ;;
       match csv_result with
       | Some name => log_activity ("CSV auto-export successful: " +:+ name)
       | None => log_activity "CSV auto-export failed"
       end)
      (fun csv_error =>
         log_activity ("CSV auto-export error: " +:+ exn_str csv_error)) s
    = (s', Ok tt)
    /\ departments s' = departments s /\ data_entries s' = data_entries s
    /\ stats s' = stats s /\ sent s' = sent s
    /\ In ("[" +:+ strftime_iso (now s) +:+ "] CSV auto-export failed")
          (stdout s').
Proof.
  set (s1 := fst (auto_export_enhanced_csv s)).
  exists (fst (log_activity "CSV auto-export failed" s1)).
  split.
  - apply try_ok.
    rewrite (bind_ok _ _ _ _ _ (auto_export_returns_none s)).
    apply log_activity_run.
  - pose proof
      (keeps_auto_export
         (fun x => departments x = departments s /\ data_entries x = data_entries s
                   /\ stats x = stats s /\ sent x = sent s /\ now x = now s)
         (env_stable_core (fun d e st se n _ =>
            d = departments s /\ e = data_entries s /\ st = stats s
            /\ se = sent s /\ n = now s)) s) as H1.
    fold s1 in H1. specialize (H1 (conj eq_refl (conj eq_refl (conj eq_refl
                                    (conj eq_refl eq_refl))))).
    pose proof
      (keeps_log_activity
         (fun x => departments x = departments s /\ data_entries x = data_entries s
                   /\ stats x = stats s /\ sent x = sent s /\ now x = now s)
         "CSV auto-export failed"
         (proj1 (env_stable_core (fun d e st se n _ =>
            d = departments s /\ e = data_entries s /\ st = stats s
            /\ se = sent s /\ n = now s))) s1 H1) as H2.
    destruct H2 as (Hd & He & Hst & Hse & _).
    repeat split; try assumption.
    rewrite log_activity_prints. apply in_or_app. right. left.
    destruct H1 as (_ & _ & _ & _ & Hn). now rewrite Hn.
Qed.

(** A submission that passes the checks and whose insertion is committed is
    reported as a success, whatever the export does afterwards. *)
Lemma save_inserts dept type content s dn :
  dept <> 0 -> Py.strip type <> EmptyString -> Py.strip content <> EmptyString ->
  Py.len content <= 10000 ->
  calm 4 s -> q_dept_name dept s = Some dn ->
  exists s',
    save_department_data dept type content s
    = (s', Ok (SaveSuccess (next_entry_id s) dn))
    /\ data_entries s'
       = data_entries s
         ++ [{| entry_id := next_entry_id s; entry_dept_id := dept;
                entry_type := Py.strip type; data_content := Py.strip content;
                created_at := current_timestamp s |}]
    /\ stats s' = {| st_connections := st_connections (stats s);
                     st_data_entries := st_data_entries (stats s) + 1;
                     st_exports := st_exports (stats s) |}
    /\ departments s' = departments s
    /\ sent s' = sent s
    /\ In ("[" +:+ strftime_iso (now s) +:+ "] CSV auto-export failed")
          (stdout s').
Proof.
  intros Hd Ht Hc Hlen Hcalm Hq.
  unfold save_department_data.
  destruct (Z.eqb_spec dept 0) as [|_]; [contradiction|].
  rewrite (strip_empty_is_empty _ Ht), (is_empty_false _ Ht).
  rewrite (strip_empty_is_empty _ Hc), (is_empty_false _ Hc).
  destruct (Z.ltb_spec 10000 (Py.len content)) as [|_]; [lia|].
  cbv beta iota. simpl orb. cbv iota.
  unfold try_except at 1.
  rewrite (bind_ok _ _ _ _ _ (connect_calm _ _ Hcalm)). apply calm_pop in Hcalm.
  rewrite (bind_ok _ _ _ _ _
             (execute_calm _ {| closed := false; pending := [] |} _ _ eq_refl Hcalm)).
  change (q_dept_name dept (pop (pop s))) with (q_dept_name dept s).
  rewrite Hq. apply calm_pop in Hcalm.
  match goal with
  | |- context [bind (try_except_sqlite ?b ?h) ?k] =>
      assert (Hins : exists s6,
                        try_except_sqlite b h (pop (pop s))
                        = (s6, Ok (inr (next_entry_id s)))
                        /\ departments s6 = departments s
                        /\ data_entries s6
                           = data_entries s
                             ++ [{| entry_id := next_entry_id s;
                                    entry_dept_id := dept;
                                    entry_type := Py.strip type;
                                    data_content := Py.strip content;
                                    created_at := current_timestamp s |}]
                        /\ stats s6
                           = {| st_connections := st_connections (stats s);
                                st_data_entries := st_data_entries (stats s) + 1;
                                st_exports := st_exports (stats s) |}
                        /\ sent s6 = sent s /\ now s6 = now s)
  end.
  { unfold try_except_sqlite, try_except.
    rewrite (bind_ok _ _ _ _ _
               (insert_calm _ {| closed := false; pending := [] |} _ _ _ _
                  eq_refl Hcalm)).
    apply calm_pop in Hcalm. cbv beta iota.
    rewrite (bind_ok _ _ _ _ _
               (commit_calm _ {| closed := false; pending := _ |} _ eq_refl Hcalm)).
    rewrite (bind_ok _ _ _ _ _ eq_refl).
    rewrite log_then_run.
    eexists. split; [reflexivity|].
    match goal with
    | |- context [log_activity ?m ?x] =>
        pose proof
          (keeps_log_activity
             (fun y => departments y = departments x
                       /\ data_entries y = data_entries x
                       /\ stats y = stats x /\ sent y = sent x /\ now y = now x)
             m (proj1 (env_stable_core (fun d e st se n _ =>
                  d = departments x /\ e = data_entries x /\ st = stats x
                  /\ se = sent x /\ n = now x))) x
             (conj eq_refl (conj eq_refl (conj eq_refl (conj eq_refl eq_refl)))))
          as (H1 & H2 & H3 & H4 & H5)
    end.
    rewrite H1, H2, H3, H4, H5. repeat split. }
  destruct Hins as (s6 & Hins & Hd6 & He6 & Hst6 & Hse6 & Hn6).
  unfold try_except at 1.
  rewrite (bind_ok _ _ _ _ _ Hins).
  destruct (export_step_run s6) as (s' & Hrun & Hdep & Hent & Hst & Hsent & Hout).
  rewrite (bind_ok _ _ _ _ _ Hrun).
  exists s'. split; [reflexivity|].
  rewrite Hent, Hst, Hdep, Hsent, He6, Hst6, Hd6, Hse6.
  rewrite Hn6 in Hout.
  repeat split; try reflexivity. exact Hout.
Qed.

(** ** Submissions *)

Lemma get_stripped_text key fields v :
  text_field key fields = Some v -> get_stripped key fields = ret (Py.strip v).
Proof.
  unfold text_field, get_stripped.
  destruct (dict_get key fields) as [[]|]; intros H; inversion H; reflexivity.
Qed.

Lemma dispatch_submit address sess fields et dc :
  authenticated sess = true ->
  dict_get "action" fields = Some (JStr "submit_data") ->
  text_field "entry_type" fields = Some et ->
  text_field "data_content" fields = Some dc ->
  dispatch address sess (JObj fields)
  = (if Py.is_empty (Py.strip et) || Py.is_empty (Py.strip dc) then
       send address (error_response "Both category and content are required") ;;
       ret (sess, Continue)
     else
       dept <- dept_info_id (dept_info sess) ;;
       saved <- save_department_data dept (Py.strip et) (Py.strip dc) ;;
       match saved with
       | SaveSuccess id name =>
           by_name <- dept_info_name (dept_info sess) ;;
           log_activity ("Data submission successful: " +:+ Py.strip et
                         +:+ " by " +:+ by_name) ;;
           send address
             (JObj [("status", JStr "success");
                    ("message",
                     JStr ("Data saved successfully! Entry ID: "
                           +:+ Py.str_of_int id
                           +:+ ". CSV export completed for data analysis."));
                    ("entry_id", JNum id);
                    ("dept_name", JStr name)]) ;;
           ret (sess, Continue)
       | SaveFailure message_ =>
           log_activity ("Data submission failed: " +:+ message_) ;;
           send address (error_response message_) ;;
           ret (sess, Continue)
       end).
Proof.
  intros Hauth Hact Het Hdc. unfold dispatch.
  rewrite Hact, Hauth, (get_stripped_text _ _ _ Het), (get_stripped_text _ _ _ Hdc).
  reflexivity.
Qed.

Lemma log_activity_frame message s :
  let s' := fst (log_activity message s) in
  departments s' = departments s /\ data_entries s' = data_entries s
  /\ stats s' = stats s /\ sent s' = sent s /\ now s' = now s
  /\ files s' = files s
  /\ stdout s' = stdout s ++ ["[" +:+ strftime_iso (now s) +:+ "] " +:+ message].
Proof.
  pose proof
    (keeps_log_activity
       (fun y => departments y = departments s /\ data_entries y = data_entries s
                 /\ stats y = stats s /\ sent y = sent s /\ now y = now s
                 /\ files y = files s)
       message
       (log_stable_core (fun d e st se n _ f =>
          d = departments s /\ e = data_entries s /\ st = stats s
          /\ se = sent s /\ n = now s /\ f = files s)) s
       (conj eq_refl (conj eq_refl (conj eq_refl (conj eq_refl
          (conj eq_refl eq_refl)))))) as (H1 & H2 & H3 & H4 & H5 & H6).
  cbv zeta. rewrite log_activity_prints. repeat split; assumption.
Qed.

(** C6: when a submission passes the checks and its row is committed, the
    session answers with the success response carrying the new entry id and
    the department name, and the row is in the table, whatever the oracle
    holds for the export that follows; the failure of the export shows only
    as the log line "CSV auto-export failed". *)
Theorem submit_succeeds_whatever_the_export
    address sess fields et dc id name dn s :
  authenticated sess = true ->
  dept_info sess = Some (AuthSuccess id name) ->
  dict_get "action" fields = Some (JStr "submit_data") ->
  text_field "entry_type" fields = Some et ->
  text_field "data_content" fields = Some dc ->
  id <> 0 ->
  Py.strip et <> EmptyString -> Py.strip dc <> EmptyString ->
  Py.len (Py.strip dc) <= 10000 ->
  calm 4 s -> q_dept_name id s = Some dn ->
  exists s',
    dispatch address sess (JObj fields) s = (s', Ok (sess, Continue))
    /\ sent s'
       = sent s
         ++ [(address,
              JObj [("status", JStr "success");
                    ("message",
                     JStr ("Data saved successfully! Entry ID: "
                           +:+ Py.str_of_int (next_entry_id s)
                           +:+ ". CSV export completed for data analysis."));
                    ("entry_id", JNum (next_entry_id s));
                    ("dept_name", JStr dn)])]
    /\ data_entries s'
       = data_entries s
         ++ [{| entry_id := next_entry_id s; entry_dept_id := id;
                entry_type := Py.strip et; data_content := Py.strip dc;
                created_at := current_timestamp s |}]
    /\ In ("[" +:+ strftime_iso (now s) +:+ "] CSV auto-export failed")
          (stdout s').
Proof.
  intros Hauth Hinfo Hact Het Hdc Hid Hte Hce Hlen Hcalm Hq.
  rewrite (dispatch_submit _ _ _ _ _ Hauth Hact Het Hdc).
  rewrite (is_empty_false _ Hte), (is_empty_false _ Hce).
  rewrite Hinfo. cbn [orb dept_info_id dept_info_name].
  rewrite (bind_ok _ _ _ _ _ eq_refl).
  assert (Hte' : Py.strip (Py.strip et) <> EmptyString)
    by now rewrite strip_idempotent.
  assert (Hce' : Py.strip (Py.strip dc) <> EmptyString)
    by now rewrite strip_idempotent.
  destruct (save_inserts id (Py.strip et) (Py.strip dc) s dn
              Hid Hte' Hce' Hlen Hcalm Hq)
    as (s1 & Hrun & Hent & Hst & Hdep & Hsent & Hout).
  rewrite !strip_idempotent in Hent.
  rewrite (bind_ok _ _ _ _ _ Hrun).
  rewrite (bind_ok _ _ _ _ _ eq_refl).
  rewrite (bind_ok _ _ _ _ _ (log_activity_run _ s1)).
  destruct (log_activity_frame
              ("Data submission successful: " +:+ Py.strip et +:+ " by " +:+ name) s1)
    as (F1 & F2 & F3 & F4 & F5 & F6 & F7).
  eexists. split; [reflexivity|]. simpl.
  rewrite F4, F2, F7, Hsent, Hent.
  repeat split. apply in_or_app. now left.
Qed.

Lemma is_empty_true s : Py.is_empty s = true -> s = EmptyString.
Proof. now destruct s. Qed.

(** C2 (amended): a [submit_data] request whose category or content is
    empty after trimming, or whose trimmed content is longer than 10,000
    characters, is answered with an error and inserts nothing, whether or
    not the session is authenticated.  The message is "Invalid action or
    authentication required" in an unauthenticated session; in an
    authenticated one it is "Both category and content are required" when a
    field is empty, and "Content too long (max 10,000 characters)"
    otherwise. *)
Theorem invalid_submission_rejected address sess fields et dc s :
  session_ok sess ->
  dict_get "action" fields = Some (JStr "submit_data") ->
  text_field "entry_type" fields = Some et ->
  text_field "data_content" fields = Some dc ->
  Py.strip et = EmptyString \/ Py.strip dc = EmptyString
  \/ 10000 < Py.len (Py.strip dc) ->
  exists s' message,
    dispatch address sess (JObj fields) s = (s', Ok (sess, Continue))
    /\ sent s' = sent s ++ [(address, error_response message)]
    /\ data_entries s' = data_entries s
    /\ (authenticated sess = false ->
        message = "Invalid action or authentication required")
    /\ (authenticated sess = true ->
        Py.strip et = EmptyString \/ Py.strip dc = EmptyString ->
        message = "Both category and content are required")
    /\ (authenticated sess = true ->
        Py.strip et <> EmptyString -> Py.strip dc <> EmptyString ->
        forall id name,
          dept_info sess = Some (AuthSuccess id name) -> id <> 0 ->
          message = "Content too long (max 10,000 characters)").
Proof.
  intros Hok Hact Het Hdc Hbad.
  destruct (authenticated sess) eqn:Hauth.
  - rewrite (dispatch_submit _ _ _ _ _ Hauth Hact Het Hdc).
    destruct (Py.is_empty (Py.strip et) || Py.is_empty (Py.strip dc)) eqn:Hemp.
    + do 2 eexists. split; [reflexivity|]. split; [reflexivity|].
      split; [reflexivity|]. split; [discriminate|]. split; [reflexivity|].
      intros _ Hte Hce.
      rewrite (is_empty_false _ Hte), (is_empty_false _ Hce) in Hemp.
      discriminate.
    + apply orb_false_elim in Hemp. destruct Hemp as [He1 He2].
      assert (Hte : Py.strip et <> EmptyString)
        by (intros E; rewrite E in He1; discriminate).
      assert (Hce : Py.strip dc <> EmptyString)
        by (intros E; rewrite E in He2; discriminate).
      destruct Hbad as [Hbad|[Hbad|Hbad]]; try contradiction.
      destruct (Hok Hauth) as (id & name & Hinfo).
      rewrite Hinfo. cbn [dept_info_id].
      rewrite (bind_ok _ _ _ _ _ eq_refl).
      destruct (save_rejects id (Py.strip et) (Py.strip dc) s
                  (or_intror (or_intror (or_intror Hbad))))
        as (message & Hrun & Hlong & _ & _).
      rewrite (bind_ok _ _ _ _ _ Hrun).
      rewrite (bind_ok _ _ _ _ _ (log_activity_run _ s)).
      destruct (log_activity_frame ("Data submission failed: " +:+ message) s)
        as (F1 & F2 & F3 & F4 & F5 & F6 & F7).
      do 2 eexists. split; [reflexivity|]. simpl. rewrite F4, F2.
      split; [reflexivity|]. split; [reflexivity|]. split; [discriminate|].
      split; [intros _ [E|E]; contradiction|].
      intros _ _ _ id' name' Hinfo' Hid'.
      inversion Hinfo'; subst id' name'.
      apply Hlong; [assumption | | ]; now rewrite strip_idempotent.
  - exists (set_sent (sent s ++ [(address,
              error_response "Invalid action or authentication required")]) s).
    eexists. split.
    + unfold dispatch. rewrite Hact, Hauth. reflexivity.
    + split; [reflexivity|]. split; [reflexivity|]. split; [reflexivity|].
      split; discriminate.
Qed.

(** ** Files written by the exports *)


























(** ** The summary by category *)









(** *** Doubles: the error of one rounding *)













(** ** The [exports] counter *)

Section ExportsCounter.

Variable sent0 : list (Address * json).

Let I := exports_idle sent0.

Lemma exports_idle_env : env_stable I.
Proof.
  unfold env_stable, log_stable. repeat apply conj; intros s v H; exact H.
Qed.

Lemma idle_set_data_entries s v : I s -> I (set_data_entries v s).
Proof. intros H. exact H. Qed.

Lemma idle_apply_pending l s :
  I s -> I (fold_left (fun acc r => apply_pending r acc) l s).
Proof.
  revert s. induction l as [|r l IH]; intros s H; [exact H|].
  simpl. apply IH. destruct r; exact H.
Qed.

Lemma keeps_send_idle address j :
  reports_no_export j -> keeps I (send address j).
Proof.
  intros Hj s [Hz (new & Hs & Hall)]. split; [exact Hz|].
  exists (new ++ [(address, j)]). split.
  - simpl. now rewrite Hs, app_assoc.
  - apply Forall_app. split; [exact Hall|]. now repeat constructor.
Qed.

Lemma keeps_error_idle address message :
  keeps I (send address (error_response message)).
Proof. apply keeps_send_idle. intros v Hv. discriminate. Qed.

Lemma keeps_insert_idle conn dept type content :
  keeps I (cursor_insert_entry conn dept type content).
Proof.
  unfold cursor_insert_entry. apply keeps_if; [apply keeps_raise|].
  apply keeps_bind; [apply keeps_fails, exports_idle_env | intros b].
  apply keeps_if; [apply keeps_raise|].
  apply keeps_bind; [apply keeps_gets | intros ?].
  apply keeps_bind; [apply keeps_gets | intros ?]. apply keeps_ret.
Qed.

Lemma keeps_commit_idle conn : keeps I (conn_commit conn).
Proof.
  unfold conn_commit. apply keeps_if; [apply keeps_raise|].
  apply keeps_bind; [apply keeps_fails, exports_idle_env | intros b].
  apply keeps_if; [apply keeps_raise|].
  apply keeps_bind; [|intros ?; apply keeps_ret].
  apply keeps_modify. intros s. apply idle_apply_pending.
Qed.

Lemma keeps_log_idle message : keeps I (log_activity message).
Proof. apply keeps_log_activity, exports_idle_env. Qed.

Lemma keeps_save_idle dept type content :
  keeps I (save_department_data dept type content).
Proof.
  unfold save_department_data. apply keeps_try_except.
  - repeat (apply keeps_if; [apply keeps_ret|]).
    apply keeps_bind; [apply keeps_connect, exports_idle_env | intros conn].
    apply keeps_bind; [apply keeps_execute, exports_idle_env | intros [dn|]];
      [|apply keeps_ret].
    apply keeps_bind.
    + apply keeps_try_except.
      * apply keeps_bind; [apply keeps_insert_idle | intros [conn' id]].
        apply keeps_bind; [apply keeps_commit_idle | intros ?].
        apply keeps_bind; [|intros ?].
        { apply keeps_modify. intros s H. exact H. }
        apply keeps_bind; [apply keeps_log_idle | intros ?]. apply keeps_ret.
      * intros e. apply keeps_if; [apply keeps_ret | apply keeps_raise].
    + intros [early|id]; [apply keeps_ret|].
      apply keeps_bind; [|intros ?; apply keeps_ret].
      apply keeps_try_except.
      * apply keeps_bind; [apply keeps_auto_export, exports_idle_env|].
        intros [name|]; apply keeps_log_idle.
      * intros e. apply keeps_log_idle.
  - intros e.
    apply keeps_bind; [apply keeps_log_idle | intros ?; apply keeps_ret].
Qed.

Lemma keeps_get_stripped key fields : keeps I (get_stripped key fields).
Proof.
  unfold get_stripped.
  destruct (dict_get key fields) as [[]|];
    first [apply keeps_ret | apply keeps_raise].
Qed.

Lemma keeps_dispatch_idle address sess message :
  keeps I (dispatch address sess message).
Proof.
  unfold dispatch. destruct message; try apply keeps_raise.
  apply keeps_if; [|apply keeps_if; [|apply keeps_if; [|apply keeps_if;
    [|apply keeps_if; [|apply keeps_if]]]]].
  - apply keeps_bind; [apply keeps_get_stripped | intros e].
    apply keeps_bind; [apply keeps_get_stripped | intros p].
    apply keeps_if.
    + apply keeps_bind; [apply keeps_error_idle | intros ?; apply keeps_ret].
    + apply keeps_bind; [apply keeps_authenticate, exports_idle_env|].
      intros [id name|m].
      * apply keeps_bind; [|intros ?; apply keeps_ret].
        apply keeps_send_idle. intros v Hv. discriminate.
      * apply keeps_bind; [apply keeps_error_idle | intros ?; apply keeps_ret].
  - apply keeps_bind; [apply keeps_get_stripped | intros et].
    apply keeps_bind; [apply keeps_get_stripped | intros dc].
    apply keeps_if.
    + apply keeps_bind; [apply keeps_error_idle | intros ?; apply keeps_ret].
    + apply keeps_bind; [|intros dept].
      { unfold dept_info_id. destruct (dept_info sess) as [[]|];
          first [apply keeps_ret | apply keeps_raise]. }
      apply keeps_bind; [apply keeps_save_idle | intros [id name|m]].
      * apply keeps_bind; [|intros by_name].
        { unfold dept_info_name. destruct (dept_info sess) as [[]|];
            first [apply keeps_ret | apply keeps_raise]. }
        apply keeps_bind; [apply keeps_log_idle | intros ?].
        apply keeps_bind; [|intros ?; apply keeps_ret].
        apply keeps_send_idle. intros v Hv. discriminate.
      * apply keeps_bind; [apply keeps_log_idle | intros ?].
        apply keeps_bind; [apply keeps_error_idle | intros ?; apply keeps_ret].
  - apply keeps_bind; [apply keeps_get_recent, exports_idle_env | intros l].
    apply keeps_bind; [|intros ?; apply keeps_ret].
    apply keeps_send_idle. intros v Hv. discriminate.
  - apply keeps_bind; [apply keeps_report, exports_idle_env | intros [name|]].
    + apply keeps_if.
      * apply keeps_bind; [apply keeps_error_idle | intros ?; apply keeps_ret].
      * apply keeps_bind; [|intros ?; apply keeps_ret].
        apply keeps_send_idle. intros v Hv. discriminate.
    + apply keeps_bind; [apply keeps_error_idle | intros ?; apply keeps_ret].
  - (* get_stats: the counters sent are those of the state *)
    intros s Hs. unfold bind, gets, send, modify, ret. simpl.
    apply (keeps_send_idle address
             (JObj [("status", JStr "success");
                    ("stats", json_of_stats (stats s))])); [|exact Hs].
    intros v Hv. simpl in Hv. inversion Hv. f_equal. apply Hs.
  - apply keeps_ret.
  - apply keeps_bind; [apply keeps_error_idle | intros ?; apply keeps_ret].
Qed.

Lemma keeps_iteration_idle address sess r :
  keeps I (iteration address sess r).
Proof.
  unfold iteration. destruct r as [data| | |].
  - apply keeps_if; [apply keeps_ret|].
    destruct (json_loads data) as [err|message].
    + apply keeps_bind; [apply keeps_error_idle | intros ?; apply keeps_ret].
    + apply keeps_dispatch_idle.
  - apply keeps_bind; [apply keeps_log_idle | intros ?; apply keeps_ret].
  - apply keeps_bind; [apply keeps_log_idle | intros ?; apply keeps_ret].
  - apply keeps_raise.
Qed.

Lemma keeps_thread_turn_idle address sess r :
  keeps I (thread_turn address sess r).
Proof.
  unfold thread_turn. apply keeps_bind.
  - apply keeps_try_except.
    + apply keeps_bind; [apply keeps_iteration_idle | intros [sess' []]];
        apply keeps_ret.
    + intros e.
      apply keeps_bind; [apply keeps_log_idle | intros ?; apply keeps_ret].
  - intros [sess'|]; [apply keeps_ret|].
    apply keeps_bind; [apply keeps_log_idle | intros ?; apply keeps_ret].
Qed.

Lemma keeps_thread_start_idle address : keeps I (thread_start address).
Proof.
  unfold thread_start. apply keeps_bind; [|intros ?; apply keeps_log_idle].
  apply keeps_modify. intros s H. exact H.
Qed.

Lemma server_step_idle srv ev :
  I (world srv) -> I (world (server_step srv ev)).
Proof.
  intros H. destruct ev as [fd address|fd r|dt ts oracle]; simpl.
  - now apply keeps_thread_start_idle.
  - destruct (threads srv !! fd) as [[address sess]|]; [|exact H].
    pose proof (keeps_thread_turn_idle address sess r _ H) as H'.
    destruct (thread_turn address sess r (world srv)) as [w' [[sess'|]|e]];
      exact H'.
  - exact H.
Qed.

Lemma server_run_idle evs srv :
  I (world srv) -> I (world (server_run evs srv)).
Proof.
  revert srv. induction evs as [|ev evs IH]; intros srv H; [exact H|].
  simpl. apply IH. now apply server_step_idle.
Qed.

End ExportsCounter.

(** C9: no operation of the server touches the [exports] counter.  However
    clients connect and whatever they send, in any interleaving of their
    turns, the counter is 0, every response sent that reports the counters
    reports [exports] as 0, and a [get_stats] request of an authenticated
    session is answered with the counters and [exports] equal to 0. *)
Theorem exports_counter_never_incremented evs w :
  let srv := server_run evs (boot w) in
  st_exports (stats (world srv)) = 0
  /\ (exists new,
        sent (world srv) = sent w ++ new
        /\ Forall (fun x : Address * json => reports_no_export (snd x)) new)
  /\ (forall address sess fields,
        authenticated sess = true ->
        dict_get "action" fields = Some (JStr "get_stats") ->
        dispatch address sess (JObj fields) (world srv)
        = (set_sent
             (sent (world srv)
              ++ [(address,
                   JObj [("status", JStr "success");
                         ("stats",
                          JObj [("connections",
                                 JNum (st_connections (stats (world srv))));
                                ("data_entries",
                                 JNum (st_data_entries (stats (world srv))));
                                ("exports", JNum 0)])])])
             (world srv),
           Ok (sess, Continue))).
Proof.
  intros srv.
  assert (H : exports_idle (sent w) (world srv)).
  { apply server_run_idle. split; [reflexivity|].
    exists []. split; [now rewrite app_nil_r | constructor]. }
  clearbody srv.
  split; [apply H|]. split; [apply H|].
  intros address sess fields Hauth Hact.
  unfold dispatch. rewrite Hact, Hauth. cbn [eq_str andb negb].
  unfold bind, gets, send, modify, ret, json_of_stats. simpl.
  now rewrite (proj1 H).
Qed.


(** * More properties of the server *)

(** ** Faults *)

Lemma fails_now s : hd false (faults s) = true -> fails s = (pop s, Ok true).
Proof. intros H. unfold fails, pop. now rewrite H. Qed.

Lemma connect_fault s :
  hd false (faults s) = true ->
  sqlite3_connect s = (pop s, Raise (OperationalError "unable to open database file")).
Proof.
  intros H. unfold sqlite3_connect. now rewrite (bind_ok _ _ _ _ _ (fails_now _ H)).
Qed.

Lemma execute_fault {A} conn (q : State -> A) s :
  closed conn = false -> hd false (faults s) = true ->
  cursor_execute conn q s = (pop s, Raise (OperationalError "database is locked")).
Proof.
  intros Hc H. unfold cursor_execute. rewrite Hc.
  now rewrite (bind_ok _ _ _ _ _ (fails_now _ H)).
Qed.

Lemma insert_fault conn dept type content s :
  closed conn = false -> hd false (faults s) = true ->
  cursor_insert_entry conn dept type content s
  = (pop s, Raise (OperationalError "database is locked")).
Proof.
  intros Hc H. unfold cursor_insert_entry. rewrite Hc.
  now rewrite (bind_ok _ _ _ _ _ (fails_now _ H)).
Qed.

Lemma commit_fault conn s :
  closed conn = false -> hd false (faults s) = true ->
  conn_commit conn s = (pop s, Raise (OperationalError "database is locked")).
Proof.
  intros Hc H. unfold conn_commit. rewrite Hc.
  now rewrite (bind_ok _ _ _ _ _ (fails_now _ H)).
Qed.


Lemma calm_1 s : hd false (faults s) = false -> calm 1 s.
Proof. intros H. split; [exact H | exact Logic.I]. Qed.

Lemma calm_S n s : hd false (faults s) = false -> calm n (pop s) -> calm (S n) s.
Proof. intros H1 H2. split; assumption. Qed.

Lemma not_calm n s :
  ~ calm (S n) s -> hd false (faults s) = true \/ (calm 1 s /\ ~ calm n (pop s)).
Proof.
  intros H. destruct (hd false (faults s)) eqn:E; [now left|right].
  split; [now apply calm_1|]. intros Hc. apply H. now apply calm_S.
Qed.

Lemma calm_dec n s : calm n s \/ ~ calm n s.
Proof.
  unfold calm. generalize (faults s). induction n as [|n IH]; intros l; simpl.
  - now left.
  - destruct (hd false l); [right; intros [H _]; discriminate|].
    destruct (IH (tail l)) as [H|H]; [left; now split | right; intros [_ H']; auto].
Qed.

(** ** [log_activity] is best effort *)

(** X1: logging never raises; it prints the line stamped with the local
    time, leaves the tables [departments] and [data_entries], the files, the
    counters and the responses alone, and either adds the one row
    [(INFO, message)] to [system_logs] or, when the database fails, adds
    nothing; with the database answering three times it adds the row. *)
Theorem log_activity_best_effort message s :
  exists s',
    log_activity message s = (s', Ok tt)
    /\ stdout s' = stdout s ++ [log_line s message]
    /\ departments s' = departments s /\ data_entries s' = data_entries s
    /\ files s' = files s /\ stats s' = stats s /\ sent s' = sent s
    /\ (system_logs s' = system_logs s
        \/ system_logs s' = system_logs s ++ [log_row message])
    /\ (calm 3 s -> system_logs s' = system_logs s ++ [log_row message])
    /\ (~ calm 3 s -> system_logs s' = system_logs s).
Proof.
  unfold log_activity, try_except, gets, print, modify, sqlite3_connect,
    cursor_insert_log, conn_commit, fails, ret, raise, bind, calm.
  simpl.
  destruct (hd false (faults s)) eqn:E1; simpl.
  { eexists. split; [reflexivity|]. simpl. repeat split; auto.
    intros [H _]. congruence. }
  destruct (hd false (tail (faults s))) eqn:E2; simpl.
  { eexists. split; [reflexivity|]. simpl. repeat split; auto.
    intros (_ & H & _). congruence. }
  destruct (hd false (tail (tail (faults s)))) eqn:E3; simpl.
  { eexists. split; [reflexivity|]. simpl. repeat split; auto.
    intros (_ & _ & H & _). congruence. }
  eexists. split; [reflexivity|]. simpl. repeat split; auto.
  intros H. elim H. repeat split; assumption.
Qed.

(** ** [save_department_data]: all or nothing *)

Section SaveFrame.

Variable I : State -> Prop.
Hypothesis I_env : env_stable I.
Hypothesis I_entries : forall s v, I s -> I (set_data_entries (data_entries s ++ [v]) s).
Hypothesis I_count : forall s, I s -> I (set_stats (count_entry (stats s)) s).

Lemma keeps_fold_pending l :
  keeps I (modify (fun s => fold_left (fun acc r => apply_pending r acc) l s)).
Proof.
  apply keeps_modify. induction l as [|r l IH]; intros s H; [exact H|].
  simpl. apply IH. destruct r; simpl.
  - now apply I_entries.
  - now apply (proj1 I_env).
Qed.

Lemma keeps_save dept type content :
  keeps I (save_department_data dept type content).
Proof.
  unfold save_department_data. apply keeps_try_except.
  - repeat (apply keeps_if; [apply keeps_ret|]).
    apply keeps_bind; [now apply keeps_connect | intros conn].
    apply keeps_bind; [now apply keeps_execute | intros [dn|]];
      [|apply keeps_ret].
    apply keeps_bind.
    + apply keeps_try_except.
      * apply keeps_bind; [|intros [conn' id]].
        { unfold cursor_insert_entry. apply keeps_if; [apply keeps_raise|].
          apply keeps_bind; [apply keeps_fails, I_env | intros b].
          apply keeps_if; [apply keeps_raise|].
          apply keeps_bind; [apply keeps_gets | intros ?].
          apply keeps_bind; [apply keeps_gets | intros ?]. apply keeps_ret. }
        apply keeps_bind; [|intros ?].
        { unfold conn_commit. apply keeps_if; [apply keeps_raise|].
          apply keeps_bind; [apply keeps_fails, I_env | intros b].
          apply keeps_if; [apply keeps_raise|].
          apply keeps_bind; [apply keeps_fold_pending | intros ?; apply keeps_ret]. }
        apply keeps_bind; [|intros ?].
        { apply keeps_modify. intros s H. now apply I_count. }
        apply keeps_bind; [apply keeps_log_activity, I_env | intros ?].
        apply keeps_ret.
      * intros e. apply keeps_if; [apply keeps_ret | apply keeps_raise].
    + intros [early|id]; [apply keeps_ret|].
      apply keeps_bind; [|intros ?; apply keeps_ret].
      apply keeps_try_except.
      * apply keeps_bind; [now apply keeps_auto_export|].
        intros [name|]; apply keeps_log_activity, I_env.
      * intros e. apply keeps_log_activity, I_env.
  - intros e.
    apply keeps_bind; [apply keeps_log_activity, I_env | intros ?; apply keeps_ret].
Qed.

End SaveFrame.

(** What a failed [save_department_data] leaves: the state reached through
    the stated prefix, then the log line of the handler. *)
Lemma save_failure_leaves s1 s message :
  departments s1 = departments s -> data_entries s1 = data_entries s ->
  stats s1 = stats s ->
  let s' := fst (log_activity message s1) in
  data_entries s' = data_entries s /\ stats s' = stats s.
Proof.
  intros Hd He Hs.
  destruct (log_activity_frame message s1) as (_ & F2 & F3 & _).
  cbv zeta in *. now rewrite F2, F3, He, Hs.
Qed.

Lemma blank_iff t :
  (Py.is_empty t || Py.is_empty (Py.strip t)) = true <-> Py.strip t = EmptyString.
Proof.
  split.
  - intros H. apply orb_prop in H. destruct H as [H|H].
    + apply is_empty_true in H. now subst.
    + now apply is_empty_true.
  - intros H. rewrite H. apply orb_true_r.
Qed.

Lemma save_department_data_outcome dept type content s :
  exists s' r,
    save_department_data dept type content s = (s', Ok r)
    /\ match r with
       | SaveSuccess id name =>
           id = next_entry_id s /\ q_dept_name dept s = Some name
           /\ checks_pass dept type content /\ calm 4 s
           /\ data_entries s' = data_entries s ++ [new_entry s dept type content]
           /\ stats s' = count_entry (stats s)
       | SaveFailure message =>
           data_entries s' = data_entries s /\ stats s' = stats s
           /\ failure_cause dept type content s message
       end.
Proof.
  destruct (Z.eq_dec dept 0) as [Hd|Hd].
  { exists s. eexists. split.
    - unfold save_department_data, try_except. subst dept. reflexivity.
    - repeat split. now constructor. }
  destruct (Py.is_empty type || Py.is_empty (Py.strip type)) eqn:Ht.
  { exists s. eexists. split.
    - unfold save_department_data, try_except.
      destruct (Z.eqb_spec dept 0); [contradiction|]. rewrite Ht. reflexivity.
    - repeat split. apply NoEntryType; [exact Hd | now apply blank_iff]. }
  assert (Htn : Py.strip type <> EmptyString).
  { intros E. apply blank_iff in E. congruence. }
  destruct (Py.is_empty content || Py.is_empty (Py.strip content)) eqn:Hc.
  { exists s. eexists. split.
    - unfold save_department_data, try_except.
      destruct (Z.eqb_spec dept 0); [contradiction|]. rewrite Ht, Hc. reflexivity.
    - repeat split. apply NoContent; [exact Hd | exact Htn | now apply blank_iff]. }
  assert (Hcn : Py.strip content <> EmptyString).
  { intros E. apply blank_iff in E. congruence. }
  destruct (Z.ltb_spec 10000 (Py.len content)) as [Hlen|Hlen].
  { exists s. eexists. split.
    - unfold save_department_data, try_except.
      destruct (Z.eqb_spec dept 0); [contradiction|]. rewrite Ht, Hc.
      destruct (Z.ltb_spec 10000 (Py.len content)); [reflexivity | lia].
    - repeat split. now apply TooLong. }
  assert (Hchecks : checks_pass dept type content) by (repeat split; assumption).
  unfold save_department_data.
  destruct (Z.eqb_spec dept 0); [contradiction|]. rewrite Ht, Hc.
  destruct (Z.ltb_spec 10000 (Py.len content)); [lia|].
  unfold try_except at 1.
  destruct (hd false (faults s)) eqn:E1.
  { rewrite (bind_raise _ _ _ _ _ (connect_fault _ E1)), log_then_run.
    do 2 eexists. split; [reflexivity|].
    destruct (save_failure_leaves (pop s) s
                ("Critical error saving data: "
                 +:+ exn_str (OperationalError "unable to open database file"))
                eq_refl eq_refl eq_refl) as [H1 H2].
    split; [exact H1|]. split; [exact H2|].
    apply SystemError; [exact Hchecks|]. intros [Hx _]. congruence. }
  rewrite (bind_ok _ _ _ _ _ (connect_calm 0 _ (calm_1 _ E1))).
  destruct (hd false (faults (pop s))) eqn:E2.
  { rewrite (bind_raise _ _ _ _ _
               (execute_fault {| closed := false; pending := [] |} _ _ eq_refl E2)),
      log_then_run.
    do 2 eexists. split; [reflexivity|].
    destruct (save_failure_leaves (pop (pop s)) s
                ("Critical error saving data: "
                 +:+ exn_str (OperationalError "database is locked"))
                eq_refl eq_refl eq_refl) as [H1 H2].
    split; [exact H1|]. split; [exact H2|].
    apply SystemError; [exact Hchecks|]. intros (_ & Hx & _).
    change (hd false (faults (pop s)) = false) in Hx. congruence. }
  assert (Hcalm2 : calm 2 s).
  { apply calm_S; [exact E1|]. now apply calm_1. }
  rewrite (bind_ok _ _ _ _ _
             (execute_calm 0 {| closed := false; pending := [] |} _ _ eq_refl
                (calm_1 _ E2))).
  change (q_dept_name dept (pop (pop s))) with (q_dept_name dept s).
  destruct (q_dept_name dept s) as [dn|] eqn:Hq.
  2:{ do 2 eexists. split; [reflexivity|]. repeat split.
      now apply UnknownDepartment. }
  destruct (hd false (faults (pop (pop s)))) eqn:E3.
  { match goal with
    | |- context [bind (try_except_sqlite ?b ?h) ?k] =>
        assert (Hins : try_except_sqlite b h (pop (pop s))
                       = (pop (pop (pop s)),
                          Ok (inl (SaveFailure
                                     ("Database error: " +:+ "database is locked")))))
    end.
    { unfold try_except_sqlite, try_except.
      now rewrite (bind_raise _ _ _ _ _
                     (insert_fault {| closed := false; pending := [] |} _ _ _ _
                        eq_refl E3)). }
    rewrite (bind_ok _ _ _ _ _ Hins).
    do 2 eexists. split; [reflexivity|]. repeat split.
    apply DatabaseError; [exact Hchecks | exact Hcalm2 | congruence|].
    intros [Hx _]. congruence. }
  destruct (hd false (faults (pop (pop (pop s))))) eqn:E4.
  { match goal with
    | |- context [bind (try_except_sqlite ?b ?h) ?k] =>
        assert (Hins : try_except_sqlite b h (pop (pop s))
                       = (pop (pop (pop (pop s))),
                          Ok (inl (SaveFailure
                                     ("Database error: " +:+ "database is locked")))))
    end.
    { unfold try_except_sqlite, try_except.
      rewrite (bind_ok _ _ _ _ _
                 (insert_calm 0 {| closed := false; pending := [] |} _ _ _ _ eq_refl
                    (calm_1 _ E3))).
      cbv beta iota.
      now rewrite (bind_raise _ _ _ _ _
                     (commit_fault {| closed := false; pending := _ |} _ eq_refl E4)). }
    rewrite (bind_ok _ _ _ _ _ Hins).
    do 2 eexists. split; [reflexivity|]. repeat split.
    apply DatabaseError; [exact Hchecks | exact Hcalm2 | congruence|].
    intros (_ & Hx & _).
    change (hd false (faults (pop (pop (pop s)))) = false) in Hx. congruence. }
  assert (Hcalm : calm 4 s).
  { apply calm_S; [exact E1|]. apply calm_S; [exact E2|].
    apply calm_S; [exact E3|]. now apply calm_1. }
  destruct (save_inserts dept type content s dn Hd Htn Hcn ltac:(lia) Hcalm Hq)
    as (s' & Hrun & Hent & Hst & _).
  unfold save_department_data in Hrun.
  destruct (Z.eqb_spec dept 0) in Hrun; [contradiction|]. rewrite Ht, Hc in Hrun.
  destruct (Z.ltb_spec 10000 (Py.len content)) in Hrun; [lia|].
  unfold try_except at 1 in Hrun.
  rewrite (bind_ok _ _ _ _ _ (connect_calm 0 _ (calm_1 _ E1))) in Hrun.
  rewrite (bind_ok _ _ _ _ _
             (execute_calm 0 {| closed := false; pending := [] |} _ _ eq_refl
                (calm_1 _ E2))) in Hrun.
  change (q_dept_name dept (pop (pop s))) with (q_dept_name dept s) in Hrun.
  rewrite Hq in Hrun.
  exists s'. eexists. split; [exact Hrun|].
  split; [reflexivity|]. split; [reflexivity|]. split; [exact Hchecks|].
  split; [exact Hcalm|]. split; [exact Hent | exact Hst].
Qed.

(** X2: [save_department_data] is all or nothing.  It returns normally from
    every state and never touches [departments], the responses sent, or the
    counters [connections] and [exports]; a success means the checks passed,
    the department exists and the database answered four times, and then
    exactly one row, with the next free id and the trimmed texts, is at the
    end of [data_entries] and the counter [data_entries] is one higher; a
    failure leaves the table and the counters as they were. *)
Theorem save_all_or_nothing dept type content s :
  exists s' r,
    save_department_data dept type content s = (s', Ok r)
    /\ departments s' = departments s /\ sent s' = sent s
    /\ st_connections (stats s') = st_connections (stats s)
    /\ st_exports (stats s') = st_exports (stats s)
    /\ match r with
       | SaveSuccess id name =>
           id = next_entry_id s /\ q_dept_name dept s = Some name
           /\ checks_pass dept type content /\ calm 4 s
           /\ data_entries s' = data_entries s ++ [new_entry s dept type content]
           /\ st_data_entries (stats s') = st_data_entries (stats s) + 1
       | SaveFailure _ =>
           data_entries s' = data_entries s /\ stats s' = stats s
       end.
Proof.
  destruct (save_department_data_outcome dept type content s)
    as (s' & r & Hrun & Hr).
  exists s', r. split; [exact Hrun|].
  pose proof
    (keeps_save
       (fun x => departments x = departments s /\ sent x = sent s
                 /\ st_connections (stats x) = st_connections (stats s)
                 /\ st_exports (stats x) = st_exports (stats s))
       (env_stable_core (fun d _ st se _ _ =>
          d = departments s /\ se = sent s
          /\ st_connections st = st_connections (stats s)
          /\ st_exports st = st_exports (stats s)))
       ltac:(intros x v H; exact H) ltac:(intros x H; exact H)
       dept type content s
       (conj eq_refl (conj eq_refl (conj eq_refl eq_refl)))) as HF.
  rewrite Hrun in HF. cbn [fst] in HF. destruct HF as (F1 & F2 & F3 & F4).
  repeat (split; [assumption|]).
  destruct r as [id name|message].
  - destruct Hr as (H1 & H2 & H3 & H4 & H5 & H6).
    split; [exact H1|]. split; [exact H2|]. split; [exact H3|].
    split; [exact H4|]. split; [exact H5|]. now rewrite H6.
  - destruct Hr as (H1 & H2 & _). now split.
Qed.

(** X3: the message of a failed [save_department_data] names its cause: one
    of the four checks, in their order; a database that cannot be opened or
    queried ("System error: ..."); a department id that is not in the table
    ("Invalid department ID"); or an insertion or commit that fails
    ("Database error: ..."), after which the row is not in the table. *)
Theorem save_failure_names_its_cause dept type content s s' message :
  save_department_data dept type content s = (s', Ok (SaveFailure message)) ->
  failure_cause dept type content s message
  /\ data_entries s' = data_entries s.
Proof.
  intros Hrun.
  destruct (save_department_data_outcome dept type content s)
    as (s1 & r & Hrun1 & Hr).
  rewrite Hrun in Hrun1. inversion Hrun1; subst s1 r.
  destruct Hr as (H1 & _ & H3). now split.
Qed.

(** X4: [save_department_data] succeeds exactly when the four checks pass,
    the department is in the table, and the database answers the four
    operations up to the commit. *)
Theorem save_succeeds_iff dept type content s :
  (exists id name,
      snd (save_department_data dept type content s) = Ok (SaveSuccess id name))
  <-> (checks_pass dept type content /\ calm 4 s
       /\ exists name, q_dept_name dept s = Some name).
Proof.
  split.
  - intros (id & name & Hrun).
    destruct (save_department_data_outcome dept type content s)
      as (s1 & r & Hrun1 & Hr).
    rewrite Hrun1 in Hrun. cbn [snd] in Hrun. inversion Hrun; subst r.
    destruct Hr as (_ & Hq & Hc & Hcalm & _). eauto.
  - intros ((Hd & Ht & Hc & Hlen) & Hcalm & name & Hq).
    destruct (save_inserts dept type content s name Hd Ht Hc Hlen Hcalm Hq)
      as (s' & Hrun & _).
    exists (next_entry_id s), name. now rewrite Hrun.
Qed.

(** ** The automatic export *)

Section FileFrame.

Variable fn : string.
Variable I : State -> Prop.
Hypothesis I_log : log_stable I.
Hypothesis I_fn :
  forall s m, (forall o, o <> fn -> m !! o = files s !! o) -> I s -> I (set_files m s).

Lemma keeps_connect_f : keeps I sqlite3_connect.
Proof.
  unfold sqlite3_connect. apply keeps_bind.
  - apply keeps_fails, I_log.
  - intros b. apply keeps_if; [apply keeps_raise | apply keeps_ret].
Qed.

Lemma keeps_execute_f {A} conn (q : State -> A) : keeps I (cursor_execute conn q).
Proof.
  unfold cursor_execute. apply keeps_if; [apply keeps_raise|].
  apply keeps_bind; [apply keeps_fails, I_log | intros b].
  apply keeps_if; [apply keeps_raise | apply keeps_gets].
Qed.

Lemma keeps_open_f : keeps I (open_w fn).
Proof.
  unfold open_w. apply keeps_bind; [apply keeps_fails, I_log | intros b].
  apply keeps_if; [apply keeps_raise|].
  apply keeps_modify. intros s Hs. apply I_fn; [|exact Hs].
  intros o Ho. now rewrite lookup_insert_ne by congruence.
Qed.

Lemma keeps_writerow_f row : keeps I (writerow fn row).
Proof.
  apply keeps_modify. intros s Hs. apply I_fn; [|exact Hs].
  intros o Ho. now rewrite lookup_alter_ne by congruence.
Qed.

Lemma keeps_closed_bind {A B} conn (q : State -> A) (k : A -> M B) :
  closed conn = true -> keeps I (bind (cursor_execute conn q) k).
Proof.
  intros Hc s Hs. now rewrite (bind_raise _ _ _ _ _ (execute_closed conn q s Hc)).
Qed.

End FileFrame.

Lemma try_gets {A B} (f : State -> A) (k : A -> M B) h s :
  try_except (bind (gets f) k) h s = try_except (k (f s)) h s.
Proof. reflexivity. Qed.

Lemma export_name_not_latest s : "latest_college_data_export.csv" <> export_name s.
Proof. unfold export_name. simpl. discriminate. Qed.

(** X5: the automatic export never reports success.  Its cursor belongs to
    a connection that is closed before the recent activity is queried, so the
    call returns [None] from every state; the only file it can create or
    change is the one named after the time, so the file
    [latest_college_data_export.csv] is never written; and the tables, the
    counters and the responses are as before. *)
Theorem auto_export_never_succeeds s :
  let s' := fst (auto_export_enhanced_csv s) in
  snd (auto_export_enhanced_csv s) = Ok None
  /\ (forall o, o <> export_name s -> files s' !! o = files s !! o)
  /\ files s' !! "latest_college_data_export.csv"
     = files s !! "latest_college_data_export.csv"
  /\ departments s' = departments s /\ data_entries s' = data_entries s
  /\ stats s' = stats s /\ sent s' = sent s.
Proof.
  intros s'.
  assert (Hfiles : forall o, o <> export_name s -> files s' !! o = files s !! o).
  { set (I := fun x : State =>
                forall o, o <> export_name s -> files x !! o = files s !! o).
    assert (I_log : log_stable I) by (repeat split; intros x v H; exact H).
    assert (I_fn : forall x m,
               (forall o, o <> export_name s -> m !! o = files x !! o) ->
               I x -> I (set_files m x)).
    { intros x m Hm Hx o Ho. simpl. rewrite (Hm o Ho). now apply Hx. }
    assert (HI : I s) by (intros o _; reflexivity).
    change (I s'). subst s'.
    unfold auto_export_enhanced_csv. rewrite try_gets.
    refine (keeps_try_except I _ _ _ _ s HI);
      [|intros e; apply keeps_bind;
        [now apply keeps_log_activity | intros ?; apply keeps_ret]].
    fold (export_name s).
    repeat lazymatch goal with
      | |- keeps _ (bind (cursor_execute (conn_close _) _) _) =>
          apply keeps_closed_bind; reflexivity
      | |- keeps _ (bind _ _) => apply keeps_bind; [|intros ?]
      | |- keeps _ sqlite3_connect => apply keeps_connect_f; exact I_log
      | |- keeps _ (cursor_execute _ _) => apply keeps_execute_f; exact I_log
      | |- keeps _ (gets _) => apply keeps_gets
      | |- keeps _ (open_w _) => apply (keeps_open_f (export_name s)); assumption
      | |- keeps _ (writerow _ _) =>
          apply (keeps_writerow_f (export_name s)); assumption
      | |- keeps _ (for_each _ _) =>
          apply keeps_for_each; intros ?;
          apply (keeps_writerow_f (export_name s)); assumption
      end. }
  split; [now rewrite auto_export_returns_none|].
  split; [exact Hfiles|]. split; [apply Hfiles, export_name_not_latest|].
  apply (keeps_auto_export
           (fun x => departments x = departments s /\ data_entries x = data_entries s
                     /\ stats x = stats s /\ sent x = sent s)
           (env_stable_core (fun d e st se _ _ =>
              d = departments s /\ e = data_entries s /\ st = stats s
              /\ se = sent s)) s).
  repeat split.
Qed.

(** ** The manual export *)











(** ** Invariants of the running server *)

Section ServerInvariant.

Variable I : State -> Prop.
Hypothesis I_env : env_stable I.
Hypothesis I_sent : forall s v, I s -> I (set_sent v s).
Hypothesis I_save : forall dept type content,
  keeps I (save_department_data dept type content).
Hypothesis I_connect : forall s,
  I s -> I (set_stats {| st_connections := st_connections (stats s) + 1;
                         st_data_entries := st_data_entries (stats s);
                         st_exports := st_exports (stats s) |} s).
Hypothesis I_clock : forall s dt ts, I s -> I (set_clock dt ts s).

Lemma keeps_send address j : keeps I (send address j).
Proof. apply keeps_modify. intros s H. now apply I_sent. Qed.

Lemma keeps_log message : keeps I (log_activity message).
Proof. apply keeps_log_activity, I_env. Qed.

Ltac keeps_server :=
  repeat lazymatch goal with
    | |- keeps _ (ret _) => apply keeps_ret
    | |- keeps _ (raise _) => apply keeps_raise
    | |- keeps _ (gets _) => apply keeps_gets
    | |- keeps _ (send _ _) => apply keeps_send
    | |- keeps _ (log_activity _) => apply keeps_log
    | |- keeps _ (save_department_data _ _ _) => apply I_save
    | |- keeps _ (authenticate_department _ _) => apply keeps_authenticate, I_env
    | |- keeps _ (get_recent_entries _) => apply keeps_get_recent, I_env
    | |- keeps _ (export_formatted_report _) => apply keeps_report, I_env
    | |- keeps _ (get_stripped ?k ?f) =>
        unfold get_stripped; destruct (dict_get k f) as [[]|]
    | |- keeps _ (dept_info_id ?i) => unfold dept_info_id; destruct i as [[]|]
    | |- keeps _ (dept_info_name ?i) => unfold dept_info_name; destruct i as [[]|]
    | |- keeps _ (bind _ _) => apply keeps_bind; [|intros ?]
    | |- keeps _ (if _ then _ else _) => apply keeps_if
    | |- keeps _ (match ?x with AuthSuccess _ _ => _ | AuthFailure _ => _ end) =>
        destruct x
    | |- keeps _ (match ?x with SaveSuccess _ _ => _ | SaveFailure _ => _ end) =>
        destruct x
    | |- keeps _ (match ?x with Some _ => _ | None => _ end) => destruct x
    end.

Lemma keeps_dispatch address sess message :
  keeps I (dispatch address sess message).
Proof.
  unfold dispatch. destruct message; try apply keeps_raise. keeps_server.
Qed.

Lemma keeps_iteration address sess r : keeps I (iteration address sess r).
Proof.
  unfold iteration. destruct r as [data| | |]; keeps_server.
  destruct (json_loads data) as [err|message]; keeps_server.
  apply keeps_dispatch.
Qed.

Lemma keeps_thread_turn address sess r : keeps I (thread_turn address sess r).
Proof.
  unfold thread_turn. apply keeps_bind.
  - apply keeps_try_except.
    + apply keeps_bind; [apply keeps_iteration | intros [sess' []]];
        apply keeps_ret.
    + intros e. keeps_server.
  - intros [sess'|]; keeps_server.
Qed.

Lemma keeps_client_loop address sess reads :
  keeps I (client_loop address sess reads).
Proof.
  revert sess. induction reads as [|r reads IH]; intros sess; cbn [client_loop].
  - apply keeps_bind; [apply keeps_iteration | intros ?; apply keeps_ret].
  - apply keeps_bind; [apply keeps_iteration | intros [sess' []]]; cbn [snd fst].
    + apply IH.
    + apply keeps_ret.
Qed.

Lemma keeps_handle_client address arrivals :
  keeps I (handle_client address arrivals).
Proof.
  unfold handle_client.
  apply keeps_bind; [apply keeps_modify; exact I_connect | intros ?].
  apply keeps_bind; [apply keeps_log | intros ?].
  apply keeps_bind; [|intros ?; apply keeps_log].
  apply keeps_try_except; [apply keeps_client_loop | intros e; apply keeps_log].
Qed.

Lemma server_step_keeps srv ev : I (world srv) -> I (world (server_step srv ev)).
Proof.
  intros H. destruct ev as [fd address|fd r|dt ts oracle]; simpl.
  - apply (keeps_bind I _ _ (keeps_modify I _ I_connect)
             (fun _ => keeps_log _) _ H).
  - destruct (threads srv !! fd) as [[address sess]|]; [|exact H].
    pose proof (keeps_thread_turn address sess r _ H) as H'.
    destruct (thread_turn address sess r (world srv)) as [w' [[sess'|]|e]];
      exact H'.
  - apply (proj1 (proj1 I_env)). now apply I_clock.
Qed.

Lemma server_run_keeps evs srv : I (world srv) -> I (world (server_run evs srv)).
Proof.
  revert srv. induction evs as [|ev evs IH]; intros srv H; [exact H|].
  simpl. apply IH. now apply server_step_keeps.
Qed.

End ServerInvariant.

Lemma keeps_save_by_outcome (I : State -> Prop) :
  (forall dept type content s s' r,
      save_department_data dept type content s = (s', Ok r) -> I s -> I s') ->
  forall dept type content, keeps I (save_department_data dept type content).
Proof.
  intros H dept type content s Hs.
  destruct (save_department_data_outcome dept type content s)
    as (s' & r & Hrun & _).
  rewrite Hrun. cbn [fst]. exact (H _ _ _ _ _ _ Hrun Hs).
Qed.

Lemma save_step dept type content s s' r :
  save_department_data dept type content s = (s', Ok r) ->
  departments s' = departments s
  /\ st_connections (stats s') = st_connections (stats s)
  /\ ((data_entries s' = data_entries s /\ stats s' = stats s)
      \/ (data_entries s' = data_entries s ++ [new_entry s dept type content]
          /\ st_data_entries (stats s') = st_data_entries (stats s) + 1)).
Proof.
  intros Hrun.
  destruct (save_department_data_outcome dept type content s)
    as (s1 & r1 & Hrun1 & Hr).
  rewrite Hrun in Hrun1. inversion Hrun1; subst s1 r1.
  pose proof
    (keeps_save (fun x => departments x = departments s)
       (env_stable_core (fun d _ _ _ _ _ => d = departments s))
       ltac:(intros x v H; exact H) ltac:(intros x H; exact H)
       dept type content s eq_refl) as Hd.
  rewrite Hrun in Hd. cbn [fst] in Hd.
  split; [exact Hd|].
  destruct r as [id name|m].
  - destruct Hr as (_ & _ & _ & _ & He & Hs). rewrite Hs. cbn.
    split; [reflexivity|]. right. split; [exact He | reflexivity].
  - destruct Hr as (He & Hs & _). rewrite Hs.
    split; [reflexivity|]. left. now split.
Qed.

Lemma next_entry_id_fresh s e :
  In e (data_entries s) -> entry_id e < next_entry_id s.
Proof.
  unfold next_entry_id. generalize (data_entries s) as l.
  induction l as [|x l IH]; intros Hin; [contradiction|].
  simpl. destruct Hin as [->|Hin]; [lia|]. specialize (IH Hin). lia.
Qed.

(** X7: the server never writes the table [departments]: after any events,
    in any interleaving, it is the table the server started with. *)
Theorem departments_are_read_only evs srv :
  departments (world (server_run evs srv)) = departments (world srv).
Proof.
  apply (server_run_keeps (fun s => departments s = departments (world srv))).
  - apply (env_stable_core (fun d _ _ _ _ _ => d = departments (world srv))).
  - intros s v H. exact H.
  - apply keeps_save_by_outcome. intros dept type content s s' r Hrun Hs.
    destruct (save_step _ _ _ _ _ _ Hrun) as (Hd & _). congruence.
  - intros s H. exact H.
  - intros s dt ts H. exact H.
  - reflexivity.
Qed.

(** X8: entries are only ever appended: after any events the table
    [data_entries] starts with the rows it had, unchanged and in order. *)
Theorem entries_are_append_only evs srv :
  exists more,
    data_entries (world (server_run evs srv)) = data_entries (world srv) ++ more.
Proof.
  apply (server_run_keeps
           (fun s => exists more, data_entries s = data_entries (world srv) ++ more)).
  - apply (env_stable_core
             (fun _ e _ _ _ _ => exists more, e = data_entries (world srv) ++ more)).
  - intros s v H. exact H.
  - apply keeps_save_by_outcome. intros dept type content s s' r Hrun [more Hs].
    destruct (save_step _ _ _ _ _ _ Hrun) as (_ & _ & [[He _]|[He _]]).
    + exists more. congruence.
    + exists (more ++ [new_entry s dept type content]).
      now rewrite He, Hs, app_assoc.
  - intros s H. exact H.
  - intros s dt ts H. exact H.
  - exists []. now rewrite app_nil_r.
Qed.

(** X9: entry ids never collide: if the ids in [data_entries] are distinct
    when the server starts, they are distinct after any events, whichever
    sessions submitted in whichever order. *)
Theorem entry_ids_stay_distinct evs srv :
  NoDup (List.map entry_id (data_entries (world srv))) ->
  NoDup (List.map entry_id (data_entries (world (server_run evs srv)))).
Proof.
  apply (server_run_keeps
           (fun s => NoDup (List.map entry_id (data_entries s)))).
  - apply (env_stable_core (fun _ e _ _ _ _ => NoDup (List.map entry_id e))).
  - intros s v H. exact H.
  - apply keeps_save_by_outcome. intros dept type content s s' r Hrun Hs.
    destruct (save_step _ _ _ _ _ _ Hrun) as (_ & _ & [[He _]|[He _]]).
    + now rewrite He.
    + rewrite He, map_app. apply NoDup_app. split; [exact Hs|]. split.
      * intros x Hx Hx'. apply list_elem_of_In in Hx.
        apply in_map_iff in Hx. destruct Hx as (e & <- & Hin).
        apply next_entry_id_fresh in Hin.
        simpl in Hx'. apply list_elem_of_In in Hx'. destruct Hx' as [Heq|[]].
        lia.
      * simpl. apply NoDup_singleton.
  - intros s H. exact H.
  - intros s dt ts H. exact H.
Qed.

(** X10: the counter [data_entries] counts the rows inserted since the
    server was created: after any events it equals the number of rows added
    to the table. *)
Theorem entry_counter_counts_inserted_rows evs w :
  let srv := server_run evs (boot w) in
  Z.of_nat (length (data_entries (world srv)))
  = Z.of_nat (length (data_entries w)) + st_data_entries (stats (world srv)).
Proof.
  apply (server_run_keeps
           (fun s => Z.of_nat (length (data_entries s))
                     = Z.of_nat (length (data_entries w))
                       + st_data_entries (stats s))).
  - apply (env_stable_core
             (fun _ e st _ _ _ =>
                Z.of_nat (length e)
                = Z.of_nat (length (data_entries w)) + st_data_entries st)).
  - intros s v H. exact H.
  - apply keeps_save_by_outcome. intros dept type content s s' r Hrun Hs.
    destruct (save_step _ _ _ _ _ _ Hrun) as (_ & _ & [[He Hst]|[He Hst]]).
    + now rewrite He, Hst.
    + rewrite He, Hst, length_app. simpl length. lia.
  - intros s H. exact H.
  - intros s dt ts H. exact H.
  - simpl. lia.
Qed.

Lemma turn_keeps_connections srv fd r :
  st_connections (stats (world (server_step srv (Turn fd r))))
  = st_connections (stats (world srv)).
Proof.
  simpl. destruct (threads srv !! fd) as [[address sess]|]; [|reflexivity].
  set (I := fun s => st_connections (stats s) = st_connections (stats (world srv))).
  assert (Henv : env_stable I).
  { apply (env_stable_core (fun _ _ st _ _ _ =>
             st_connections st = st_connections (stats (world srv)))). }
  assert (Hsent : forall s v, I s -> I (set_sent v s)).
  { intros s v H. exact H. }
  assert (Hsave : forall dept type content,
             keeps I (save_department_data dept type content)).
  { apply keeps_save_by_outcome. intros dept type content s s' x Hrun Hs.
    destruct (save_step _ _ _ _ _ _ Hrun) as (_ & Hc & _).
    unfold I in *. congruence. }
  pose proof (keeps_thread_turn I Henv Hsent Hsave address sess r (world srv) eq_refl)
    as H.
  destruct (thread_turn address sess r (world srv)) as [w' [[sess'|]|e]]; exact H.
Qed.

(** X11: the counter [connections] counts the connections accepted: after
    any events it has grown by the number of [Accept] events, whatever the
    clients did afterwards. *)
Theorem connection_counter_counts_accepts evs srv :
  st_connections (stats (world (server_run evs srv)))
  = st_connections (stats (world srv)) + accepted evs.
Proof.
  revert srv. induction evs as [|ev evs IH]; intros srv.
  - unfold accepted. simpl. lia.
  - cbn [server_run fold_left]. fold (server_run evs (server_step srv ev)).
    rewrite IH. unfold accepted.
    destruct ev as [fd address|fd r|dt ts oracle].
    + cbn [List.filter length]. rewrite Nat2Z.inj_succ.
      assert (H : st_connections (stats (world (server_step srv (Accept fd address))))
                  = st_connections (stats (world srv)) + 1).
      { cbn [server_step world]. unfold thread_start.
        rewrite (bind_ok _ _ _ _ _ eq_refl).
        match goal with
        | |- context [log_activity ?m ?x] =>
            destruct (log_activity_frame m x) as (_ & _ & Hs & _)
        end.
        cbv zeta in Hs. now rewrite Hs. }
      rewrite H. lia.
    + rewrite turn_keeps_connections. cbn [List.filter]. lia.
    + cbn [List.filter]. reflexivity.
Qed.

(** ** Triples for the handler *)

Lemma bind_inv {A B} (m : M A) (f : A -> M B) s s' b :
  bind m f s = (s', Ok b) ->
  exists s1 a, m s = (s1, Ok a) /\ f a s1 = (s', Ok b).
Proof.
  unfold bind. destruct (m s) as [s1 [a|e]]; intros H; [eauto | discriminate].
Qed.

Lemma triple_ret {A} (P : State -> Prop) (a : A) Q :
  (forall s, P s -> Q (Ok a) s) -> triple P (ret a) Q.
Proof. intros H s s' x HP Hrun. inversion Hrun; subst. now apply H. Qed.

Lemma triple_raise {A} (P : State -> Prop) e (Q : result A -> State -> Prop) :
  (forall s, P s -> Q (Raise e) s) -> triple P (raise e) Q.
Proof. intros H s s' x HP Hrun. inversion Hrun; subst. now apply H. Qed.

Lemma triple_bind {A B} (P : State -> Prop) (m : M A) (f : A -> M B) R Q :
  triple P m R -> (forall e s, R (Raise e) s -> Q (Raise e) s) ->
  (forall a, triple (R (Ok a)) (f a) Q) -> triple P (bind m f) Q.
Proof.
  intros Hm He Hf s s' r HP Hrun. unfold bind in Hrun.
  specialize (Hm s). destruct (m s) as [s1 [a|e]].
  - exact (Hf a s1 s' r (Hm _ _ HP eq_refl) Hrun).
  - inversion Hrun; subst. exact (He _ _ (Hm _ _ HP eq_refl)).
Qed.

Lemma triple_keeps {A} (I : State -> Prop) (m : M A) :
  keeps I m -> triple I m (fun _ => I).
Proof. intros Hk s s' a HI Hrun. specialize (Hk s HI). now rewrite Hrun in Hk. Qed.

Lemma triple_bind_keeps {A B} (I : State -> Prop) (m : M A) (f : A -> M B) Q :
  keeps I m -> (forall e s, I s -> Q (Raise e) s) ->
  (forall a, triple I (f a) Q) -> triple I (bind m f) Q.
Proof.
  intros Hm He Hf. apply (triple_bind I m f (fun _ => I) Q); [|exact He|exact Hf].
  now apply triple_keeps.
Qed.

Lemma triple_if {A} (P : State -> Prop) (b : bool) (m1 m2 : M A) Q :
  (b = true -> triple P m1 Q) -> (b = false -> triple P m2 Q) ->
  triple P (if b then m1 else m2) Q.
Proof. destruct b; auto. Qed.

Lemma keeps_get_stripped_any I key fields : keeps I (get_stripped key fields).
Proof.
  unfold get_stripped. destruct (dict_get key fields) as [[]|];
    first [apply keeps_ret | apply keeps_raise].
Qed.

Lemma q_credentials_row e h s id name :
  q_credentials e h s = Some (id, name) ->
  exists d, In d (departments s) /\ id = dept_id d /\ name = dept_name d.
Proof.
  unfold q_credentials.
  destruct (List.find _ (departments s)) as [d|] eqn:E; [|discriminate].
  intros H. inversion H; subst. apply find_some in E. exists d. tauto.
Qed.

Section DispatchCases.

Variable I : State -> Prop.
Variable D : list Department.
Hypothesis I_env : env_stable I.
Hypothesis I_save : forall dept type content,
  keeps I (save_department_data dept type content).
Hypothesis I_departments : forall s, I s -> departments s = D.

Variable address : Address.
Variable sess : Session.
Variable Q : result (Session * control) -> State -> Prop.

Hypothesis Q_reply : forall s reply,
  I s -> Q (Ok (sess, Continue)) (set_sent (sent s ++ [(address, reply)]) s).
Hypothesis Q_break : forall s, I s -> Q (Ok (sess, Break)) s.
Hypothesis Q_raise : forall e s, I s -> Q (Raise e) s.
Hypothesis Q_login : forall s d reply,
  I s -> authenticated sess = false -> In d D ->
  Q (Ok (bound_to d, Continue)) (set_sent (sent s ++ [(address, reply)]) s).

Lemma triple_reply reply :
  triple I (send address reply ;; ret (sess, Continue)) Q.
Proof.
  intros s s' x HI Hrun. inversion Hrun; subst. now apply Q_reply.
Qed.

Lemma triple_authenticate e p :
  triple I (authenticate_department e p)
    (fun r s' => I s' /\ match r with
                         | Ok (AuthSuccess id name) =>
                             exists d, In d D /\ id = dept_id d /\ name = dept_name d
                         | Ok (AuthFailure _) => True
                         | Raise _ => False
                         end).
Proof.
  intros s s' r HI Hrun. split.
  - pose proof (keeps_authenticate I I_env e p s HI) as H.
    now rewrite Hrun in H.
  - destruct (authenticate_result e p s) as (r' & Hrun' & Hr).
    rewrite Hrun in Hrun'. inversion Hrun'; subst r.
    destruct Hr as [->|[[-> _]|(id & name & -> & Hq)]]; try exact Logic.I.
    rewrite <- (I_departments s HI). now apply q_credentials_row in Hq.
Qed.

Ltac triple_handler :=
  repeat lazymatch goal with
    | |- triple _ (ret (_, Break)) _ => apply triple_ret; exact Q_break
    | |- triple _ (raise _) _ => apply triple_raise; apply Q_raise
    | |- triple _ (bind (send _ _) _) _ => apply triple_reply
    | |- triple _ (bind (get_stripped _ _) _) _ =>
        apply triple_bind_keeps;
        [apply keeps_get_stripped_any | exact Q_raise | intros ?]
    | |- triple _ (bind (log_activity _) _) _ =>
        apply triple_bind_keeps;
        [apply keeps_log_activity, I_env | exact Q_raise | intros ?]
    | |- triple _ (bind (save_department_data _ _ _) _) _ =>
        apply triple_bind_keeps; [apply I_save | exact Q_raise | intros ?]
    | |- triple _ (bind (get_recent_entries _) _) _ =>
        apply triple_bind_keeps;
        [apply keeps_get_recent, I_env | exact Q_raise | intros ?]
    | |- triple _ (bind (export_formatted_report _) _) _ =>
        apply triple_bind_keeps;
        [apply keeps_report, I_env | exact Q_raise | intros ?]
    | |- triple _ (bind (gets _) _) _ =>
        apply triple_bind_keeps; [apply keeps_gets | exact Q_raise | intros ?]
    | |- triple _ (bind (dept_info_id ?i) _) _ =>
        apply triple_bind_keeps;
        [unfold dept_info_id; destruct i as [[]|];
         first [apply keeps_ret | apply keeps_raise] | exact Q_raise | intros ?]
    | |- triple _ (bind (dept_info_name ?i) _) _ =>
        apply triple_bind_keeps;
        [unfold dept_info_name; destruct i as [[]|];
         first [apply keeps_ret | apply keeps_raise] | exact Q_raise | intros ?]
    | |- triple _ (if _ then _ else _) _ => apply triple_if; intros ?
    | |- triple _ (match ?x with SaveSuccess _ _ => _ | SaveFailure _ => _ end) _ =>
        destruct x
    | |- triple _ (match ?x with Some _ => _ | None => _ end) _ => destruct x
    end.

Lemma triple_dispatch message : triple I (dispatch address sess message) Q.
Proof.
  unfold dispatch. destruct message; try (apply triple_raise; apply Q_raise).
  apply triple_if; intros Hlogin; [|triple_handler].
  apply andb_prop in Hlogin as [_ Hnew]. apply negb_true_iff in Hnew.
  apply triple_bind_keeps;
    [apply keeps_get_stripped_any | exact Q_raise | intros e].
  apply triple_bind_keeps;
    [apply keeps_get_stripped_any | exact Q_raise | intros p].
  apply triple_if; intros _; [apply triple_reply|].
  eapply triple_bind; [apply triple_authenticate| |].
  - intros e0 s [_ []].
  - intros [id name|m]; cbv beta.
    + intros s s' x (HI & d & Hd & -> & ->) Hrun. inversion Hrun; subst.
      now apply Q_login.
    + intros s s' x (HI & _) Hrun. inversion Hrun; subst. now apply Q_reply.
Qed.

Lemma triple_iteration r : triple I (iteration address sess r) Q.
Proof.
  unfold iteration. destruct r as [data| | |].
  - apply triple_if; intros _; [apply triple_ret; exact Q_break|].
    destruct (json_loads data) as [err|message];
      [apply triple_reply | apply triple_dispatch].
  - apply triple_bind_keeps;
      [apply keeps_log_activity, I_env | exact Q_raise | intros ?].
    apply triple_ret; exact Q_break.
  - apply triple_bind_keeps;
      [apply keeps_log_activity, I_env | exact Q_raise | intros ?].
    apply triple_ret; exact Q_break.
  - apply triple_raise; apply Q_raise.
Qed.

End DispatchCases.

Lemma keeps_save_departments D dept type content :
  keeps (fun s => departments s = D) (save_department_data dept type content).
Proof.
  apply keeps_save_by_outcome. intros d t c s s' r Hrun Hs.
  destruct (save_step _ _ _ _ _ _ Hrun) as (Hd & _). congruence.
Qed.

Lemma iteration_session address sess r s s' sess' c :
  iteration address sess r s = (s', Ok (sess', c)) ->
  sess' = sess
  \/ (authenticated sess = false
      /\ exists d, In d (departments s) /\ sess' = bound_to d).
Proof.
  intros Hrun.
  apply (triple_iteration (fun x => departments x = departments s) (departments s)
           (env_stable_core (fun d _ _ _ _ _ => d = departments s))
           (keeps_save_departments (departments s))
           (fun x H => H)
           address sess
           (fun x _ =>
              match x with
              | Ok x =>
                  fst x = sess
                  \/ (authenticated sess = false
                      /\ exists d, In d (departments s) /\ fst x = bound_to d)
              | Raise _ => True
              end)
           ltac:(intros; now left) ltac:(intros; now left)
           ltac:(intros; exact Logic.I)
           ltac:(intros x d reply _ Hnew Hd; right; split; [exact Hnew|];
                 exists d; now split)
           r s s' (Ok (sess', c)) eq_refl Hrun).
Qed.

Lemma keeps_save_quiet v D dept type content :
  keeps (fun s => sent s = v /\ departments s = D)
        (save_department_data dept type content).
Proof.
  apply (keeps_save (fun s => sent s = v /\ departments s = D)
           (env_stable_core (fun d _ _ se _ _ => se = v /\ d = D))).
  - intros s x H. exact H.
  - intros s H. exact H.
Qed.

(** X12: a session only moves forward.  One turn of the handler's loop
    leaves the session variables as they are, unless the session was not
    logged in and the turn logged it in as a department of the table.  So a
    session that is logged in stays with its department: neither a second
    [login] nor any other message changes or clears it. *)
Theorem session_only_moves_forward address sess r s s' sess' c :
  iteration address sess r s = (s', Ok (sess', c)) ->
  (authenticated sess = true -> sess' = sess)
  /\ (sess' <> sess ->
      exists d, In d (departments s)
                /\ authenticated sess = false /\ sess' = bound_to d).
Proof.
  intros Hrun.
  destruct (iteration_session _ _ _ _ _ _ _ Hrun) as [->|(Hnew & d & Hd & ->)].
  - split; [reflexivity|]. intros H. now elim H.
  - split; [rewrite Hnew; discriminate|]. intros _. now exists d.
Qed.

Lemma thread_turn_continues address sess r w w' sess' :
  thread_turn address sess r w = (w', Ok (Some sess')) ->
  iteration address sess r w = (w', Ok (sess', Continue)).
Proof.
  unfold thread_turn. intros H. apply bind_inv in H as (s1 & next & Ht & H).
  destruct next as [x|].
  - inversion H; subst. unfold try_except in Ht. unfold bind at 1 in Ht.
    destruct (iteration address sess r w) as [s2 [[y c]|e]].
    + cbn [snd fst] in Ht. destruct c; inversion Ht; subst. reflexivity.
    + rewrite log_then_run in Ht. discriminate.
  - rewrite log_then_run in H. discriminate.
Qed.

Lemma departments_step srv ev :
  departments (world (server_step srv ev)) = departments (world srv).
Proof.
  apply (server_step_keeps (fun s => departments s = departments (world srv))).
  - apply (env_stable_core (fun d _ _ _ _ _ => d = departments (world srv))).
  - intros s v H. exact H.
  - apply keeps_save_departments.
  - intros s H. exact H.
  - intros s dt ts H. exact H.
  - reflexivity.
Qed.

Lemma sessions_step D srv ev :
  departments (world srv) = D ->
  (forall fd address sess,
      threads srv !! fd = Some (address, sess) -> session_bound D sess) ->
  forall fd address sess,
    threads (server_step srv ev) !! fd = Some (address, sess) ->
    session_bound D sess.
Proof.
  intros HD Hall fd address sess.
  destruct ev as [fd' address'|fd' r|dt ts oracle]; cbn [server_step].
  - cbn [threads]. intros H. apply lookup_insert_Some in H.
    destruct H as [[_ H]|[_ H]]; [|now apply (Hall fd address)].
    inversion H; subst. now left.
  - destruct (threads srv !! fd') as [[a0 sess0]|] eqn:Hfd; [|apply Hall].
    destruct (thread_turn a0 sess0 r (world srv)) as [w' [[sess'|]|e]] eqn:Ht;
      cbn [threads]; intros H.
    + apply lookup_insert_Some in H.
      destruct H as [[_ H]|[_ H]]; [|now apply (Hall fd address)].
      inversion H; subst.
      apply thread_turn_continues in Ht.
      destruct (iteration_session _ _ _ _ _ _ _ Ht) as [->|(_ & d & Hd & ->)].
      * now apply (Hall fd' address).
      * right. now exists d.
    + apply lookup_delete_Some in H. now apply (Hall fd address).
    + apply lookup_delete_Some in H. now apply (Hall fd address).
  - apply Hall.
Qed.

(** X13: every session of the running server is either not logged in or
    logged in as a department of the table: after any events, in any
    interleaving of the client threads, the session variables of each thread
    are those of a new session or those of a successful login as one of the
    departments.  In particular an authenticated session always carries its
    department's id and name. *)
Theorem sessions_stay_bound evs w fd address sess :
  threads (server_run evs (boot w)) !! fd = Some (address, sess) ->
  session_bound (departments w) sess.
Proof.
  assert (H : forall srv,
             departments (world srv) = departments w ->
             (forall fd address sess,
                 threads srv !! fd = Some (address, sess) ->
                 session_bound (departments w) sess) ->
             forall fd address sess,
               threads (server_run evs srv) !! fd = Some (address, sess) ->
               session_bound (departments w) sess).
  { induction evs as [|ev evs IH]; intros srv HD Hall; [exact Hall|].
    cbn [server_run fold_left]. fold (server_run evs (server_step srv ev)).
    apply IH.
    - now rewrite departments_step.
    - now apply sessions_step. }
  apply H; [reflexivity|].
  intros fd' a' sess' Hl. cbn [boot threads] in Hl.
  rewrite lookup_empty in Hl. discriminate.
Qed.

(** X14: one reply per read, and only to the client that wrote.  A turn of
    the handler's loop that goes on has sent exactly one message, to its own
    client; a turn that leaves the loop, by [break] or by an exception, has
    sent nothing. *)
Theorem every_read_gets_one_reply address sess r s :
  exists s' x,
    iteration address sess r s = (s', x)
    /\ match x with
       | Ok (_, Continue) => exists reply, sent s' = sent s ++ [(address, reply)]
       | Ok (_, Break) | Raise _ => sent s' = sent s
       end.
Proof.
  destruct (iteration address sess r s) as [s' x] eqn:Hrun.
  exists s', x. split; [reflexivity|].
  apply (triple_iteration
           (fun y => sent y = sent s /\ departments y = departments s)
           (departments s)
           (env_stable_core (fun d _ _ se _ _ => se = sent s /\ d = departments s))
           (keeps_save_quiet (sent s) (departments s))
           (fun y H => proj2 H)
           address sess
           (fun x s' =>
              match x with
              | Ok (_, Continue) =>
                  exists reply, sent s' = sent s ++ [(address, reply)]
              | Ok (_, Break) | Raise _ => sent s' = sent s
              end)
           ltac:(intros y reply [Hy _]; exists reply; cbn; now rewrite Hy)
           ltac:(intros y [Hy _]; exact Hy)
           ltac:(intros e y [Hy _]; exact Hy)
           ltac:(intros y d reply [Hy _] _ _; exists reply; cbn; now rewrite Hy)
           r s s' x (conj eq_refl eq_refl) Hrun).
Qed.

Lemma run_never_raises {A} (m : M A) s :
  never_raises m -> exists s' a, m s = (s', Ok a).
Proof.
  intros H. destruct (never_raises_run m s H) as [a Ha]. eauto.
Qed.

(** X15: [handle_client] always comes to its end.  Whatever the client
    sends (text that is not JSON, JSON that is not an object, bytes that are
    not UTF-8, nothing at all) and whatever the database does, the handler
    returns normally, has counted one connection, and the last line it
    prints is the closing line of its [finally]. *)
Theorem handle_client_always_closes address arrivals s :
  exists s',
    handle_client address arrivals s = (s', Ok tt)
    /\ st_connections (stats s') = st_connections (stats s) + 1
    /\ departments s' = departments s
    /\ last (stdout s')
       = Some (log_line s ("Connection with " +:+ address_str address +:+ " closed")).
Proof.
  set (I := fun x : State =>
              now x = now s /\ departments x = departments s
              /\ st_connections (stats x) = st_connections (stats s) + 1).
  assert (Henv : env_stable I).
  { apply (env_stable_core
             (fun d _ st _ n _ =>
                n = now s /\ d = departments s
                /\ st_connections st = st_connections (stats s) + 1)). }
  assert (Hsent : forall x v, I x -> I (set_sent v x)).
  { intros x v H. exact H. }
  assert (Hsave : forall dept type content,
             keeps I (save_department_data dept type content)).
  { apply (keeps_save I Henv).
    - intros x v H. exact H.
    - intros x H. exact H. }
  unfold handle_client. rewrite (bind_ok _ _ _ _ _ eq_refl).
  match goal with
  | |- context [bind (log_activity ?m) _ ?x] =>
      set (s1 := x);
      rewrite (bind_ok _ _ _ _ _ (log_activity_run m s1));
      pose proof (keeps_log_activity I m (proj1 Henv) s1
                    (conj eq_refl (conj eq_refl eq_refl))) as H2;
      set (s2 := fst (log_activity m s1)) in *
  end.
  match goal with
  | |- context [bind (try_except ?m ?h) _ s2] =>
      destruct (run_never_raises (try_except m h) s2
                  (never_raises_try m h
                     (fun e => log_activity_never_raises _))) as (s3 & [] & H3);
      pose proof (keeps_try_except I m h
                    (keeps_client_loop I Henv Hsent Hsave _ _ _)
                    (fun e => keeps_log_activity I _ (proj1 Henv)) s2 H2) as H3';
      rewrite H3 in H3'; cbn [fst] in H3';
      rewrite (bind_ok _ _ _ _ _ H3)
  end.
  match goal with
  | |- context [log_activity ?m s3] =>
      exists (fst (log_activity m s3)); split; [apply log_activity_run|];
      pose proof (keeps_log_activity I m (proj1 Henv) s3 H3') as H4;
      pose proof (log_activity_prints m s3) as Hp
  end.
  destruct H4 as (_ & Hd & Hc), H3' as (Hn & _).
  split; [exact Hc|]. split; [exact Hd|].
  rewrite Hp, last_snoc. unfold log_line. now rewrite Hn.
Qed.

Lemma dispatch_non_object address sess message s :
  (forall fields, message <> JObj fields) ->
  exists detail, dispatch address sess message s = (s, Raise (AttributeError detail)).
Proof.
  intros H. destruct message as [| | | | |fields]; try (eexists; reflexivity).
  now elim (H fields).
Qed.

(** X16: a message that is JSON but not an object ends the connection
    without an answer.  When a read parses to a number, a string, an array,
    [true], [false] or [null], [message.get] raises, the outer handler logs
    the error, the [finally] logs the closing of the connection, and the
    thread ends: nothing is sent to the client and no entry is stored. *)
Theorem non_object_message_ends_session address sess data message s :
  Py.is_empty data = false ->
  json_loads data = inr message ->
  (forall fields, message <> JObj fields) ->
  exists s' detail,
    thread_turn address sess (RecvData data) s = (s', Ok None)
    /\ sent s' = sent s /\ data_entries s' = data_entries s
    /\ departments s' = departments s /\ stats s' = stats s
    /\ stdout s'
       = stdout s
         ++ [log_line s ("Client handler error for " +:+ address_str address
                         +:+ ": " +:+ detail);
             log_line s ("Connection with " +:+ address_str address +:+ " closed")].
Proof.
  intros Hne Hload Hobj.
  destruct (dispatch_non_object address sess message s Hobj) as [detail Hd].
  assert (Hit : iteration address sess (RecvData data) s
                = (s, Raise (AttributeError detail))).
  { unfold iteration. now rewrite Hne, Hload. }
  unfold thread_turn.
  match goal with
  | |- context [try_except ?m ?h] =>
      assert (Htry : try_except m h s
                     = (fst (log_activity
                               ("Client handler error for " +:+ address_str address
                                +:+ ": " +:+ detail) s), Ok None))
  end.
  { rewrite (try_raise _ _ _ _ _ (bind_raise _ _ _ _ _ Hit)).
    apply log_then_run. }
  rewrite (bind_ok _ _ _ _ _ Htry). rewrite log_then_run.
  match goal with
  | |- context [log_activity ?m2 (fst (log_activity ?m1 s))] =>
      destruct (log_activity_frame m1 s) as (Hd1 & He1 & Hs1 & Hn1 & Hw1 & _ & Ho1);
      destruct (log_activity_frame m2 (fst (log_activity m1 s)))
        as (Hd2 & He2 & Hs2 & Hn2 & Hw2 & _ & Ho2)
  end.
  cbv zeta in *. eexists. exists detail. split; [reflexivity|].
  split; [congruence|]. split; [congruence|]. split; [congruence|].
  split; [congruence|].
  rewrite Ho2, Ho1, Hw1, <- app_assoc. reflexivity.
Qed.

Lemma get_recent_entries_fault limit s :
  ~ calm 2 s ->
  exists s' detail,
    get_recent_entries limit s = (s', Ok [])
    /\ sent s' = sent s /\ data_entries s' = data_entries s
    /\ departments s' = departments s /\ stats s' = stats s
    /\ stdout s' = stdout s ++ [log_line s ("Error getting recent entries: " +:+ detail)].
Proof.
  intros Hn.
  assert (Hlog : forall m x,
            sent x = sent s /\ data_entries x = data_entries s
            /\ departments x = departments s /\ stats x = stats s
            /\ stdout x = stdout s /\ now x = now s ->
            exists s', (log_activity m ;; ret ([] : list EntrySummary)) x = (s', Ok [])
              /\ sent s' = sent s /\ data_entries s' = data_entries s
              /\ departments s' = departments s /\ stats s' = stats s
              /\ stdout s' = stdout s ++ [log_line s m]).
  { intros m x (X1 & X2 & X3 & X4 & X5 & X6).
    exists (fst (log_activity m x)). split; [apply log_then_run|].
    destruct (log_activity_frame m x) as (Hd & He & Hs & Hse & Hw & _ & Ho).
    cbv zeta in *.
    split; [congruence|]. split; [congruence|]. split; [congruence|].
    split; [congruence|]. unfold log_line. rewrite Ho. congruence. }
  unfold get_recent_entries, try_except.
  apply not_calm in Hn. destruct Hn as [Hf|[Hc Hn]].
  - rewrite (bind_raise _ _ _ _ _ (connect_fault _ Hf)).
    destruct (Hlog ("Error getting recent entries: " +:+ "unable to open database file")
                (pop s)) as (s' & H); [repeat split|].
    exists s', "unable to open database file". exact H.
  - rewrite (bind_ok _ _ _ _ _ (connect_calm _ _ Hc)).
    assert (Hf : hd false (faults (pop s)) = true).
    { destruct (hd false (faults (pop s))) eqn:E; [reflexivity|].
      elim Hn. now apply calm_1. }
    rewrite (bind_raise _ _ _ _ _
               (execute_fault {| closed := false; pending := [] |} _ _ eq_refl Hf)).
    destruct (Hlog ("Error getting recent entries: " +:+ "database is locked")
                (pop (pop s))) as (s' & H); [repeat split|].
    exists s', "database is locked". exact H.
Qed.

(** X17: [get_recent] hides a database failure.  When the connection or the
    query fails, [get_recent_entries] logs the error and returns the empty
    list, and the handler answers with status [success] and no data: the
    client cannot tell a failed query from an empty table. *)
Theorem get_recent_hides_database_errors address sess fields s :
  authenticated sess = true ->
  dict_get "action" fields = Some (JStr "get_recent") ->
  ~ calm 2 s ->
  exists s' detail,
    dispatch address sess (JObj fields) s = (s', Ok (sess, Continue))
    /\ sent s'
       = sent s ++ [(address, JObj [("status", JStr "success"); ("data", JArr [])])]
    /\ stdout s'
       = stdout s ++ [log_line s ("Error getting recent entries: " +:+ detail)]
    /\ data_entries s' = data_entries s /\ departments s' = departments s
    /\ stats s' = stats s.
Proof.
  intros Hauth Hact Hn.
  destruct (get_recent_entries_fault 10 s Hn)
    as (s1 & detail & Hrun & Hse & He & Hd & Hst & Ho).
  eexists. exists detail. split.
  - unfold dispatch. rewrite Hact, Hauth. simpl.
    rewrite (bind_ok _ _ _ _ _ Hrun). reflexivity.
  - cbn. rewrite Hse. repeat split; assumption.
Qed.

(** X18: what [authenticate_department] returns, in every case.  It never
    raises and never changes the tables, the counters or what was sent.
    When the database answers, the result is the row whose email and
    password hash both match, or "Invalid credentials"; when the connection
    or the query fails, it is "Authentication system error", whatever the
    credentials. *)
Theorem authenticate_department_outcome e p s :
  exists s' r,
    authenticate_department e p s = (s', Ok r)
    /\ departments s' = departments s /\ data_entries s' = data_entries s
    /\ stats s' = stats s /\ sent s' = sent s
    /\ (calm 2 s ->
        r = match q_credentials e (sha256 p) s with
            | Some (id, name) => AuthSuccess id name
            | None => AuthFailure "Invalid credentials"
            end)
    /\ (~ calm 2 s -> r = AuthFailure "Authentication system error").
Proof.
  destruct (authenticate_result e p s) as (r & Hrun & _).
  exists (fst (authenticate_department e p s)), r. split; [exact Hrun|].
  pose proof
    (keeps_authenticate
       (fun x => departments x = departments s /\ data_entries x = data_entries s
                 /\ stats x = stats s /\ sent x = sent s)
       (env_stable_core (fun d en st se _ _ =>
          d = departments s /\ en = data_entries s /\ st = stats s /\ se = sent s))
       e p s (conj eq_refl (conj eq_refl (conj eq_refl eq_refl))))
    as (Hd & He & Hst & Hse).
  split; [exact Hd|]. split; [exact He|]. split; [exact Hst|]. split; [exact Hse|].
  split.
  - intros Hc. rewrite (authenticate_calm e p s Hc) in Hrun.
    destruct (q_credentials e (sha256 p) s) as [[id name]|];
      inversion Hrun; reflexivity.
  - intros Hn. revert Hrun. unfold authenticate_department, try_except.
    apply not_calm in Hn. destruct Hn as [Hf|[Hc Hn]].
    + rewrite (bind_raise _ _ _ _ _ (connect_fault _ Hf)).
      rewrite log_then_run. intros H. now inversion H.
    + rewrite (bind_ok _ _ _ _ _ (connect_calm _ _ Hc)).
      assert (Hf : hd false (faults (pop s)) = true).
      { destruct (hd false (faults (pop s))) eqn:E; [reflexivity|].
        elim Hn. now apply calm_1. }
      rewrite (bind_raise _ _ _ _ _
                 (execute_fault {| closed := false; pending := [] |} _ _ eq_refl Hf)).
      rewrite log_then_run. intros H. now inversion H.
Qed.

(** * The setup script: [1_setup_database.py] *)

Lemma unique_conflict_app t more name mail :
  unique_conflict t name mail = true ->
  unique_conflict (t ++ more) name mail = true.
Proof.
  unfold unique_conflict. rewrite existsb_app. intros ->. reflexivity.
Qed.

Lemma insert_department_grows hash t row :
  exists more, insert_department hash t row = t ++ more.
Proof.
  destruct row as [[name mail] password]. unfold insert_department.
  destruct (unique_conflict t name mail).
  - exists []. now rewrite app_nil_r.
  - eexists. reflexivity.
Qed.

Lemma insert_department_conflict hash t name mail password :
  unique_conflict (insert_department hash t (name, mail, password)) name mail = true.
Proof.
  unfold insert_department.
  destruct (unique_conflict t name mail) eqn:E; [exact E|].
  unfold unique_conflict. rewrite existsb_app. cbn.
  now rewrite String.eqb_refl, orb_true_r.
Qed.

Lemma seed_table_grows hash rows t :
  exists more, seed_table hash rows t = t ++ more.
Proof.
  revert t. induction rows as [|row rows IH]; intros t; cbn.
  - exists []. now rewrite app_nil_r.
  - destruct (insert_department_grows hash t row) as [m1 H1].
    destruct (IH (insert_department hash t row)) as [m2 H2].
    exists (m1 ++ m2). unfold seed_table in H2. now rewrite H2, H1, app_assoc.
Qed.

Lemma seed_table_conflicts hash rows t name mail password :
  In (name, mail, password) rows
  \/ unique_conflict t name mail = true ->
  unique_conflict (seed_table hash rows t) name mail = true.
Proof.
  revert t. induction rows as [|row rows IH]; intros t [Hin|Hc].
  - contradiction.
  - exact Hc.
  - cbn. apply IH. destruct Hin as [->|Hin]; [right|now left].
    apply insert_department_conflict.
  - cbn. apply IH. right.
    destruct (insert_department_grows hash t row) as [more ->].
    now apply unique_conflict_app.
Qed.

Lemma seed_table_fixed hash rows t :
  (forall name mail password,
      In (name, mail, password) rows -> unique_conflict t name mail = true) ->
  seed_table hash rows t = t.
Proof.
  induction rows as [|[[name mail] password] rows IH]; intros H; [reflexivity|].
  cbn. unfold insert_department at 1.
  rewrite (H name mail password) by now left.
  apply IH. intros n m p Hin. apply (H n m p). now right.
Qed.

Lemma seed_table_idempotent hash rows t :
  seed_table hash rows (seed_table hash rows t) = seed_table hash rows t.
Proof.
  apply seed_table_fixed. intros name mail password Hin.
  apply (seed_table_conflicts hash rows t name mail password). now left.
Qed.

Lemma next_dept_id_fresh t d : In d t -> dept_id d < next_dept_id t.
Proof.
  unfold next_dept_id. induction t as [|x t IH]; intros Hin; [contradiction|].
  cbn. destruct Hin as [->|Hin]; [lia|]. specialize (IH Hin). lia.
Qed.

Lemma no_conflict_fresh t name mail :
  unique_conflict t name mail = false ->
  ~ In name (List.map dept_name t) /\ ~ In mail (List.map email t).
Proof.
  unfold unique_conflict. intros H.
  split; intros Hin; apply in_map_iff in Hin; destruct Hin as (d & <- & Hd);
    apply Bool.not_true_iff_false in H; apply H, existsb_exists; exists d;
    (split; [exact Hd|]); rewrite String.eqb_refl; [reflexivity | apply orb_true_r].
Qed.

Lemma NoDup_snoc_fresh {A} (l : list A) x :
  NoDup l -> ~ In x l -> NoDup (l ++ [x]).
Proof.
  intros Hl Hx. apply NoDup_app. split; [exact Hl|]. split.
  - intros y Hy Hy'. apply list_elem_of_In in Hy.
    apply list_elem_of_In in Hy'. destruct Hy' as [<-|[]]. contradiction.
  - apply NoDup_singleton.
Qed.

Lemma insert_department_keyed hash t row :
  well_keyed t -> well_keyed (insert_department hash t row).
Proof.
  destruct row as [[name mail] password]. unfold insert_department.
  destruct (unique_conflict t name mail) eqn:E; [trivial|].
  intros (Hid & Hname & Hmail).
  destruct (no_conflict_fresh _ _ _ E) as [Hn Hm].
  unfold well_keyed. rewrite !map_app. cbn.
  split; [|split]; apply NoDup_snoc_fresh; try assumption.
  intros Hin. apply in_map_iff in Hin. destruct Hin as (d & Heq & Hd).
  apply next_dept_id_fresh in Hd. lia.
Qed.

Lemma seed_table_keyed hash rows t :
  well_keyed t -> well_keyed (seed_table hash rows t).
Proof.
  revert t. induction rows as [|row rows IH]; intros t H; [exact H|].
  cbn. apply IH. now apply insert_department_keyed.
Qed.

Lemma drop_tail {A} n (l : list A) : drop (S n) l = drop n (tail l).
Proof. destruct l; [cbn; now rewrite drop_nil | reflexivity]. Qed.

Lemma calm_oracle_snoc n l :
  calm_oracle (S n) l <-> calm_oracle n l /\ hd false (drop n l) = false.
Proof.
  revert l. induction n as [|n IH]; intros l.
  - cbn. rewrite drop_0. tauto.
  - change (calm_oracle (S (S n)) l)
      with (hd false l = false /\ calm_oracle (S n) (tail l)).
    rewrite IH, drop_tail. cbn. tauto.
Qed.

Lemma console_only_refl s : console_only s s.
Proof. repeat split. Qed.

Lemma console_only_trans s1 s2 s3 :
  console_only s1 s2 -> console_only s2 s3 -> console_only s1 s3.
Proof.
  unfold console_only. intros (A1 & A2 & A3 & A4 & A5 & A6) (B1 & B2 & B3 & B4 & B5 & B6).
  repeat split; congruence.
Qed.

Lemma insert_samples_run hash rows t a s :
  exists s' r,
    insert_samples hash rows t a s = (s', r)
    /\ console_only s s'
    /\ (calm (length rows) s ->
        exists a', r = Ok (seed_table hash rows t, a')
                   /\ faults s' = drop (length rows) (faults s))
    /\ (~ calm (length rows) s -> exists e, r = Raise e).
Proof.
  revert t a s. induction rows as [|[[name mail] password] rows IH]; intros t a s.
  - exists s, (Ok (t, a)). split; [reflexivity|]. split; [apply console_only_refl|].
    split.
    + intros _. exists a. now rewrite drop_0.
    + intros H. elim H. exact Logic.I.
  - cbn [insert_samples length].
    destruct (hd false (faults s)) eqn:Hf.
    + rewrite (bind_ok _ _ _ _ _ (fails_now _ Hf)).
      eexists _, _. split; [reflexivity|]. split; [repeat split|].
      split.
      * intros [Hc _]. congruence.
      * intros _. eexists. reflexivity.
    + rewrite (bind_ok _ _ _ _ _ (fails_calm 0 _ (calm_1 _ Hf))).
      assert (Hstep : forall line t' a',
                 exists s' r,
                   (print line ;; insert_samples hash rows t' a') (pop s) = (s', r)
                   /\ console_only s s'
                   /\ (calm (S (length rows)) s ->
                       exists a'', r = Ok (seed_table hash rows t', a'')
                                   /\ faults s' = drop (S (length rows)) (faults s))
                   /\ (~ calm (S (length rows)) s -> exists e, r = Raise e)).
      { intros line t' a'. rewrite (bind_ok _ _ _ _ _ eq_refl).
        destruct (IH t' a' (set_stdout (stdout (pop s) ++ [line]) (pop s)))
          as (s' & r & Hrun & Hframe & Hc & Hn).
        exists s', r. split; [exact Hrun|].
        split; [refine (console_only_trans _ _ _ _ Hframe); repeat split|]. split.
        - intros [_ Hcalm]. destruct (Hc Hcalm) as (a'' & -> & Hfa).
          exists a''. split; [reflexivity|]. now rewrite drop_tail.
        - intros Hnot. apply Hn. intros Hcalm. apply Hnot. split; assumption. }
      destruct (unique_conflict t name mail) eqn:E.
      * destruct (Hstep ("⚠ Department " +:+ name +:+ " already exists") t a)
          as (s' & r & Hrun & Hframe & Hc & Hn).
        exists s', r. split; [exact Hrun|]. split; [exact Hframe|].
        assert (Hs : seed_table hash ((name, mail, password) :: rows) t
                     = seed_table hash rows t).
        { unfold seed_table. cbn [fold_left]. f_equal.
          unfold insert_department. now rewrite E. }
        rewrite Hs. split; assumption.
      * destruct (Hstep ("✓ Added department: " +:+ name)
                    (insert_department hash t (name, mail, password)) (a + 1))
          as (s' & r & Hrun & Hframe & Hc & Hn).
        exists s', r. split; [exact Hrun|]. split; [exact Hframe|].
        split; assumption.
Qed.

Lemma add_sample_departments_run s :
  exists s' b,
    add_sample_departments sha256 s = (s', Ok b)
    /\ data_entries s' = data_entries s /\ system_logs s' = system_logs s
    /\ files s' = files s /\ stats s' = stats s /\ sent s' = sent s
    /\ (calm 10 s ->
        b = true
        /\ departments s' = seed_table sha256 sample_departments (departments s))
    /\ (~ calm 10 s -> b = false /\ departments s' = departments s).
Proof.
  unfold add_sample_departments, try_except.
  change (calm 10 s) with (calm (S (S (length sample_departments))) s).
  generalize sample_departments as rows. intros rows.
  destruct (hd false (faults s)) eqn:Hf.
  { rewrite (bind_raise _ _ _ _ _ (connect_fault _ Hf)).
    eexists _, _. split; [reflexivity|].
    repeat (split; [reflexivity|]). split.
    - intros [Hc _]. congruence.
    - intros _. now split. }
  rewrite (bind_ok _ _ _ _ _ (connect_calm 0 _ (calm_1 _ Hf))).
  rewrite (bind_ok _ _ _ _ _ eq_refl).
  destruct (insert_samples_run sha256 rows (departments (pop s)) 0 (pop s))
    as (s1 & r & Hrun & (F1 & F2 & F3 & F4 & F5 & F6) & Hc & Hn).
  destruct (calm_dec (length rows) (pop s)) as [H8|H8].
  - destruct (Hc H8) as (a' & -> & Hfa).
    assert (Hfa' : faults s1 = drop (length rows) (tail (faults s))) by exact Hfa.
    rewrite (bind_ok _ _ _ _ _ Hrun).
    destruct (hd false (faults s1)) eqn:Hf1.
    + rewrite (bind_ok _ _ _ _ _ (fails_now _ Hf1)).
      eexists _, _. split; [reflexivity|].
      split; [exact F2|]. split; [exact F3|]. split; [exact F4|].
      split; [exact F5|]. split; [exact F6|]. split.
      * intros [_ H9]. apply (calm_oracle_snoc (length rows)) in H9.
        destruct H9 as [_ H9]. rewrite <- Hfa' in H9. congruence.
      * intros _. split; [reflexivity | exact F1].
    + rewrite (bind_ok _ _ _ _ _ (fails_calm 0 _ (calm_1 _ Hf1))).
      eexists _, _. split; [reflexivity|].
      split; [exact F2|]. split; [exact F3|]. split; [exact F4|].
      split; [exact F5|]. split; [exact F6|]. split.
      * intros _. split; reflexivity.
      * intros Hnot. elim Hnot. split; [exact Hf|].
        apply (calm_oracle_snoc (length rows)). split; [exact H8|].
        now rewrite <- Hfa'.
  - destruct (Hn H8) as (e & ->).
    rewrite (bind_raise _ _ _ _ _ Hrun).
    eexists _, _. split; [reflexivity|].
    split; [exact F2|]. split; [exact F3|]. split; [exact F4|].
    split; [exact F5|]. split; [exact F6|]. split.
    + intros [_ H9]. elim H8. now apply calm_weaken.
    + intros _. split; [reflexivity | exact F1].
Qed.

(** X19: what [add_sample_departments] does, in every case.  It never
    raises.  When the database answers the ten operations (connect, eight
    inserts, commit) it returns [True] and the table is the old one followed
    by the samples that clash with no name and no email already there, in
    the order of the list; otherwise it returns [False] and the table is as
    it was: a failure in the middle leaves no part of the samples behind.
    Entries, logs, files and counters are never touched. *)
Theorem seeding_is_all_or_nothing s :
  exists s' b,
    add_sample_departments sha256 s = (s', Ok b)
    /\ data_entries s' = data_entries s /\ system_logs s' = system_logs s
    /\ files s' = files s /\ stats s' = stats s /\ sent s' = sent s
    /\ (exists more, departments s' = departments s ++ more)
    /\ (calm 10 s <-> b = true)
    /\ (b = true ->
        departments s' = seed_table sha256 sample_departments (departments s))
    /\ (b = false -> departments s' = departments s).
Proof.
  destruct (add_sample_departments_run s)
    as (s' & b & Hrun & H1 & H2 & H3 & H4 & H5 & Hc & Hn).
  exists s', b. split; [exact Hrun|].
  split; [exact H1|]. split; [exact H2|]. split; [exact H3|].
  split; [exact H4|]. split; [exact H5|].
  destruct (calm_dec 10 s) as [H|H].
  - destruct (Hc H) as [-> Hd]. split; [rewrite Hd; apply seed_table_grows|].
    split; [tauto|]. split; [intros _; exact Hd | discriminate].
  - destruct (Hn H) as [-> Hd]. split; [exists []; now rewrite app_nil_r|].
    split; [split; [tauto | discriminate]|].
    split; [discriminate | intros _; exact Hd].
Qed.

(** X20: seeding keeps the keys of [departments] distinct: if the ids, the
    names and the emails of the table are pairwise distinct before
    [add_sample_departments], they are after it, whatever was in the table
    and whether or not the run succeeded. *)
Theorem seeding_keeps_keys_distinct s :
  well_keyed (departments s) ->
  well_keyed (departments (fst (add_sample_departments sha256 s))).
Proof.
  intros H.
  destruct (add_sample_departments_run s)
    as (s' & b & Hrun & _ & _ & _ & _ & _ & Hc & Hn).
  rewrite Hrun. cbn [fst].
  destruct (calm_dec 10 s) as [Hcalm|Hcalm].
  - destruct (Hc Hcalm) as [_ ->]. now apply seed_table_keyed.
  - destruct (Hn Hcalm) as [_ ->]. exact H.
Qed.

(** X21: seeding twice adds nothing: after a run of
    [add_sample_departments] that succeeded, another run leaves the table
    [departments] as it is, whether it succeeds or fails. *)
Theorem seeding_twice_adds_nothing s s1 :
  add_sample_departments sha256 s = (s1, Ok true) ->
  departments (fst (add_sample_departments sha256 s1)) = departments s1.
Proof.
  intros Hrun.
  destruct (add_sample_departments_run s)
    as (s' & b & Hrun' & _ & _ & _ & _ & _ & Hc & Hn).
  rewrite Hrun in Hrun'. inversion Hrun'; subst s' b.
  assert (Hd : departments s1
               = seed_table sha256 sample_departments (departments s)).
  { destruct (calm_dec 10 s) as [H|H]; [now apply Hc|].
    destruct (Hn H) as [? _]. discriminate. }
  destruct (add_sample_departments_run s1)
    as (s2 & b2 & Hrun2 & _ & _ & _ & _ & _ & Hc2 & Hn2).
  rewrite Hrun2. cbn [fst].
  destruct (calm_dec 10 s1) as [H|H].
  - destruct (Hc2 H) as [_ ->]. rewrite Hd. apply seed_table_idempotent.
  - now destruct (Hn2 H) as [_ ->].
Qed.

Lemma seed_table_empty hash : seed_table hash sample_departments [] = seeded hash.
Proof. reflexivity. Qed.

Lemma seeded_credentials name mail pw h w :
  In (name, mail, pw) sample_departments ->
  departments w = seeded sha256 ->
  exists id,
    q_credentials mail h w
    = if String.eqb (sha256 pw) h then Some (id, name) else None.
Proof.
  intros Hin Hd. unfold q_credentials. rewrite Hd.
  cbn in Hin.
  repeat (destruct Hin as [Hin|Hin];
          [inversion Hin; subst; cbn; eexists;
           destruct (String.eqb _ h); reflexivity|]).
  contradiction.
Qed.

(** X22: the setup script and the server agree on the samples.  After
    [add_sample_departments] has succeeded on an empty table, every sample
    department logs in with the email and the password of the list, as the
    department of that name; this holds whatever the digest function is, also
    for the two departments that share a password. *)
Theorem seeded_departments_can_log_in s s1 w name mail pw :
  departments s = [] ->
  add_sample_departments sha256 s = (s1, Ok true) ->
  departments w = departments s1 -> calm 2 w ->
  In (name, mail, pw) sample_departments ->
  exists w' id, authenticate_department mail pw w = (w', Ok (AuthSuccess id name)).
Proof.
  intros Hempty Hrun Hw Hcalm Hin.
  destruct (add_sample_departments_run s)
    as (s' & b & Hrun' & _ & _ & _ & _ & _ & Hc & Hn).
  rewrite Hrun in Hrun'. inversion Hrun'; subst s' b.
  assert (Hd : departments w = seeded sha256).
  { rewrite Hw. destruct (calm_dec 10 s) as [H|H].
    - destruct (Hc H) as [_ ->]. rewrite Hempty. apply seed_table_empty.
    - destruct (Hn H) as [? _]. discriminate. }
  destruct (seeded_credentials name mail pw (sha256 pw) w Hin Hd) as [id Hq].
  rewrite String.eqb_refl in Hq.
  rewrite (authenticate_calm mail pw w Hcalm), Hq.
  eexists _, id. reflexivity.
Qed.

(** X23: the passwords [display_sample_credentials] prints are computed from
    the emails, not read from the list.  For a sample department the printed
    password is the one that was seeded exactly when the department is
    neither Chemistry nor English; and on the seeded table a login with the
    printed password succeeds exactly when its digest is the digest of the
    seeded one.  So the table of credentials shows, for those two
    departments, a password that logs in only by a collision of the digest. *)
Theorem displayed_credentials_differ_for_two name mail pw w :
  In (name, mail, pw) sample_departments ->
  departments w = seeded sha256 -> calm 2 w ->
  (displayed_password mail = pw <-> name <> "Chemistry" /\ name <> "English")
  /\ ((exists w' id,
          authenticate_department mail (displayed_password mail) w
          = (w', Ok (AuthSuccess id name)))
      <-> sha256 (displayed_password mail) = sha256 pw).
Proof.
  intros Hin Hd Hcalm. split.
  - cbn in Hin.
    repeat (destruct Hin as [Hin|Hin];
            [inversion Hin; subst; vm_compute; split;
             [intros H; try discriminate H; split; intros H'; discriminate H'
             |intros [H1 H2]; try reflexivity;
              first [now elim H1 | now elim H2]]|]).
    contradiction.
  - destruct (seeded_credentials name mail pw
                (sha256 (displayed_password mail)) w Hin Hd) as [id Hq].
    rewrite (authenticate_calm _ _ w Hcalm), Hq.
    destruct (String.eqb_spec (sha256 pw) (sha256 (displayed_password mail)))
      as [Heq|Hne].
    + split; [intros _; now symmetry|]. intros _. eexists _, id. reflexivity.
    + split.
      * intros (w' & id' & H). inversion H.
      * intros H. now elim Hne.
Qed.

(** * The client and the server *)


Lemma run_result {A} (m : M A) s r : snd (m s) = r -> m s = (fst (m s), r).
Proof. intros <-. now destruct (m s). Qed.






End Server.

(** * Closed instances: the claims at concrete inputs

    The parameters are instantiated with [checksum] for the digest,
    [JsonText.loads] for the JSON reader and [table_order] for the order of
    groups with equal counts. *)

Import JsonText.

(** ** C1 *)

(** C1 (as stated) fails: an email with a space in front matches no seeded
    department exactly, yet the login succeeds, because the handler trims
    both fields before it looks them up. *)
Lemma login_succeeds_without_exact_match :
  let text := quoted
    "{'action': 'login', 'email': ' cs@college.edu', 'password': 'cs_password123'}" in
  (forall d, In d (departments (fresh checksum)) ->
             ~ (email d = " cs@college.edu"
                /\ password_hash d = checksum "cs_password123"))
  /\ snd (iteration checksum loads table_order localhost new_session (RecvData text)
            (fresh checksum))
     = Ok ({| authenticated := true;
              dept_info := Some (AuthSuccess 1 "Computer Science") |}, Continue).
Proof.
  split.
  - intros d Hd [He _]. simpl in Hd.
    repeat (destruct Hd as [<-|Hd]; [discriminate He|]). exact Hd.
  - vm_compute. reflexivity.
Qed.

Lemma login_by_trimmed_credentials_witness :
  exists s',
    dispatch checksum table_order localhost new_session
      (JObj [("action", JStr "login"); ("email", JStr "  cs@college.edu ");
             ("password", JStr "cs_password123")])
      (fresh checksum)
    = (s', Ok ({| authenticated := true;
                  dept_info := Some (AuthSuccess 1 "Computer Science") |},
               Continue))
    /\ sent s'
       = [(localhost,
           JObj [("status", JStr "success");
                 ("message", JStr "Welcome Computer Science!");
                 ("dept_info",
                  JObj [("success", JBool true); ("dept_id", JNum 1);
                        ("dept_name", JStr "Computer Science")])])].
Proof.
  assert (He : Py.strip "  cs@college.edu " <> EmptyString)
    by (vm_compute; intros H; discriminate H).
  assert (Hp : Py.strip "cs_password123" <> EmptyString)
    by (vm_compute; intros H; discriminate H).
  assert (Hcalm : calm 2 (fresh checksum)) by (unfold calm; simpl; auto).
  assert (Hnd : NoDup (List.map email (departments (fresh checksum))))
    by (apply (bool_decide_unpack _); vm_compute; reflexivity).
  assert (Hin : In {| dept_id := 1; dept_name := "Computer Science";
                      email := "cs@college.edu";
                      password_hash := checksum "cs_password123" |}
                   (departments (fresh checksum))) by (simpl; auto).
  exact (proj1 (login_by_trimmed_credentials checksum table_order localhost new_session
                  [("action", JStr "login"); ("email", JStr "  cs@college.edu ");
                   ("password", JStr "cs_password123")]
                  "  cs@college.edu " "cs_password123" (fresh checksum)
                  eq_refl eq_refl eq_refl eq_refl)
               _ He Hp Hcalm Hnd Hin eq_refl eq_refl).
Defined.

(** ** C2 *)

(** C2 (as stated) fails: in an unauthenticated session a submission with an
    empty content is turned away with the message about authentication, which
    is none of the messages about a field. *)
Lemma unauthenticated_rejection_not_about_a_field :
  let text := quoted
    "{'action': 'submit_data', 'entry_type': 'Notes', 'data_content': '   '}" in
  iteration checksum loads table_order localhost new_session (RecvData text) (fresh checksum)
  = (set_sent [(localhost,
                error_response "Invalid action or authentication required")]
       (fresh checksum),
     Ok (new_session, Continue))
  /\ ~ In "Invalid action or authentication required" field_messages.
Proof.
  split.
  - vm_compute. reflexivity.
  - simpl. intuition discriminate.
Qed.

(** The length that counts is the one after trimming: a content of 10,001
    characters of which 10,000 are trailing spaces is accepted and stored. *)
Example padded_content_is_accepted :
  let content := String "a" (Py.repeat_char " " (Z.to_nat 10000)) in
  Py.len content = 10001
  /\ data_entries
       (fst (dispatch checksum table_order localhost cs_session
               (JObj [("action", JStr "submit_data");
                      ("entry_type", JStr "Notes");
                      ("data_content", JStr content)])
               (fresh checksum)))
     = [{| entry_id := 1; entry_dept_id := 1; entry_type := "Notes";
           data_content := "a"; created_at := "2025-03-14 12:00:00" |}].
Proof. split; vm_compute; reflexivity. Qed.

Lemma invalid_submission_rejected_witness :
  exists s' message,
    dispatch checksum table_order localhost cs_session
      (JObj [("action", JStr "submit_data"); ("entry_type", JStr "Notes");
             ("data_content", JStr "   ")])
      (fresh checksum)
    = (s', Ok (cs_session, Continue))
    /\ sent s' = [(localhost, error_response message)]
    /\ data_entries s' = []
    /\ message = "Both category and content are required".
Proof.
  assert (Hok : session_ok cs_session).
  { intros _. exists 1, "Computer Science". reflexivity. }
  assert (Hbad : Py.strip "Notes" = EmptyString \/ Py.strip "   " = EmptyString
                 \/ 10000 < Py.len (Py.strip "   "))
    by (right; left; reflexivity).
  destruct (invalid_submission_rejected checksum table_order localhost cs_session
              [("action", JStr "submit_data"); ("entry_type", JStr "Notes");
               ("data_content", JStr "   ")]
              "Notes" "   " (fresh checksum) Hok eq_refl eq_refl eq_refl Hbad)
    as (s' & message & Hrun & Hsent & Hent & _ & Hboth & _).
  exists s', message. repeat split; try assumption.
  apply Hboth; [reflexivity | right; reflexivity].
Defined.

(** ** C3 *)



(** The two most recent of the three entries, newest first. *)
Example recent_entries_of_busy :
  snd (get_recent_entries 2 (busy checksum))
  = Ok [{| sum_dept_name := "Computer Science"; sum_entry_type := "Student Records";
           content_preview := "Grades of the winter term";
           sum_created_at := "2025-03-14 11:05:00" |};
        {| sum_dept_name := "Mathematics"; sum_entry_type := "Research";
           content_preview := "Seminar on number theory";
           sum_created_at := "2025-03-14 10:40:00" |}].
Proof. vm_compute. reflexivity. Qed.

(** ** C4 *)

(** C4: the failing input.  The client's [submit_data] accepts a content of
    1,100 characters and sends the request as one JSON text of 1,168
    characters.  The handler reads it as two texts, of 1,024 and of 144
    characters, and gives each to [json.loads] on its own: it answers each
    with an error and stores nothing, although the text as a whole is the
    request the client built.  The login before it, which fits one read, is
    served. *)
Lemma long_submission_is_never_assembled :
  let content := Py.repeat_char "x" 1100 in
  let message := JObj [("action", JStr "submit_data"); ("entry_type", JStr "Notes");
                       ("data_content", JStr content)] in
  let text := quoted "{'action': 'submit_data', 'entry_type': 'Notes', 'data_content': '"
              +:+ content +:+ quoted "'}" in
  let login := quoted
    "{'action': 'login', 'email': 'cs@college.edu', 'password': 'cs_password123'}" in
  let s' := fst (handle_client checksum loads table_order localhost
                   [RecvData login; RecvData text] (fresh checksum)) in
  client_submit_request true "Notes" content = inr message
  /\ loads text = inr message
  /\ List.map (fun r => match r with
                        | RecvData d => String.length d
                        | _ => O
                        end)
              (recv_stream 1024 [RecvData text])
     = [1024%nat; 144%nat]
  /\ data_entries s' = []
  /\ List.map snd (sent s')
     = [JObj [("status", JStr "success");
              ("message", JStr "Welcome Computer Science!");
              ("dept_info",
               JObj [("success", JBool true); ("dept_id", JNum 1);
                     ("dept_name", JStr "Computer Science")])];
        error_response "Invalid JSON format: Unterminated string starting at";
        error_response "Invalid JSON format: Expecting value"].
Proof. repeat split; vm_compute; reflexivity. Qed.

(** The same with a short message that the network delivers in two pieces:
    a login that parses as a whole is answered with two errors and never
    takes place. *)
Example message_in_two_reads_is_rejected :
  let part1 := quoted "{'action': 'login', 'email': 'cs@college.edu'," in
  let part2 := quoted " 'password': 'cs_password123'}" in
  loads (part1 +:+ part2)
  = inr (JObj [("action", JStr "login"); ("email", JStr "cs@college.edu");
               ("password", JStr "cs_password123")])
  /\ sent (fst (handle_client checksum loads table_order localhost
                  [RecvData part1; RecvData part2] (fresh checksum)))
     = [(localhost,
         error_response
           "Invalid JSON format: Expecting property name enclosed in double quotes");
        (localhost, error_response "Invalid JSON format: Extra data")].
Proof. split; vm_compute; reflexivity. Qed.

(** One read that does not parse, at a concrete input. *)
Example first_piece_is_answered_with_an_error :
  let part1 := quoted "{'action': 'login', 'email': 'cs@college.edu'," in
  iteration checksum loads table_order localhost new_session (RecvData part1)
    (fresh checksum)
  = (set_sent
       [(localhost,
         error_response
           ("Invalid JSON format: "
            +:+ "Expecting property name enclosed in double quotes"))]
       (fresh checksum),
     Ok (new_session, Continue)).
Proof.
  exact (proj1 (unparsable_read_answered_at_once checksum loads table_order
                  localhost new_session
                  (quoted "{'action': 'login', 'email': 'cs@college.edu',")
                  "Expecting property name enclosed in double quotes"
                  [] (fresh checksum) eq_refl eq_refl)).
Qed.

(** ** C5 *)



(** The rows of the summary by category for the three entries. *)
Example summary_rows_of_busy :
  List.map (category_row (q_count_entries (busy checksum)))
           (q_type_stats table_order (busy checksum))
  = [["Student Records"; "2"; "66.7%"]; ["Research"; "1"; "33.3%"]].
Proof. vm_compute. reflexivity. Qed.

(** ** C6 *)

Lemma submit_succeeds_whatever_the_export_witness :
  let s := set_faults [false; false; false; false; false; false; false; true; true]
             (fresh checksum) in
  exists s',
    dispatch checksum table_order localhost cs_session
      (JObj [("action", JStr "submit_data"); ("entry_type", JStr " Notes ");
             ("data_content", JStr "Minutes of the board")]) s
    = (s', Ok (cs_session, Continue))
    /\ sent s'
       = [(localhost,
           JObj [("status", JStr "success");
                 ("message",
                  JStr ("Data saved successfully! Entry ID: "
                        +:+ Py.str_of_int 1
                        +:+ ". CSV export completed for data analysis."));
                 ("entry_id", JNum 1);
                 ("dept_name", JStr "Computer Science")])]
    /\ In "[2025-03-14 12:00:00] CSV auto-export failed" (stdout s').
Proof.
  intros s.
  assert (Hte : Py.strip " Notes " <> EmptyString)
    by (vm_compute; intros H; discriminate H).
  assert (Hce : Py.strip "Minutes of the board" <> EmptyString)
    by (vm_compute; intros H; discriminate H).
  assert (Hlen : Py.len (Py.strip "Minutes of the board") <= 10000)
    by (vm_compute; intros H; discriminate H).
  assert (Hcalm : calm 4 s) by (unfold calm; simpl; auto).
  assert (Hid : (1 : Z) <> 0) by lia.
  destruct (submit_succeeds_whatever_the_export checksum table_order localhost cs_session
              [("action", JStr "submit_data"); ("entry_type", JStr " Notes ");
               ("data_content", JStr "Minutes of the board")]
              " Notes " "Minutes of the board" 1 "Computer Science"
              "Computer Science" s
              eq_refl eq_refl eq_refl eq_refl eq_refl Hid Hte Hce Hlen Hcalm eq_refl)
    as (s' & Hrun & Hsent & _ & Hout).
  exists s'. split; [exact Hrun|]. split; [exact Hsent | exact Hout].
Defined.

(** ** C7 *)

Lemma rejected_action_changes_nothing_witness :
  exists s',
    dispatch checksum table_order localhost new_session
      (JObj [("action", JStr "get_stats")]) (busy checksum)
    = (s', Ok (new_session, Continue))
    /\ sent s' = [(localhost,
                   error_response "Invalid action or authentication required")]
    /\ data_entries s' = data_entries (busy checksum).
Proof.
  destruct (rejected_action_changes_nothing checksum table_order localhost new_session
              [("action", JStr "get_stats")] (busy checksum)
              (or_intror (conj eq_refl eq_refl)))
    as (s' & Hrun & Hsent & Hent & _).
  exists s'. repeat split; assumption.
Defined.

(** ** C8 *)


(** 23 entries of 80: the quotient and its product with 100 are rounded to
    doubles, which gives 28.749999999999996, printed as 28.7; the exact
    percentage 28.75 would be printed as 28.8. *)
Example percentage_is_rounded_twice :
  format_1f (percentage 23 80) = "28.7"
  /\ format_1f (exact_percentage 23 80) = "28.8".
Proof. split; vm_compute; reflexivity. Qed.

(** ** C9 *)

(** One client logs in, submits, exports and asks for the counters; the
    answer counts one connection, one entry and no export. *)
Example counters_after_a_session :
  let texts :=
    [quoted "{'action':'login','email':'cs@college.edu','password':'cs_password123'}";
     quoted "{'action':'submit_data','entry_type':'Notes','data_content':'Minutes'}";
     quoted "{'action':'export_csv'}";
     quoted "{'action':'get_stats'}"] in
  let srv := server_run checksum loads table_order
               (Accept 7 localhost :: List.map (fun t => Turn 7 (RecvData t)) texts)
               (boot (fresh checksum)) in
  last (sent (world srv))
  = Some (localhost,
          JObj [("status", JStr "success");
                ("stats", JObj [("connections", JNum 1); ("data_entries", JNum 1);
                                ("exports", JNum 0)])]).
Proof. vm_compute. reflexivity. Qed.

Lemma exports_counter_never_incremented_witness :
  st_exports
    (stats (world (server_run checksum loads table_order
                     [Accept 7 localhost;
                      Turn 7 (RecvData (quoted "{'action':'export_csv'}"))]
                     (boot (fresh checksum)))))
  = 0.
Proof.
  exact (proj1 (exports_counter_never_incremented checksum loads table_order
                  [Accept 7 localhost;
                   Turn 7 (RecvData (quoted "{'action':'export_csv'}"))]
                  (fresh checksum))).
Defined.

(** ** C10 *)

Lemma get_recent_ignores_request_fields_witness :
  dispatch checksum table_order localhost cs_session
    (JObj [("action", JStr "get_recent"); ("limit", JNum 1)]) (busy checksum)
  = dispatch checksum table_order localhost cs_session
      (JObj [("action", JStr "get_recent")]) (busy checksum).
Proof.
  exact (proj1 (get_recent_ignores_request_fields checksum table_order localhost cs_session
                  [("action", JStr "get_recent")]
                  [("action", JStr "get_recent"); ("limit", JNum 1)]
                  (busy checksum) eq_refl eq_refl eq_refl)).
Defined.

(** A request for one entry gets all three. *)
Example get_recent_with_limit_one :
  exists l,
    last (sent (fst (dispatch checksum table_order localhost cs_session
                       (JObj [("action", JStr "get_recent"); ("limit", JNum 1)])
                       (busy checksum))))
    = Some (localhost, JObj [("status", JStr "success"); ("data", JArr l)])
    /\ length l = 3%nat.
Proof. eexists. split; vm_compute; reflexivity. Qed.

(** * Closed instances: more properties of the server *)

Lemma save_failure_names_its_cause_witness :
  failure_cause 1 "Research" "   " (busy checksum) "Data content is required"
  /\ data_entries (busy checksum) = data_entries (busy checksum).
Proof.
  apply (save_failure_names_its_cause table_order 1 "Research" "   "
           (busy checksum) (busy checksum)).
  vm_compute. reflexivity.
Defined.

Lemma entry_ids_stay_distinct_witness :
  let evs :=
    [Accept 7 localhost;
     Turn 7 (RecvData (quoted
       "{'action': 'login', 'email': 'cs@college.edu', 'password': 'cs_password123'}"));
     Turn 7 (RecvData (quoted
       "{'action': 'submit_data', 'entry_type': 'Research', 'data_content': 'Seminar on graphs'}"))] in
  NoDup (List.map entry_id
           (data_entries (world (server_run checksum loads table_order evs (boot (busy checksum)))))).
Proof.
  intros evs.
  apply (entry_ids_stay_distinct checksum loads table_order evs (boot (busy checksum))).
  apply (bool_decide_unpack _). vm_compute. reflexivity.
Defined.

(** The session of the example above stores a fourth entry. *)
Example ids_after_a_session :
  List.map entry_id
    (data_entries
       (world (server_run checksum loads table_order
                 [Accept 7 localhost;
                  Turn 7 (RecvData (quoted
                    "{'action': 'login', 'email': 'cs@college.edu', 'password': 'cs_password123'}"));
                  Turn 7 (RecvData (quoted
                    "{'action': 'submit_data', 'entry_type': 'Research', 'data_content': 'Seminar on graphs'}"))]
                 (boot (busy checksum)))))
  = [1; 2; 3; 4].
Proof. vm_compute. reflexivity. Qed.

Lemma session_only_moves_forward_witness :
  let text := quoted
    "{'action': 'login', 'email': 'math@college.edu', 'password': 'math_password123'}" in
  let cs := {| dept_id := 1; dept_name := "Computer Science";
               email := "cs@college.edu";
               password_hash := checksum "cs_password123" |} in
  snd (iteration checksum loads table_order localhost (bound_to cs) (RecvData text)
         (fresh checksum))
  = Ok (bound_to cs, Continue)
  /\ (authenticated (bound_to cs) = true -> bound_to cs = bound_to cs).
Proof.
  intros text cs.
  assert (H : snd (iteration checksum loads table_order localhost (bound_to cs) (RecvData text)
                     (fresh checksum))
              = Ok (bound_to cs, Continue)) by (vm_compute; reflexivity).
  split; [exact H|].
  exact (proj1 (session_only_moves_forward checksum loads table_order localhost (bound_to cs)
                  (RecvData text) (fresh checksum) _ (bound_to cs) Continue
                  (run_result _ _ _ H))).
Defined.

Lemma sessions_stay_bound_witness :
  session_bound (departments (fresh checksum))
    (bound_to {| dept_id := 2; dept_name := "Mathematics";
                 email := "math@college.edu";
                 password_hash := checksum "math_password123" |}).
Proof.
  apply (sessions_stay_bound checksum loads table_order
           [Accept 7 localhost;
            Turn 7 (RecvData (quoted
              "{'action': 'login', 'email': 'math@college.edu', 'password': 'math_password123'}"));
            Accept 8 localhost;
            Turn 7 (RecvData (quoted "{'action': 'get_stats'}"))]
           (fresh checksum) 7 localhost).
  vm_compute. reflexivity.
Defined.

Lemma non_object_message_ends_session_witness :
  exists s' detail,
    thread_turn checksum loads table_order localhost cs_session (RecvData "[1, 2]")
      (fresh checksum)
    = (s', Ok None)
    /\ sent s' = [] /\ data_entries s' = []
    /\ stdout s'
       = ["[2025-03-14 12:00:00] Client handler error for ('127.0.0.1', 50000): "
          +:+ detail;
          "[2025-03-14 12:00:00] Connection with ('127.0.0.1', 50000) closed"].
Proof.
  destruct (non_object_message_ends_session checksum loads table_order localhost cs_session
              "[1, 2]" (JArr [JNum 1; JNum 2]) (fresh checksum))
    as (s' & detail & Hrun & Hs & He & _ & _ & Ho).
  - reflexivity.
  - vm_compute. reflexivity.
  - intros fields H. discriminate H.
  - exists s', detail. split; [exact Hrun|]. split; [exact Hs|]. split; [exact He|].
    exact Ho.
Defined.

Lemma get_recent_hides_database_errors_witness :
  exists s' detail,
    dispatch checksum table_order localhost cs_session (JObj [("action", JStr "get_recent")])
      (set_faults [true] (busy checksum))
    = (s', Ok (cs_session, Continue))
    /\ sent s'
       = [(localhost, JObj [("status", JStr "success"); ("data", JArr [])])]
    /\ stdout s'
       = ["[2025-03-14 12:00:00] Error getting recent entries: " +:+ detail].
Proof.
  destruct (get_recent_hides_database_errors checksum table_order localhost cs_session
              [("action", JStr "get_recent")] (set_faults [true] (busy checksum)))
    as (s' & detail & Hrun & Hs & Ho & _).
  - reflexivity.
  - reflexivity.
  - unfold calm. simpl. intros [H _]. discriminate H.
  - exists s', detail. split; [exact Hrun|]. split; [exact Hs|]. exact Ho.
Defined.

(** * Closed instances: the setup script *)

Lemma seeding_keeps_keys_distinct_witness :
  well_keyed (departments (fst (add_sample_departments checksum (fresh checksum)))).
Proof.
  apply (seeding_keeps_keys_distinct checksum (fresh checksum)).
  repeat split; apply (bool_decide_unpack _); vm_compute; reflexivity.
Defined.

Lemma seeding_twice_adds_nothing_witness :
  let s := set_departments [] (fresh checksum) in
  let s1 := fst (add_sample_departments checksum s) in
  departments (fst (add_sample_departments checksum s1)) = departments s1.
Proof.
  intros s s1.
  apply (seeding_twice_adds_nothing checksum s s1).
  apply (run_result (add_sample_departments checksum) s (Ok true)).
  vm_compute. reflexivity.
Defined.

(** On an empty table the script inserts the eight samples, numbered from 1. *)
Example seeding_an_empty_table :
  let s := set_departments [] (fresh checksum) in
  departments (fst (add_sample_departments checksum s)) = seeded checksum
  /\ List.map dept_id (seeded checksum) = [1; 2; 3; 4; 5; 6; 7; 8].
Proof. split; vm_compute; reflexivity. Qed.

Lemma seeded_departments_can_log_in_witness :
  let s := set_departments [] (fresh checksum) in
  let s1 := fst (add_sample_departments checksum s) in
  exists w' id,
    authenticate_department checksum "english@college.edu" "eng_password123" s1
    = (w', Ok (AuthSuccess id "English")).
Proof.
  intros s s1.
  apply (seeded_departments_can_log_in checksum s s1 s1
           "English" "english@college.edu" "eng_password123").
  - reflexivity.
  - apply (run_result (add_sample_departments checksum) s (Ok true)).
    vm_compute. reflexivity.
  - reflexivity.
  - unfold calm. vm_compute. auto.
  - simpl. auto 10.
Defined.

Lemma displayed_credentials_differ_for_two_witness :
  (displayed_password "chemistry@college.edu" = "chem_password123"
   <-> "Chemistry" <> "Chemistry" /\ "Chemistry" <> "English")
  /\ ((exists w' id,
          authenticate_department checksum "chemistry@college.edu"
            (displayed_password "chemistry@college.edu") (fresh checksum)
          = (w', Ok (AuthSuccess id "Chemistry")))
      <-> checksum (displayed_password "chemistry@college.edu")
          = checksum "chem_password123").
Proof.
  apply (displayed_credentials_differ_for_two checksum
           "Chemistry" "chemistry@college.edu" "chem_password123" (fresh checksum)).
  - simpl. auto 10.
  - reflexivity.
  - unfold calm. simpl. auto.
Defined.

(** What the script prints for Chemistry is not what it stored, and with
    this digest the printed password does not log in. *)
Example chemistry_is_shown_another_password :
  displayed_password "chemistry@college.edu" = "chemistry_password123"
  /\ snd (authenticate_department checksum "chemistry@college.edu"
            (displayed_password "chemistry@college.edu") (fresh checksum))
     = Ok (AuthFailure "Invalid credentials").
Proof. split; vm_compute; reflexivity. Qed.

(** * Closed instances: the client and the server *)

